(** * A shallow embedding of the point-of-sale ledger in [script.js]

    The program keeps one document, [posData], in memory and mirrors it to
    browser storage after every mutating handler.  Handlers are modelled as
    functions on that document (or, where they also touch the cart, the
    pending GRN or the page's input elements, on a [World]).

    Conventions of the embedding:
    - strings are [string]; [a === b] on strings is [String.eqb];
    - integers produced by [parseInt] are [Z];
    - money and other values produced by [parseFloat] are exact rationals
      [Q]; a failed parse ([NaN]) is [None].  Binary floating point rounding
      is not modelled, decimal rounding by [toFixed(2)] is;
    - [Array.prototype.find] followed by a field assignment on the found
      object is an update of the first matching element;
    - item objects (inventory entries, cart lines, sale lines) live in an
      object store and are referred to by location, because the code copies
      them ([{...item}], [JSON.parse(JSON.stringify(..))]) and mutates them in
      place; the same holds for GRN lines;
    - identifiers drawn from [crypto.randomUUID()] and the clock are
      arguments of the handler that draws them.

    The handlers of customers, of record deletion and of the dashboard, the
    receipt head, [savePOSData], the steps of the settings dialog and the
    two forms of [login.js] are modelled besides; a [session] is a series
    of the handlers that write the document, run on a loaded page. *)

From Stdlib Require Import ZArith QArith Qround Qminmax String Ascii List Lia Lqa Bool.
From stdpp Require Import base list.
Import ListNotations.
Open Scope string_scope.
Open Scope list_scope.

Set Implicit Arguments.

(* ------------------------------------------------------------------ *)
(** ** JavaScript values used by the program *)

(** A key of a parsed JSON object: missing, present with [null], or
    present with a value. *)
Inductive JField (A : Type) : Type :=
| Absent
| JNull
| Present (a : A).
Arguments Absent {A}.
Arguments JNull {A}.
Arguments Present {A} a.

(** The [stock] field of an item object.  Inventory entries carry an
    integer; a manual cart line carries [Infinity]; [JSON.stringify] turns
    [Infinity] and [NaN] into [null]. *)
Inductive Stock : Type :=
| Fin (z : Z)
| Infinity
| StockNaN
| StockNull.

(** [q > s] for an integer [q] and a stock value [s]
    ([null] is coerced to [0], comparisons with [NaN] are false). *)
Definition exceeds (q : Z) (s : Stock) : bool :=
  match s with
  | Fin z => (z <? q)%Z
  | Infinity => false
  | StockNaN => false
  | StockNull => (0 <? q)%Z
  end.

(** [s -= q] and [s += q]; a quantity that is [undefined] or [NaN] is
    [None] and gives [NaN]. *)
Definition stock_sub (s : Stock) (q : option Z) : Stock :=
  match q, s with
  | None, _ => StockNaN
  | Some q, Fin z => Fin (z - q)
  | Some _, Infinity => Infinity
  | Some _, StockNaN => StockNaN
  | Some q, StockNull => Fin (0 - q)
  end.

Definition stock_add (s : Stock) (q : Z) : Stock :=
  match s with
  | Fin z => Fin (z + q)
  | Infinity => Infinity
  | StockNaN => StockNaN
  | StockNull => Fin (0 + q)
  end.

(** [Number.prototype.toFixed(2)] followed by [parseFloat]: the nearest
    multiple of 0.01, ties away from zero. *)
Definition round_cents (x : Q) : Q := Qmake (Qfloor (x * 100 + (1 # 2))) 100.

Definition Qltb (x y : Q) : bool := negb (Qle_bool y x).

Definition toFixed2 (x : Q) : Q :=
  if Qltb x 0 then - round_cents (- x) else round_cents x.

(** [Math.min]. *)
Definition Math_min (x y : Q) : Q := if Qle_bool x y then x else y.

(** [String.prototype.trim] on ASCII white space. *)
Definition isSpace (a : ascii) : bool :=
  let n := nat_of_ascii a in
  (n =? 32)%nat || ((9 <=? n)%nat && (n <=? 13)%nat).

Fixpoint trimStart (s : string) : string :=
  match s with
  | EmptyString => EmptyString
  | String a r => if isSpace a then trimStart r else s
  end.

Fixpoint trimEnd (s : string) : string :=
  match s with
  | EmptyString => EmptyString
  | String a r =>
      let r' := trimEnd r in
      if isSpace a && (r' =? "") then EmptyString else String a r'
  end.

Definition trim (s : string) : string := trimEnd (trimStart s).

(** The value [crypto.randomUUID()] returns has the shape
    [xxxxxxxx-xxxx-xxxx-xxxx-xxxxxxxxxxxx]. *)
Definition isUUID (s : string) : bool :=
  (String.length s =? 36)%nat
  && match get 8 s, get 13 s, get 18 s, get 23 s with
     | Some a, Some b, Some c, Some d =>
         (a =? "-")%char && (b =? "-")%char && (c =? "-")%char && (d =? "-")%char
     | _, _, _, _ => false
     end.

(** A handler either shows an error and returns without touching the
    state, or runs to completion.  [msg] is the text of the error dialog;
    of a text built from a template (the stock, credit limit and due amount
    errors, which go on to name the item, the customer or the amounts) it
    keeps the fixed words the text opens with. *)
Inductive Result (S : Type) : Type :=
| Ok (s : S)
| Err (msg : string).
Arguments Ok {S} s.
Arguments Err {S} msg.

(** The state once the handler has returned. *)
Definition after {S : Type} (r : Result S) (old : S) : S :=
  match r with
  | Ok s => s
  | Err _ => old
  end.

Definition isOk {S : Type} (r : Result S) : bool :=
  match r with
  | Ok _ => true
  | Err _ => false
  end.

(** [Array.prototype.findIndex]. *)
Fixpoint findIndex {A : Type} (p : A -> bool) (l : list A) : option nat :=
  match l with
  | [] => None
  | x :: r => if p x then Some 0%nat else option_map S (findIndex p r)
  end.

(* ------------------------------------------------------------------ *)
(** ** The data model (the comments of [defaultPOSData]) *)

Record Shop := mkShop {
  shop_name : string;
  shop_address : string;
  shop_tp : string;
  dashboardLogo : string;
  receiptLogo : string
}.

(** An item object.  Inventory entries have no [qty]; cart lines are
    [{...item, qty}]; manual lines have no [threshold]. *)
Record Item := mkItem {
  item_id : string;
  code : string;
  name : string;
  description : string;
  price : Q;
  stock : Stock;
  threshold : option Z;
  qty : option Z
}.

Record Customer := mkCustomer {
  cust_id : string;
  cust_name : string;
  cust_address : string;
  cust_tp : string;
  creditLimit : Q;
  outstandingCredit : Q
}.

Record Channel := mkChannel {
  ch_id : string;
  ch_name : string;
  regNo : string;
  ch_address : string;
  hotline : string;
  ch_receiptLogo : string
}.

Record ChequeDetails := mkChequeDetails {
  cd_number : string;
  cd_bank : string;
  cd_dueDate : string
}.

Record SaleCustomer := mkSaleCustomer {
  sc_type : string;
  sc_id : string;
  sc_name : string;
  sc_address : string;
  sc_tp : string
}.

(** [R] is the type of the entries of [items]: item objects themselves in a
    freshly parsed document, locations once the document is in the store. *)
Record Sale (R : Type) := mkSale {
  sale_id : string;
  sale_date : string;
  sale_time : string;
  sale_customer : SaleCustomer;
  channelId : string;
  sale_items : list R;
  subtotal : Q;
  discountType : string;
  discountValue : option Q;
  discountAmount : Q;
  grandTotal : Q;
  paymentMethod : string;
  paymentRef : string;
  sale_chequeDetails : option ChequeDetails
}.

Record GrnLine := mkGrnLine {
  gl_id : string;
  gl_code : string;
  gl_name : string;
  gl_qty : Z
}.

Record Grn (G : Type) := mkGrn {
  grn_id : string;
  grn_date : string;
  supplier : string;
  grn_items : list G
}.

Record QuotationItem := mkQuotationItem {
  qi_itemId : string;
  qi_name : string;
  qi_qty : Z;
  qi_price : Q
}.

Record Quotation := mkQuotation {
  quo_id : string;
  quo_date : string;
  quo_customerName : string;
  quo_items : list QuotationItem;
  quo_total : Q
}.

Record Payment := mkPayment {
  pay_id : string;
  pay_date : string;
  pay_billId : string;
  pay_amount : Q;
  pay_method : string;
  pay_reference : string;
  pay_chequeDetails : option ChequeDetails
}.

Record CreditBill := mkCreditBill {
  cb_id : string;
  cb_billId : string;
  customerId : string;
  totalAmount : Q;
  paidAmount : Q;
  dueAmount : Q;
  billDate : string;
  cb_dueDate : string;
  paymentHistory : list Payment
}.

Inductive ChequeStatus : Type := Pending | Claimed | Released | Bounced.

Record Cheque := mkCheque {
  chq_id : string;
  chq_billId : string;
  chequeNumber : string;
  chq_bank : string;
  chq_amount : Q;
  chq_dueDate : string;
  status : ChequeStatus
}.

(** The document held in [posData]. *)
Record POSData (R G : Type) := mkPOSData {
  shop : option Shop;
  inventory : list R;
  customers : list Customer;
  distributionChannels : list Channel;
  sales : list (Sale R);
  grns : list (Grn G);
  quotations : list Quotation;
  payments : list Payment;
  creditBills : list CreditBill;
  cheques : list Cheque
}.

(** The object produced by [JSON.parse] on the stored text: any key may be
    missing or [null]. *)
Record RawDoc := mkRawDoc {
  r_shop : JField Shop;
  r_inventory : JField (list Item);
  r_customers : JField (list Customer);
  r_distributionChannels : JField (list Channel);
  r_sales : JField (list (Sale Item));
  r_grns : JField (list (Grn GrnLine));
  r_quotations : JField (list Quotation);
  r_payments : JField (list Payment);
  r_creditBills : JField (list CreditBill);
  r_cheques : JField (list Cheque)
}.

(** Field assignments [posData.x = v]. *)
Section Setters.
Context {R G : Type}.
Implicit Type d : POSData R G.

Definition set_inventory (v : list R) d : POSData R G :=
    mkPOSData (shop d) v (customers d) (distributionChannels d) (sales d)
      (grns d) (quotations d) (payments d) (creditBills d) (cheques d).
Definition set_customers v d : POSData R G :=
    mkPOSData (shop d) (inventory d) v (distributionChannels d) (sales d)
      (grns d) (quotations d) (payments d) (creditBills d) (cheques d).
Definition set_distributionChannels v d : POSData R G :=
    mkPOSData (shop d) (inventory d) (customers d) v (sales d)
      (grns d) (quotations d) (payments d) (creditBills d) (cheques d).
Definition set_sales v d : POSData R G :=
    mkPOSData (shop d) (inventory d) (customers d) (distributionChannels d) v
      (grns d) (quotations d) (payments d) (creditBills d) (cheques d).
Definition set_grns v d : POSData R G :=
    mkPOSData (shop d) (inventory d) (customers d) (distributionChannels d)
      (sales d) v (quotations d) (payments d) (creditBills d) (cheques d).
Definition set_payments v d : POSData R G :=
    mkPOSData (shop d) (inventory d) (customers d) (distributionChannels d)
      (sales d) (grns d) (quotations d) v (creditBills d) (cheques d).
Definition set_creditBills v d : POSData R G :=
    mkPOSData (shop d) (inventory d) (customers d) (distributionChannels d)
      (sales d) (grns d) (quotations d) (payments d) v (cheques d).
Definition set_cheques v d : POSData R G :=
    mkPOSData (shop d) (inventory d) (customers d) (distributionChannels d)
      (sales d) (grns d) (quotations d) (payments d) (creditBills d) v.
End Setters.

(* ------------------------------------------------------------------ *)
(** ** [defaultPOSData] and [loadPOSData] *)

Definition placeholder80 : string :=
  "https://placehold.co/80x80/000000/FFFFFF?text=LOGO".

Definition defaultShop : Shop :=
  mkShop "Your Shop Name" "123 Main Street, Colombo, Sri Lanka" "077-1234567"
         "https://placehold.co/60x60/000000/FFFFFF?text=LOGO" placeholder80.

Definition mainChannel : Channel :=
  mkChannel "main" "Main Shop" "" "123 Main Street, Colombo, Sri Lanka"
            "077-1234567" placeholder80.

Definition defaultPOSData : POSData Item GrnLine :=
  mkPOSData (Some defaultShop) [] [] [mainChannel] [] [] [] [] [] [].

(** One key of [{ ...defaultPOSData, ...posData }]: the stored key wins
    whenever it is present, even with [null]. *)
Definition spread {A : Type} (dflt : A) (f : JField A) : JField A :=
  match f with
  | Absent => Present dflt
  | JNull => JNull
  | Present a => Present a
  end.

(** [v || alt] for a value that is an object or [null]. *)
Definition orElse {A : Type} (f : JField A) (alt : A) : A :=
  match f with
  | Present a => a
  | _ => alt
  end.

Definition toOption {A : Type} (f : JField A) : option A :=
  match f with
  | Present a => Some a
  | _ => None
  end.

(** [item.threshold || 0]: a missing, [null] or zero threshold gives [0]. *)
Definition thresholdOrZero (t : option Z) : Z :=
  match t with
  | Some z => if (z =? 0)%Z then 0%Z else z
  | None => 0%Z
  end.

(** [item => ({ ...item, threshold: item.threshold || 0 })]. *)
Definition migrateItem (it : Item) : Item :=
  mkItem (item_id it) (code it) (name it) (description it) (price it)
         (stock it) (Some (thresholdOrZero (threshold it))) (qty it).

(** [loadPOSData]: [None] stands for a missing, empty or unparsable stored
    text (the [catch] branch falls through to the same assignment).  The
    function runs once per page load, so the arrays of [defaultPOSData] are
    still the pristine ones when it reads them. *)
Definition loadPOSData (data : option RawDoc) : POSData Item GrnLine :=
  match data with
  | Some raw =>
      let dd := defaultPOSData in
      let inv := orElse (spread (inventory dd) (r_inventory raw)) [] in
      mkPOSData
        (toOption (spread defaultShop (r_shop raw)))
        (map migrateItem inv)
        (orElse (spread (customers dd) (r_customers raw)) [])
        (orElse (spread (distributionChannels dd) (r_distributionChannels raw))
                (distributionChannels dd))
        (orElse (spread (sales dd) (r_sales raw)) [])
        (orElse (spread (grns dd) (r_grns raw)) [])
        (orElse (spread (quotations dd) (r_quotations raw)) [])
        (orElse (spread (payments dd) (r_payments raw)) [])
        (orElse (spread (creditBills dd) (r_creditBills raw)) [])
        (orElse (spread (cheques dd) (r_cheques raw)) [])
  | None => defaultPOSData
  end.

(* ------------------------------------------------------------------ *)
(** ** Distribution channels *)

Section Channels.
Context {R G : Type}.
Implicit Type d : POSData R G.

(** [deleteDistributionChannel(id)]. *)
Definition deleteDistributionChannel (id : string) d : Result (POSData R G) :=
  if id =? "main" then Err "Cannot delete the main shop channel."
  else Ok (set_distributionChannels
             (filter (fun c => negb (ch_id c =? id)) (distributionChannels d)) d).

(** The submit handler of [addDistributionChannelForm]; [newId] is the
    value drawn from [generateUniqueId()], [logo] the receipt logo obtained
    from the upload, the link or the placeholder ([None] when reading the
    uploaded file fails). *)
Definition addDistributionChannel (newId : string)
    (cname cregNo caddress chotline : string) (logo : option string) d
  : Result (POSData R G) :=
  match logo with
  | None => Err "Failed to upload receipt logo for channel. Please try again."
  | Some receiptLogo =>
      Ok (set_distributionChannels
            (distributionChannels d ++
               [mkChannel newId (trim cname) (trim cregNo) (trim caddress)
                          (trim chotline) receiptLogo]) d)
  end.
End Channels.

(* ------------------------------------------------------------------ *)
(** ** Cheque tracking *)

Section Cheques.
Context {R G : Type}.
Implicit Type d : POSData R G.

Definition set_status (s : ChequeStatus) (c : Cheque) : Cheque :=
  mkCheque (chq_id c) (chq_billId c) (chequeNumber c) (chq_bank c)
           (chq_amount c) (chq_dueDate c) s.

(** [updateChequeStatus(id, newStatus)]. *)
Definition updateChequeStatus (id : string) (newStatus : ChequeStatus) d
  : Result (POSData R G) :=
  match findIndex (fun c => chq_id c =? id) (cheques d) with
  | Some chequeIndex =>
      Ok (set_cheques (alter (set_status newStatus) chequeIndex (cheques d)) d)
  | None => Err "Cheque not found."
  end.
End Cheques.

(* ------------------------------------------------------------------ *)
(** ** Credit bills *)

(** The inputs of the installment form of the credit bill dialog. *)
Record InstallmentForm := mkInstallmentForm {
  installmentAmountInput : option Q;
  installmentMethodSelect : string;
  installmentReferenceInput : string;
  installmentChequeNumberInput : string;
  installmentChequeBankInput : string;
  installmentChequeDueDateInput : string
}.

Definition set_outstandingCredit (v : Q) (c : Customer) : Customer :=
  mkCustomer (cust_id c) (cust_name c) (cust_address c) (cust_tp c)
             (creditLimit c) v.

(** [creditBill.paidAmount += a; creditBill.dueAmount -= a;
     creditBill.paymentHistory.push(p)]. *)
Definition payBill (a : Q) (p : Payment) (b : CreditBill) : CreditBill :=
  mkCreditBill (cb_id b) (cb_billId b) (customerId b) (totalAmount b)
               (paidAmount b + a)%Q (dueAmount b - a)%Q (billDate b) (cb_dueDate b)
               (paymentHistory b ++ [p]).

(** The cheque fields of a form: all three are required. *)
Definition readCheque (number bank dueDate : string) : option ChequeDetails :=
  let chequeNumber := trim number in
  let chequeBank := trim bank in
  if (chequeNumber =? "") || (chequeBank =? "") || (dueDate =? "") then None
  else Some (mkChequeDetails chequeNumber chequeBank dueDate).

(** [let chequeDetails = null; if (paymentMethod === 'cheque') { ... }]. *)
Definition chequeFor (paymentMethod number bank dueDate msg : string)
  : Result (option ChequeDetails) :=
  if paymentMethod =? "cheque" then
    match readCheque number bank dueDate with
    | Some cd => Ok (Some cd)
    | None => Err msg
    end
  else Ok None.

Section Credit.
Context {R G : Type}.
Implicit Type d : POSData R G.

(** [posData.creditBills.find(b => b.id === editingCreditBillId)], as the
    position of the bill found; the global is [null] when no dialog is
    open. *)
Definition findCreditBill (editingCreditBillId : option string) d
  : option nat :=
  match editingCreditBillId with
  | Some id => findIndex (fun b => cb_id b =? id) (creditBills d)
  | None => None
  end.

(** [customer.outstandingCredit -= paymentAmount] on the customer found by
    [posData.customers.find(c => c.id === creditBill.customerId)]. *)
Definition settle (customerId : string) (paymentAmount : Q)
    (cs : list Customer) : list Customer :=
  match findIndex (fun c => cust_id c =? customerId) cs with
  | Some ci =>
      alter (fun c => set_outstandingCredit
                        (outstandingCredit c - paymentAmount)%Q c) ci cs
  | None => cs
  end.

(** The click handler of [addInstallmentBtn].  [editingCreditBillId] is the
    global of that name, [today] is [formatDate(new Date())], [payId] and
    [chqId] are the identifiers drawn for the payment and the cheque. *)
Definition addInstallment (editingCreditBillId : option string)
    (today payId chqId : string) (f : InstallmentForm) d
  : Result (POSData R G) :=
  match findCreditBill editingCreditBillId d with
  | None => Err "Credit bill not found."
  | Some bi =>
    match creditBills d !! bi with
    | None => Err "Credit bill not found."
    | Some creditBill =>
      let paymentMethod := installmentMethodSelect f in
      let paymentRef := trim (installmentReferenceInput f) in
      match installmentAmountInput f with
      | None => Err "Please enter a valid payment amount."
      | Some paymentAmount =>
        if Qle_bool paymentAmount 0 then
          Err "Please enter a valid payment amount."
        else if Qltb (dueAmount creditBill) paymentAmount then
          Err "Payment amount exceeds due amount."
        else
          match chequeFor paymentMethod (installmentChequeNumberInput f)
                  (installmentChequeBankInput f)
                  (installmentChequeDueDateInput f)
                  "Please provide all cheque details (Number, Bank, Due Date) for installment."
          with
          | Err msg => Err msg
          | Ok chequeDetails =>
            let newPaymentRecord :=
              mkPayment payId today (cb_billId creditBill) paymentAmount
                        paymentMethod paymentRef chequeDetails in
            let bills :=
              alter (payBill paymentAmount newPaymentRecord) bi (creditBills d) in
            let pays := payments d ++ [newPaymentRecord] in
            let custs := settle (customerId creditBill) paymentAmount (customers d) in
            let chqs :=
              match chequeDetails with
              | Some cd =>
                  cheques d ++
                    [mkCheque chqId (cb_billId creditBill) (cd_number cd)
                              (cd_bank cd) paymentAmount (cd_dueDate cd) Pending]
              | None => cheques d
              end in
            Ok (set_cheques chqs
                  (set_customers custs
                     (set_payments pays (set_creditBills bills d))))
          end
      end
    end
  end.

(** [customer.outstandingCredit -= creditBill.dueAmount], then the reset to
    [0] when the result is negative, on the customer found by id. *)
Definition revert (customerId : string) (due : Q) (cs : list Customer)
  : list Customer :=
  match findIndex (fun c => cust_id c =? customerId) cs with
  | Some ci =>
      alter (fun c =>
               let oc := (outstandingCredit c - due)%Q in
               set_outstandingCredit (if Qltb oc 0 then 0 else oc) c) ci cs
  | None => cs
  end.

(** [deleteCreditBill(id)]. *)
Definition deleteCreditBill (id : string) d : POSData R G :=
  match findIndex (fun b => cb_id b =? id) (creditBills d) with
  | None => d
  | Some bi =>
    match creditBills d !! bi with
    | None => d
    | Some creditBill =>
        set_creditBills
          (filter (fun b => negb (cb_id b =? id)) (creditBills d))
          (set_customers
             (revert (customerId creditBill) (dueAmount creditBill) (customers d))
             d)
    end
  end.
End Credit.

(* ------------------------------------------------------------------ *)
(** ** The object store *)

(** A location is the position of an object in the store; objects are never
    freed, so a new object always gets the next position. *)
Abbreviation loc := nat (only parsing).

Definition alloc {A : Type} (h : list A) (o : A) : list A * loc :=
  (h ++ [o], length h).

(** [ls.find(x => p(x))] on an array [ls] of references: the first
    reference whose object satisfies [p]. *)
Fixpoint findLoc {A : Type} (p : A -> bool) (h : list A) (ls : list loc)
  : option loc :=
  match ls with
  | [] => None
  | l :: r =>
      match h !! l with
      | Some o => if p o then Some l else findLoc p h r
      | None => findLoc p h r
      end
  end.

(** [p] applied to the object a reference points to. *)
Definition holdsAt {A : Type} (p : A -> bool) (h : list A) (l : loc) : bool :=
  match h !! l with
  | Some o => p o
  | None => false
  end.

(** [JSON.parse(JSON.stringify(ls))] on an array of references: one new
    object per element, holding what the serialisation [json] keeps. *)
Definition deepCopy {A : Type} (json : A -> A) (h : list A) (ls : list loc)
  : list A * list loc :=
  let objs := omap (fun l => json <$> h !! l) ls in
  (h ++ objs, seq (length h) (length objs)).

Definition jsonStock (s : Stock) : Stock :=
  match s with
  | Fin z => Fin z
  | _ => StockNull
  end.

(** What a JSON round trip keeps of an item object. *)
Definition jsonItem (o : Item) : Item :=
  mkItem (item_id o) (code o) (name o) (description o) (price o)
         (jsonStock (stock o)) (threshold o) (qty o).

Definition jsonGrnLine (o : GrnLine) : GrnLine := o.

Definition set_stock (s : Stock) (o : Item) : Item :=
  mkItem (item_id o) (code o) (name o) (description o) (price o) s
         (threshold o) (qty o).

Definition set_qty (q : option Z) (o : Item) : Item :=
  mkItem (item_id o) (code o) (name o) (description o) (price o) (stock o)
         (threshold o) q.

Definition set_gl_qty (q : Z) (o : GrnLine) : GrnLine :=
  mkGrnLine (gl_id o) (gl_code o) (gl_name o) q.

(* ------------------------------------------------------------------ *)
(** ** The page: document, object store, cart, pending GRN, form state *)

Record World := mkWorld {
  objects : list Item;
  grnObjects : list GrnLine;
  posData : POSData loc loc;
  currentCart : list loc;
  currentGrnItems : list loc;
  (** the item and id captured by the [onsubmit] closure that
      [editInventoryItem] installs on the inventory form *)
  editing : option (loc * string);
  (** the numbers shown in the two total spans of the cart *)
  cartSubtotalSpan : Q;
  cartGrandtotalSpan : Q;
  discountTypeSelect : string;
  discountValueInput : option Q
}.

Definition set_objects (v : list Item) (w : World) : World :=
  mkWorld v (grnObjects w) (posData w) (currentCart w) (currentGrnItems w)
          (editing w) (cartSubtotalSpan w) (cartGrandtotalSpan w)
          (discountTypeSelect w) (discountValueInput w).
Definition set_grnObjects (v : list GrnLine) (w : World) : World :=
  mkWorld (objects w) v (posData w) (currentCart w) (currentGrnItems w)
          (editing w) (cartSubtotalSpan w) (cartGrandtotalSpan w)
          (discountTypeSelect w) (discountValueInput w).
Definition set_posData (v : POSData loc loc) (w : World) : World :=
  mkWorld (objects w) (grnObjects w) v (currentCart w) (currentGrnItems w)
          (editing w) (cartSubtotalSpan w) (cartGrandtotalSpan w)
          (discountTypeSelect w) (discountValueInput w).
Definition set_currentCart (v : list loc) (w : World) : World :=
  mkWorld (objects w) (grnObjects w) (posData w) v (currentGrnItems w)
          (editing w) (cartSubtotalSpan w) (cartGrandtotalSpan w)
          (discountTypeSelect w) (discountValueInput w).
Definition set_currentGrnItems (v : list loc) (w : World) : World :=
  mkWorld (objects w) (grnObjects w) (posData w) (currentCart w) v
          (editing w) (cartSubtotalSpan w) (cartGrandtotalSpan w)
          (discountTypeSelect w) (discountValueInput w).
Definition set_editing (v : option (loc * string)) (w : World) : World :=
  mkWorld (objects w) (grnObjects w) (posData w) (currentCart w)
          (currentGrnItems w) v (cartSubtotalSpan w) (cartGrandtotalSpan w)
          (discountTypeSelect w) (discountValueInput w).
Definition set_cartSubtotalSpan (v : Q) (w : World) : World :=
  mkWorld (objects w) (grnObjects w) (posData w) (currentCart w)
          (currentGrnItems w) (editing w) v (cartGrandtotalSpan w)
          (discountTypeSelect w) (discountValueInput w).
Definition set_cartGrandtotalSpan (v : Q) (w : World) : World :=
  mkWorld (objects w) (grnObjects w) (posData w) (currentCart w)
          (currentGrnItems w) (editing w) (cartSubtotalSpan w) v
          (discountTypeSelect w) (discountValueInput w).
Definition set_discountTypeSelect (v : string) (w : World) : World :=
  mkWorld (objects w) (grnObjects w) (posData w) (currentCart w)
          (currentGrnItems w) (editing w) (cartSubtotalSpan w)
          (cartGrandtotalSpan w) v (discountValueInput w).
Definition set_discountValueInput (v : option Q) (w : World) : World :=
  mkWorld (objects w) (grnObjects w) (posData w) (currentCart w)
          (currentGrnItems w) (editing w) (cartSubtotalSpan w)
          (cartGrandtotalSpan w) (discountTypeSelect w) v.

(** The [DOMContentLoaded] handler puts the loaded document into the
    store: every object of the parsed text is a new object.  Cart and
    pending GRN are empty; totals and discount fields start as
    [resetBillingForm] leaves them when the billing section is shown. *)
Definition internSale (acc : list Item * list (Sale loc)) (s : Sale Item)
  : list Item * list (Sale loc) :=
  let h := fst acc in
  (h ++ sale_items s,
   snd acc ++
     [mkSale (sale_id s) (sale_date s) (sale_time s) (sale_customer s)
             (channelId s) (seq (length h) (length (sale_items s)))
             (subtotal s) (discountType s) (discountValue s)
             (discountAmount s) (grandTotal s) (paymentMethod s)
             (paymentRef s) (sale_chequeDetails s)]).

Definition internGrn (acc : list GrnLine * list (Grn loc)) (g : Grn GrnLine)
  : list GrnLine * list (Grn loc) :=
  let h := fst acc in
  (h ++ grn_items g,
   snd acc ++
     [mkGrn (grn_id g) (grn_date g) (supplier g)
            (seq (length h) (length (grn_items g)))]).

Definition boot (data : option RawDoc) : World :=
  let d := loadPOSData data in
  let inv := inventory d in
  let ss := fold_left internSale (sales d) (inv, []) in
  let gs := fold_left internGrn (grns d) ([], []) in
  mkWorld (fst ss) (fst gs)
          (mkPOSData (shop d) (seq 0 (length inv)) (customers d)
                     (distributionChannels d) (snd ss) (snd gs)
                     (quotations d) (payments d) (creditBills d) (cheques d))
          [] [] None 0 0 "lkr" (Some 0%Q).

(* ------------------------------------------------------------------ *)
(** ** Inventory management *)

Record ItemForm := mkItemForm {
  itemCodeInput : string;
  itemNameInput : string;
  itemDescriptionInput : string;
  itemPriceInput : option Q;
  itemStockInput : option Z;
  itemthresholdInput : option Z
}.

(** The numeric check shared by the add and the edit handler:
    [isNaN(price) || price < 0 || isNaN(stock) || stock < 0 || ...]. *)
Definition validNumbers (f : ItemForm) : option (Q * Z * Z) :=
  match itemPriceInput f, itemStockInput f, itemthresholdInput f with
  | Some p, Some s, Some t =>
      if Qltb p 0 || (s <? 0)%Z || (t <? 0)%Z then None else Some (p, s, t)
  | _, _, _ => None
  end.

(** The submit listener of [addInventoryItemForm]. *)
Definition addInventoryItem (newId : string) (f : ItemForm) (w : World)
  : Result World :=
  let code' := trim (itemCodeInput f) in
  match validNumbers f with
  | None => Err "Please enter valid numbers for price, stock, and threshold."
  | Some (price', stock', threshold') =>
      match findLoc (fun i => code i =? code') (objects w)
                    (inventory (posData w)) with
      | Some _ => Err "Item with this code already exists. Please use a unique code or edit the existing item."
      | None =>
          let newItem :=
            mkItem newId code' (trim (itemNameInput f))
                   (trim (itemDescriptionInput f)) price' (Fin stock')
                   (Some threshold') None in
          let a := alloc (objects w) newItem in
          Ok (set_posData
                (set_inventory (inventory (posData w) ++ [snd a]) (posData w))
                (set_objects (fst a) w))
      end
  end.

(** [editInventoryItem(id)]: looks the item up and rebinds [onsubmit] to a
    closure over it. *)
Definition editInventoryItem (id : string) (w : World) : Result World :=
  match findLoc (fun i => item_id i =? id) (objects w)
                (inventory (posData w)) with
  | None => Err "Item not found."
  | Some item => Ok (set_editing (Some (item, id)) w)
  end.

(** The six assignments [item.code = updatedCode; ...]. *)
Definition editFields (c n ds : string) (p : Q) (s t : Z) (o : Item) : Item :=
  mkItem (item_id o) c n ds p (Fin s) (Some t) (qty o).

(** The [onsubmit] closure installed by [editInventoryItem].  The submit
    listener [addInventoryItem] stays bound and runs on the same event; the
    two are separate events of a run here.  Once an edit has gone through,
    the page replaces the closure by one that only dispatches the submit
    event again, that is, runs the listener; [editing] is [None] then and
    the closure itself changes nothing. *)
Definition editSubmit (f : ItemForm) (w : World) : Result World :=
  match editing w with
  | None => Ok w
  | Some (item, id) =>
      let updatedCode := trim (itemCodeInput f) in
      match validNumbers f with
      | None => Err "Please enter valid numbers for price, stock, and threshold."
      | Some (updatedPrice, updatedStock, updatedThreshold) =>
          let codeChanged :=
            negb (holdsAt (fun o => updatedCode =? code o) (objects w) item) in
          if codeChanged
             && existsb (holdsAt (fun i => (code i =? updatedCode)
                                           && negb (item_id i =? id))
                                 (objects w))
                        (inventory (posData w))
          then Err "Another item already uses this code. Please use a unique code."
          else
            Ok (set_editing None
                  (set_objects
                     (alter (editFields updatedCode (trim (itemNameInput f))
                                        (trim (itemDescriptionInput f))
                                        updatedPrice updatedStock
                                        updatedThreshold)
                            item (objects w))
                     w))
      end
  end.

(** [deleteInventoryItem(id)]. *)
Definition deleteInventoryItem (id : string) (w : World) : World :=
  set_posData
    (set_inventory
       (filter (fun l => holdsAt (fun i => negb (item_id i =? id)) (objects w) l)
               (inventory (posData w)))
       (posData w))
    w.

(* ------------------------------------------------------------------ *)
(** ** Billing: the cart and its totals *)

(** [item.price * item.qty].  [addItemToCart] creates every cart line
    with a quantity; for an object without one the page would show [NaN],
    which the totals of the embedding do not represent. *)
Definition lineTotal (o : Item) : Q :=
  (price o * inject_Z (default 0%Z (qty o)))%Q.

Definition cartSubtotal (h : list Item) (cart : list loc) : Q :=
  fold_left (fun acc l =>
               match h !! l with
               | Some item => (acc + lineTotal item)%Q
               | None => acc
               end) cart 0%Q.

(** The body of [calculateGrandTotal] once the discount value is a
    non-negative number. *)
Definition discountOf (ty : string) (subtotal' discountValue' : Q) : Q :=
  let discountAmount' :=
    if ty =? "lkr" then discountValue'
    else (subtotal' * discountValue' / 100)%Q in
  Math_min discountAmount' subtotal'.

(** [calculateGrandTotal(currentSubtotal = null)].  When the discount value
    does not parse or is negative the input is set to [0] and the function
    calls itself once more with the same subtotal. *)
Definition calculateGrandTotal (currentSubtotal : option Q) (w : World)
  : World :=
  let subtotal' :=
    match currentSubtotal with
    | Some s => s
    | None => cartSubtotalSpan w
    end in
  let finish (v : Q) (w0 : World) : World :=
    let discountAmount' := discountOf (discountTypeSelect w0) subtotal' v in
    set_cartGrandtotalSpan (toFixed2 (subtotal' - discountAmount')%Q) w0 in
  match discountValueInput w with
  | Some v =>
      if Qltb v 0 then finish 0%Q (set_discountValueInput (Some 0%Q) w)
      else finish v w
  | None => finish 0%Q (set_discountValueInput (Some 0%Q) w)
  end.

(** [renderCart()]. *)
Definition renderCart (w : World) : World :=
  let subtotal' := cartSubtotal (objects w) (currentCart w) in
  calculateGrandTotal (Some subtotal')
    (set_cartSubtotalSpan (toFixed2 subtotal') w).

(** The [input] listener of the discount value field and the [change]
    listener of the discount type select, after the user's change. *)
Definition onDiscountValueInput (v : option Q) (w : World) : World :=
  calculateGrandTotal None (set_discountValueInput v w).

Definition onDiscountTypeChange (ty : string) (w : World) : World :=
  calculateGrandTotal None (set_discountTypeSelect ty w).

(** [inventoryItem && q > inventoryItem.stock]. *)
Definition overStock (q : option Z) (inventoryItem : option Item) : bool :=
  match inventoryItem, q with
  | Some i, Some q' => exceeds q' (stock i)
  | _, _ => false
  end.

(** [{ ...item, qty: quantity }]. *)
Definition lineOf (item : Item) (quantity : Z) : Item :=
  set_qty (Some quantity) item.

(** [posData.inventory.find(i => i.id === id)], as the object found. *)
Definition inventoryItemById (id : string) (w : World) : option Item :=
  match findLoc (fun i => item_id i =? id) (objects w)
                (inventory (posData w)) with
  | Some l => objects w !! l
  | None => None
  end.

(** [addItemToCart(item, quantity)]. *)
Definition addItemToCart (item : Item) (quantity : Z) (w : World)
  : Result World :=
  let inventoryItem := inventoryItemById (item_id item) w in
  match findLoc (fun cartItem => item_id cartItem =? item_id item)
                (objects w) (currentCart w) with
  | Some existing =>
      let updatedQty :=
        match objects w !! existing with
        | Some line => (fun q => (q + quantity)%Z) <$> qty line
        | None => None
        end in
      if overStock updatedQty inventoryItem then Err "Not enough stock."
      else Ok (renderCart
                 (set_objects (alter (set_qty updatedQty) existing (objects w))
                              w))
  | None =>
      if overStock (Some quantity) inventoryItem then Err "Not enough stock."
      else
        let a := alloc (objects w) (lineOf item quantity) in
        Ok (renderCart
              (set_currentCart (currentCart w ++ [snd a])
                               (set_objects (fst a) w)))
  end.

(** [posData.inventory.find(i => i.code === code)], as the object found. *)
Definition inventoryItemByCode (code' : string) (w : World) : option Item :=
  match findLoc (fun i => code i =? code') (objects w)
                (inventory (posData w)) with
  | Some l => objects w !! l
  | None => None
  end.

(** The click handler of [addItemByBarcodeBtn]. *)
Definition addItemByBarcode (barcodeInput : string) (w : World)
  : Result World :=
  let code' := trim barcodeInput in
  if code' =? "" then Err "Please enter an item code or scan a barcode."
  else
    match inventoryItemByCode code' w with
    | Some item => addItemToCart item 1 w
    | None => Err "Item not found in inventory."
    end.

(** The click handler of [addManualItemBtn]; [tempId] is the identifier
    drawn for an item that is not in the inventory. *)
Definition addManualItem (tempId : string) (codeInput nameInput : string)
    (priceInput : option Q) (qtyInput : option Z) (w : World)
  : Result World :=
  let code' := trim codeInput in
  let name' := trim nameInput in
  match priceInput, qtyInput with
  | Some price', Some qty' =>
      if (code' =? "") || (name' =? "") || Qle_bool price' 0 || (qty' <=? 0)%Z
      then Err "Please fill in all manual item details correctly (Code, Name, Price, Quantity)."
      else
        match inventoryItemByCode code' w with
        | Some existingInventoryItem =>
            if exceeds qty' (stock existingInventoryItem)
            then Err "Not enough stock."
            else addItemToCart existingInventoryItem qty' w
        | None =>
            addItemToCart
              (mkItem tempId code' name' "Manual entry" price' Infinity None None)
              qty' w
        end
  | _, _ => Err "Please fill in all manual item details correctly (Code, Name, Price, Quantity)."
  end.

(** [removeCartItem(itemId)]. *)
Definition removeCartItem (itemId : string) (w : World) : World :=
  renderCart
    (set_currentCart
       (filter (fun l => holdsAt (fun i => negb (item_id i =? itemId)) (objects w) l)
               (currentCart w))
       w).

(** [resetBillingForm()], as far as it touches the modelled state: the
    cart is rendered before the discount inputs are reset. *)
Definition resetBillingForm (w : World) : World :=
  set_discountValueInput (Some 0%Q)
    (set_discountTypeSelect "lkr" (renderCart (set_currentCart [] w))).

(** [showSection(sectionId)], as far as it touches the modelled state:
    showing the billing section resets the billing form, showing the GRN
    section empties the pending GRN; the other branches only render. *)
Definition showSection (sectionId : string) (w : World) : World :=
  if sectionId =? "billing-section" then resetBillingForm w
  else if sectionId =? "grn-section" then set_currentGrnItems [] w
  else w.

(* ------------------------------------------------------------------ *)
(** ** Billing: processing the bill *)

(** The inputs of the billing form that the handler only reads. *)
Record BillForm := mkBillForm {
  customerTypeSelect : string;
  walkingCustomerNameInput : string;
  walkingCustomerAddressInput : string;
  walkingCustomerTpInput : string;
  registeredCustomerDropdown : string;
  distributionChannelDropdown : string;
  paymentMethodSelect : string;
  paymentReferenceInput : string;
  chequeNumberInput : string;
  chequeBankInput : string;
  chequeDueDateInput : string
}.

(** What the handler reads from the clock and the identifier generator:
    [Date.now()] in decimal, [formatDate(now)], [formatTime(now)], and the
    identifiers for the walking customer, the payment, the credit bill and
    the cheque. *)
Record Draw := mkDraw {
  nowStamp : string;
  today : string;
  timeOfDay : string;
  uuidCustomer : string;
  uuidPayment : string;
  uuidCreditBill : string;
  uuidCheque : string
}.

(** The customer block: the snapshot stored in the sale and, for a
    registered customer, the position of [selectedCustomer]. *)
Definition selectCustomer (dr : Draw) (f : BillForm) (cs : list Customer)
  : Result (SaleCustomer * option nat) :=
  if customerTypeSelect f =? "walking" then
    let n := trim (walkingCustomerNameInput f) in
    Ok (mkSaleCustomer "walking" (uuidCustomer dr)
                       (if n =? "" then "Walking Customer" else n)
                       (trim (walkingCustomerAddressInput f))
                       (trim (walkingCustomerTpInput f)),
        None)
  else
    let customerId' := registeredCustomerDropdown f in
    if customerId' =? "" then Err "Please select a registered customer."
    else
      match findIndex (fun c => cust_id c =? customerId') cs with
      | None => Err "Selected registered customer not found."
      | Some ci =>
          match cs !! ci with
          | None => Err "Selected registered customer not found."
          | Some selectedCustomer =>
              Ok (mkSaleCustomer "registered" (cust_id selectedCustomer)
                                 (cust_name selectedCustomer)
                                 (cust_address selectedCustomer)
                                 (cust_tp selectedCustomer),
                  Some ci)
          end
      end.

(** The credit block: [true] when the sale must be refused. *)
Definition creditRefused (f : BillForm) (grandTotal' : Q)
    (selectedCustomer : option Customer) : option string :=
  if paymentMethodSelect f =? "credit" then
    if customerTypeSelect f =? "walking" then
      Some "Credit billing is only available for registered customers."
    else
      match selectedCustomer with
      | Some c =>
          if Qltb (creditLimit c) (outstandingCredit c + grandTotal')%Q
          then Some "Credit limit exceeded."
          else None
      | None => None
      end
  else None.

(** One round of the stock loop:
    [inventoryItem = posData.inventory.find(i => i.id === cartItem.id);
     if (inventoryItem) inventoryItem.stock -= cartItem.qty]. *)
Definition sellLine (inv : list loc) (h : list Item) (cartItem : loc)
  : list Item :=
  match h !! cartItem with
  | Some line =>
      match findLoc (fun i => item_id i =? item_id line) h inv with
      | Some inventoryItem =>
          alter (fun i => set_stock (stock_sub (stock i) (qty line)) i)
                inventoryItem h
      | None => h
      end
  | None => h
  end.

Definition sellAll (inv : list loc) (h : list Item) (cart : list loc)
  : list Item :=
  fold_left (sellLine inv) cart h.

(** The click handler of [processBillBtn]. *)
Definition processBill (dr : Draw) (f : BillForm) (w : World) : Result World :=
  let d := posData w in
  match currentCart w with
  | [] => Err "Cart is empty. Please add items to proceed."
  | _ :: _ =>
    let grandTotal' := cartGrandtotalSpan w in
    let paymentMethod' := paymentMethodSelect f in
    let paymentRef' := trim (paymentReferenceInput f) in
    match selectCustomer dr f (customers d) with
    | Err msg => Err msg
    | Ok (customerDetails, selected) =>
      let selectedCustomer :=
        match selected with
        | Some ci => customers d !! ci
        | None => None
        end in
      match creditRefused f grandTotal' selectedCustomer with
      | Some msg => Err msg
      | None =>
        match chequeFor paymentMethod' (chequeNumberInput f) (chequeBankInput f)
                (chequeDueDateInput f)
                "Please provide all cheque details (Number, Bank, Due Date)."
        with
        | Err msg => Err msg
        | Ok chequeDetails =>
          let billId := String.append "BILL-" (nowStamp dr) in
          let copy := deepCopy jsonItem (objects w) (currentCart w) in
          let newSale :=
            mkSale billId (today dr) (timeOfDay dr) customerDetails
                   (distributionChannelDropdown f) (snd copy)
                   (cartSubtotalSpan w) (discountTypeSelect w)
                   (discountValueInput w)
                   (cartSubtotalSpan w - grandTotal')%Q grandTotal'
                   paymentMethod' paymentRef' chequeDetails in
          let h := sellAll (inventory d) (fst copy) (currentCart w) in
          let newPayment :=
            mkPayment (uuidPayment dr) (today dr) billId grandTotal'
                      paymentMethod' paymentRef' chequeDetails in
          let credit := paymentMethod' =? "credit" in
          let bills :=
            match credit, selectedCustomer with
            | true, Some c =>
                creditBills d ++
                  [mkCreditBill (uuidCreditBill dr) billId (cust_id c)
                                grandTotal' 0 grandTotal' (today dr) "" []]
            | _, _ => creditBills d
            end in
          let custs :=
            match credit, selected with
            | true, Some ci =>
                alter (fun c => set_outstandingCredit
                                  (outstandingCredit c + grandTotal')%Q c)
                      ci (customers d)
            | _, _ => customers d
            end in
          let chqs :=
            match chequeDetails with
            | Some cd =>
                cheques d ++
                  [mkCheque (uuidCheque dr) billId (cd_number cd) (cd_bank cd)
                            grandTotal' (cd_dueDate cd) Pending]
            | None => cheques d
            end in
          Ok (resetBillingForm
                (set_posData
                   (set_cheques chqs
                      (set_customers custs
                         (set_creditBills bills
                            (set_payments (payments d ++ [newPayment])
                               (set_sales (sales d ++ [newSale]) d)))))
                   (set_objects h w)))
        end
      end
    end
  end.

(* ------------------------------------------------------------------ *)
(** ** Stock receipts (GRN) *)

(** The click handler of [addGrnItemBtn]. *)
Definition addGrnItem (codeInput : string) (qtyInput : option Z) (w : World)
  : Result World :=
  let itemCode := trim codeInput in
  match qtyInput with
  | None => Err "Please enter a valid item code and quantity for GRN."
  | Some itemQty =>
      if (itemCode =? "") || (itemQty <=? 0)%Z
      then Err "Please enter a valid item code and quantity for GRN."
      else
        match inventoryItemByCode itemCode w with
        | None => Err "Item not found in inventory. Please add it first."
        | Some inventoryItem =>
            match findLoc (fun g => gl_id g =? item_id inventoryItem)
                          (grnObjects w) (currentGrnItems w) with
            | Some existing =>
                Ok (set_grnObjects
                      (alter (fun g => set_gl_qty (gl_qty g + itemQty)%Z g)
                             existing (grnObjects w))
                      w)
            | None =>
                let a :=
                  alloc (grnObjects w)
                        (mkGrnLine (item_id inventoryItem) (code inventoryItem)
                                   (name inventoryItem) itemQty) in
                Ok (set_currentGrnItems (currentGrnItems w ++ [snd a])
                                        (set_grnObjects (fst a) w))
            end
        end
  end.

(** One round of the stock loop of the GRN handler:
    [inventoryItem = posData.inventory.find(item => item.id === grnItem.id);
     if (inventoryItem) inventoryItem.stock += grnItem.qty]. *)
Definition receiveLine (inv : list loc) (g : list GrnLine) (h : list Item)
    (grnItem : loc) : list Item :=
  match g !! grnItem with
  | Some line =>
      match findLoc (fun i => item_id i =? gl_id line) h inv with
      | Some inventoryItem =>
          alter (fun i => set_stock (stock_add (stock i) (gl_qty line)) i)
                inventoryItem h
      | None => h
      end
  | None => h
  end.

Definition receiveAll (inv : list loc) (g : list GrnLine) (h : list Item)
    (lines : list loc) : list Item :=
  fold_left (receiveLine inv g) lines h.

(** The submit handler of [createGrnForm]; [stamp] is [Date.now()] in
    decimal. *)
Definition createGrn (stamp : string) (supplierInput grnDateInput : string)
    (w : World) : Result World :=
  let supplier' := trim supplierInput in
  let grnDate := grnDateInput in
  let d := posData w in
  match currentGrnItems w with
  | [] => Err "Please fill in supplier, date, and add at least one item to the GRN."
  | _ :: _ =>
      if (supplier' =? "") || (grnDate =? "")
      then Err "Please fill in supplier, date, and add at least one item to the GRN."
      else
        let copy := deepCopy jsonGrnLine (grnObjects w) (currentGrnItems w) in
        let newGrn :=
          mkGrn (String.append "GRN-" stamp) grnDate supplier' (snd copy) in
        let h := receiveAll (inventory d) (fst copy) (objects w)
                            (grn_items newGrn) in
        Ok (set_currentGrnItems []
              (set_posData (set_grns (grns d ++ [newGrn]) d)
                 (set_grnObjects (fst copy) (set_objects h w))))
  end.

(* ------------------------------------------------------------------ *)
(** ** Reachable channel lists *)

Definition mainCount {R G : Type} (d : POSData R G) : nat :=
  length (filter (fun c => ch_id c =? "main") (distributionChannels d)).

(** The documents a page can hold as far as the channel list goes: the
    first start without stored text, a start from stored text that lacks the
    channel list, a restart from the text the page itself saved (whatever
    else that text holds), and the two channel handlers.  Identifiers come
    from [generateUniqueId()].  A stored channel list of any other origin
    is loaded as it is and is not among them. *)
Inductive channelReach : POSData Item GrnLine -> Prop :=
| cr_first : channelReach (loadPOSData None)
| cr_partial (raw : RawDoc) :
    toOption (r_distributionChannels raw) = None ->
    channelReach (loadPOSData (Some raw))
| cr_reload (d : POSData Item GrnLine) (raw : RawDoc) :
    channelReach d ->
    r_distributionChannels raw = Present (distributionChannels d) ->
    channelReach (loadPOSData (Some raw))
| cr_add (d : POSData Item GrnLine) (newId n r a h : string)
         (logo : option string) :
    channelReach d ->
    isUUID newId = true ->
    channelReach (after (addDistributionChannel newId n r a h logo d) d)
| cr_delete (d : POSData Item GrnLine) (id : string) :
    channelReach d ->
    channelReach (after (deleteDistributionChannel id d) d).

(* ------------------------------------------------------------------ *)
(** ** Notions used in the statements *)

(** A collection is missing from the stored text when there is no text or
    the key is absent or [null]. *)
Definition missing {A : Type} (pick : RawDoc -> JField A)
    (data : option RawDoc) : Prop :=
  match data with
  | None => True
  | Some raw => toOption (pick raw) = None
  end.

(** The stored text [{}]. *)
Definition emptyDoc : RawDoc :=
  mkRawDoc Absent Absent Absent Absent Absent Absent Absent Absent Absent Absent.

(* ------------------------------------------------------------------ *)
(** ** Sample data for the examples *)

Definition uuid1 : string := "0b9e6f0a-7c1d-4f5e-9a3b-2d4c6e8f0a1b".
Definition uuid2 : string := "1c0f7a1b-8d2e-4a6f-8b4c-3e5d7f9a1b2c".
Definition uuid3 : string := "2d1a8b2c-9e3f-4b7a-9c5d-4f6e8a0b2c3d".
Definition uuid4 : string := "3e2b9c3d-0f4a-4c8b-8d6e-5a7f9b1c3d4e".

(** A stored document: one item ([SKU1], price 100, stock 10), two
    customers, one credit bill of the first customer with 150 due, two
    cheques. *)
Definition sampleDoc : RawDoc :=
  mkRawDoc Absent
    (Present [mkItem "i-1" "SKU1" "Soap" "" 100 (Fin 10) None None])
    (Present [mkCustomer "c-1" "Nimal" "Kandy" "071" 1000 800;
              mkCustomer "c-2" "Kamala" "Galle" "072" 1000 100])
    Absent Absent Absent Absent Absent
    (Present [mkCreditBill "cb-1" "BILL-1700000000000" "c-1" 500 350 150
                           "2025-01-01" "" []])
    (Present [mkCheque "q-1" "BILL-1" "000111" "BOC" 250 "2025-03-01" Pending;
              mkCheque "q-2" "BILL-2" "000222" "HNB" 300 "2025-04-01" Claimed]).

Definition sampleWorld : World := boot (Some sampleDoc).

(** Three units of [SKU1] in the cart, flat discount 10. *)
Definition sampleCart : World :=
  onDiscountValueInput (Some 10%Q)
    (after (addManualItem uuid1 "SKU1" "Soap" (Some 100%Q) (Some 3%Z)
                          sampleWorld) sampleWorld).

Definition sampleDraw : Draw :=
  mkDraw "1750000000000" "2025-06-15" "10:30:00" uuid1 uuid2 uuid3 uuid4.

(** A bill form: customer type, registered customer, payment method. *)
Definition billForm (customerType customerId' method : string) : BillForm :=
  mkBillForm customerType "" "" "" customerId' "main" method "" "" "" "".

Definition cashInstallment (a : Q) : InstallmentForm :=
  mkInstallmentForm (Some a) "cash" "" "" "" "".

(** A stored document in which the customer owes less (50) than the due
    amount of the only credit bill (100). *)
Definition creditDoc : RawDoc :=
  mkRawDoc Absent Absent
    (Present [mkCustomer "c-1" "Nimal" "Kandy" "071" 1000 50])
    Absent Absent Absent Absent Absent
    (Present [mkCreditBill "cb-1" "BILL-1700000000000" "c-1" 100 0 100
                           "2025-01-01" "" []])
    Absent.

(* ------------------------------------------------------------------ *)
(** ** Notions used in the proofs about stock and totals *)

(** The stock loops of [processBill] and [createGrn] as a fold over
    requests (item id, quantity), [op] being [-=] or [+=]. *)
Definition bump {X : Type} (op : Stock -> X -> Stock) (inv : list loc)
    (h : list Item) (r : string * X) : list Item :=
  match findLoc (fun i => item_id i =? fst r) h inv with
  | Some inventoryItem =>
      alter (fun i => set_stock (op (stock i) (snd r)) i) inventoryItem h
  | None => h
  end.

Definition bumpAll {X : Type} (op : Stock -> X -> Stock) (inv : list loc)
    (h : list Item) (reqs : list (string * X)) : list Item :=
  fold_left (bump op inv) reqs h.

(** The requests of a cart and of a list of GRN lines. *)
Definition cartRequests (h : list Item) (cart : list loc)
  : list (string * option Z) :=
  omap (fun l => (fun line => (item_id line, qty line)) <$> h !! l) cart.

Definition grnRequests (g : list GrnLine) (lines : list loc)
  : list (string * Z) :=
  omap (fun l => (fun line => (gl_id line, gl_qty line)) <$> g !! l) lines.


(** The discount value [calculateGrandTotal] works with. *)
Definition effectiveDiscount (v : option Q) : Q :=
  match v with
  | Some v' => if Qltb v' 0 then 0%Q else v'
  | None => 0%Q
  end.

(** Every reference of the inventory and of the cart points into the
    store. *)
Definition validLocs (w : World) : Prop :=
  Forall (fun l => (l < length (objects w))%nat)
         (inventory (posData w) ++ currentCart w).






(* ------------------------------------------------------------------ *)
(** ** Runs of the page *)

(** The user actions of the modelled handlers, with what each handler
    reads from its form, the clock and the identifier generator.  A run
    takes them in any order: which buttons the page offers in which section
    is a matter of its markup.  The handlers of customers, quotations,
    reports and shop details, the deletion of sales, payments, cheques and
    GRNs, and [updateCartItemQuantity] (a quantity typed into a cart row,
    the one way a cart line gets a quantity that is not a number) are not
    among them. *)
Inductive Event : Type :=
| AddInventoryItem (newId : string) (f : ItemForm)
| EditInventoryItem (id : string)
| SubmitEdit (f : ItemForm)
| DeleteInventoryItem (id : string)
| AddItemByBarcode (barcodeInput : string)
| AddManualItem (tempId codeInput nameInput : string) (priceInput : option Q)
                (qtyInput : option Z)
| RemoveCartItem (itemId : string)
| DiscountValueInput (v : option Q)
| DiscountTypeChange (ty : string)
| ProcessBill (dr : Draw) (f : BillForm)
| AddGrnItem (codeInput : string) (qtyInput : option Z)
| CreateGrn (stamp supplierInput grnDateInput : string)
| AddInstallment (editingCreditBillId : option string)
                 (today payId chqId : string) (f : InstallmentForm)
| DeleteCreditBill (id : string)
| UpdateChequeStatus (id : string) (newStatus : ChequeStatus)
| AddDistributionChannel (newId cname cregNo caddress chotline : string)
                         (logo : option string)
| DeleteDistributionChannel (id : string)
| ShowSection (sectionId : string).

(** A handler of the document alone, run on the page. *)
Definition onDoc (g : POSData loc loc -> POSData loc loc) (w : World) : World :=
  set_posData (g (posData w)) w.

Definition handle (w : World) (e : Event) : World :=
  match e with
  | AddInventoryItem newId f => after (addInventoryItem newId f w) w
  | EditInventoryItem id => after (editInventoryItem id w) w
  | SubmitEdit f => after (editSubmit f w) w
  | DeleteInventoryItem id => deleteInventoryItem id w
  | AddItemByBarcode c => after (addItemByBarcode c w) w
  | AddManualItem tempId c n p q => after (addManualItem tempId c n p q w) w
  | RemoveCartItem id => removeCartItem id w
  | DiscountValueInput v => onDiscountValueInput v w
  | DiscountTypeChange ty => onDiscountTypeChange ty w
  | ProcessBill dr f => after (processBill dr f w) w
  | AddGrnItem c q => after (addGrnItem c q w) w
  | CreateGrn stamp s d => after (createGrn stamp s d w) w
  | AddInstallment eid today payId chqId f =>
      onDoc (fun d => after (addInstallment eid today payId chqId f d) d) w
  | DeleteCreditBill id => onDoc (deleteCreditBill id) w
  | UpdateChequeStatus id s =>
      onDoc (fun d => after (updateChequeStatus id s d) d) w
  | AddDistributionChannel newId n r a h logo =>
      onDoc (fun d => after (addDistributionChannel newId n r a h logo d) d) w
  | DeleteDistributionChannel id =>
      onDoc (fun d => after (deleteDistributionChannel id d) d) w
  | ShowSection sectionId => showSection sectionId w
  end.

(** The page after loading [data] and handling the events in order. *)
Definition run (data : option RawDoc) (es : list Event) : World :=
  fold_left handle es (boot data).

(** The line objects of all recorded sales. *)
Definition saleLines (w : World) : list loc :=
  concat (sale_items (R:=loc) <$> sales (posData w)).

(** The item the edit closure of the inventory form holds, if any. *)
Definition editLoc (w : World) : list loc :=
  match editing w with
  | Some (item, _) => [item]
  | None => []
  end.

(** The store invariant behind the snapshots: the inventory, the edit
    closure and the recorded sales refer to existing objects, and no line of
    a recorded sale is an inventory entry or the object under edit. *)
Definition wf (w : World) : Prop :=
  Forall (fun l => (l < length (objects w))%nat)
         (inventory (posData w) ++ editLoc w ++ saleLines w)
  /\ forall l, l ∈ saleLines w ->
               (l ∉ inventory (posData w)) /\ (l ∉ editLoc w).

(* ------------------------------------------------------------------ *)
(** ** Invariants of the runs *)


(** A store that has grown out of another without changing the id of any
    object. *)
Definition sameIds (h h' : list Item) : Prop :=
  (length h <= length h')%nat
  /\ forall l, (l < length h)%nat -> item_id <$> h' !! l = item_id <$> h !! l.



(* ------------------------------------------------------------------ *)
(** ** Customers *)

(** The inputs of the customer form. *)
Record CustomerForm := mkCustomerForm {
  customerRegNameInput : string;
  customerRegAddressInput : string;
  customerRegTpInput : string;
  customerCreditLimitInput : option Q
}.

Section Customers.
Context {R G : Type}.
Implicit Type d : POSData R G.

(** The submit listener of [addCustomerForm]; [newId] is the identifier
    drawn for the customer. *)
Definition addCustomer (newId : string) (f : CustomerForm) d
  : Result (POSData R G) :=
  match customerCreditLimitInput f with
  | None => Err "Please enter a valid credit limit."
  | Some creditLimit' =>
      if Qltb creditLimit' 0 then Err "Please enter a valid credit limit."
      else
        Ok (set_customers
              (customers d ++
                 [mkCustomer newId (trim (customerRegNameInput f))
                             (trim (customerRegAddressInput f))
                             (trim (customerRegTpInput f)) creditLimit' 0])
              d)
  end.

(** The four assignments [customer.name = updatedName; ...]. *)
Definition editCustomerFields (n a t : string) (l : Q) (c : Customer)
  : Customer :=
  mkCustomer (cust_id c) n a t l (outstandingCredit c).

(** [editCustomer(id)] and the [onsubmit] closure it installs, run on the
    next submit of the form with no other handler in between: the customer
    the closure holds is then still the first one with that id.  (The
    submit listener [addCustomer] stays bound and runs on the same event;
    it is a separate step here.) *)
Definition editCustomer (id : string) (f : CustomerForm) d
  : Result (POSData R G) :=
  match findIndex (fun c => cust_id c =? id) (customers d) with
  | None => Err "Customer not found."
  | Some customer =>
      match customerCreditLimitInput f with
      | None => Err "Please enter a valid credit limit."
      | Some updatedCreditLimit =>
          if Qltb updatedCreditLimit 0
          then Err "Please enter a valid credit limit."
          else
            Ok (set_customers
                  (alter (editCustomerFields
                            (trim (customerRegNameInput f))
                            (trim (customerRegAddressInput f))
                            (trim (customerRegTpInput f))
                            updatedCreditLimit)
                         customer (customers d))
                  d)
      end
  end.

(** [posData.creditBills.some(bill => bill.customerId === id &&
    bill.dueAmount > 0)]. *)
Definition hasOutstandingCredit (id : string) d : bool :=
  existsb (fun bill => (customerId bill =? id) && Qltb 0 (dueAmount bill))
          (creditBills d).

(** [deleteCustomer(id)]. *)
Definition deleteCustomer (id : string) d : Result (POSData R G) :=
  if hasOutstandingCredit id d
  then Err "Cannot delete customer with outstanding credit bills. Please settle all credit bills first."
  else Ok (set_customers
             (filter (fun customer => negb (cust_id customer =? id))
                     (customers d))
             d).
End Customers.

(* ------------------------------------------------------------------ *)
(** ** Deleting records, and the due date of a credit bill *)

Section Records.
Context {R G : Type}.
Implicit Type d : POSData R G.

(** [deleteGrn(id)]. *)
Definition deleteGrn (id : string) d : POSData R G :=
  set_grns (filter (fun grn => negb (grn_id grn =? id)) (grns d)) d.

(** [deletePaymentRecord(id)]. *)
Definition deletePaymentRecord (id : string) d : POSData R G :=
  set_payments (filter (fun p => negb (pay_id p =? id)) (payments d)) d.

(** [deleteCheque(id)]. *)
Definition deleteCheque (id : string) d : POSData R G :=
  set_cheques (filter (fun c => negb (chq_id c =? id)) (cheques d)) d.

Definition set_cb_dueDate (v : string) (b : CreditBill) : CreditBill :=
  mkCreditBill (cb_id b) (cb_billId b) (customerId b) (totalAmount b)
               (paidAmount b) (dueAmount b) (billDate b) v (paymentHistory b).

(** The click handler of [saveCreditBillChangesBtn]. *)
Definition saveCreditBillChanges (editingCreditBillId : option string)
    (editCreditBillDueDate : string) d : Result (POSData R G) :=
  match findCreditBill editingCreditBillId d with
  | None => Err "Credit bill not found."
  | Some creditBill =>
      Ok (set_creditBills
            (alter (set_cb_dueDate editCreditBillDueDate) creditBill
                   (creditBills d))
            d)
  end.
End Records.

(** The click handler of a remove button of the pending GRN list. *)
Definition removeGrnItem (itemId : string) (w : World) : World :=
  set_currentGrnItems
    (filter (fun l => holdsAt (fun item => negb (gl_id item =? itemId))
                              (grnObjects w) l)
            (currentGrnItems w))
    w.


(* ------------------------------------------------------------------ *)
(** ** Sessions: the page handlers and the record handlers together *)

(** The handlers of [Event] and, besides them, the handlers of customers,
    of record deletion, of the due date of a credit bill and of the pending
    GRN list.  With them every handler that writes the customers, the
    credit bills, the payments, the cheques or the sales of the document
    is a command; [updateCartItemQuantity], the quotations and the shop
    details are not. *)
Inductive Command : Type :=
| OnPage (e : Event)
| AddCustomer (newId : string) (f : CustomerForm)
| EditCustomer (id : string) (f : CustomerForm)
| DeleteCustomer (id : string)
| DeleteGrn (id : string)
| DeletePaymentRecord (id : string)
| DeleteCheque (id : string)
| SaveCreditBillChanges (editingCreditBillId : option string)
                        (editCreditBillDueDate : string)
| RemoveGrnItem (itemId : string).

Definition perform (w : World) (c : Command) : World :=
  match c with
  | OnPage e => handle w e
  | AddCustomer newId f => onDoc (fun d => after (addCustomer newId f d) d) w
  | EditCustomer id f => onDoc (fun d => after (editCustomer id f d) d) w
  | DeleteCustomer id => onDoc (fun d => after (deleteCustomer id d) d) w
  | DeleteGrn id => onDoc (deleteGrn id) w
  | DeletePaymentRecord id => onDoc (deletePaymentRecord id) w
  | DeleteCheque id => onDoc (deleteCheque id) w
  | SaveCreditBillChanges eid v =>
      onDoc (fun d => after (saveCreditBillChanges eid v d) d) w
  | RemoveGrnItem itemId => removeGrnItem itemId w
  end.

(** The page after loading [data] and performing the commands in order. *)
Definition session (data : option RawDoc) (cs : list Command) : World :=
  fold_left perform cs (boot data).





(** The bill ids of the recorded sales. *)
Definition saleIds {R G : Type} (d : POSData R G) : list string :=
  sale_id (R:=R) <$> sales d.


(** The bill ids that payments, credit bills and cheques carry. *)
Definition billRefs {R G : Type} (d : POSData R G) : list string :=
  (pay_billId <$> payments d) ++ (cb_billId <$> creditBills d)
  ++ (chq_billId <$> cheques d).

(** Every payment, every credit bill and every cheque carries the bill id
    of a recorded sale. *)
Definition refersToSales {R G : Type} (d : POSData R G) : Prop :=
  forall id, id ∈ billRefs d -> id ∈ saleIds d.



(** A credit bill with an amount due belongs to a registered customer. *)
Definition debtorsKnown {R G : Type} (d : POSData R G) : Prop :=
  forall b, b ∈ creditBills d -> (0 < dueAmount b)%Q ->
            customerId b ∈ (cust_id <$> customers d).



(** The cart lines are objects of their own: every reference of the cart
    points into the store, and none is an inventory entry, the object under
    edit or a line of a recorded sale. *)
Definition cartApart (w : World) : Prop :=
  forall l, l ∈ currentCart w ->
    (l < length (objects w))%nat
    /\ (l ∉ inventory (posData w)) /\ (l ∉ editLoc w) /\ (l ∉ saleLines w).

(** The subtotal on the page is the sum of the cart's lines, to two
    decimals. *)
Definition subtotalShown (w : World) : Prop :=
  (cartSubtotalSpan w
   == toFixed2 (cartSubtotal (objects w) (currentCart w)))%Q.

(** The store is in order: recorded sales, inventory and cart are apart,
    and the subtotal is the cart's. *)
Definition storeInv (w : World) : Prop :=
  wf w /\ cartApart w /\ subtotalShown w.


(* ------------------------------------------------------------------ *)
(** ** The dashboard and the receipt *)

Section Dashboard.
Context {R G : Type}.
Implicit Type d : POSData R G.


Definition inventoryCount d : nat := length (inventory d).



(** The head of the receipt [showReceiptModal] fills in: logo, name,
    address and telephone of the channel of the sale, or of the shop when
    the channel is not in the list.  Without the channel and without shop
    details the handler throws: [None]. *)
Definition receiptHead (sale : Sale R) d
  : option (string * string * string * string) :=
  match findIndex (fun c => ch_id c =? channelId sale)
                  (distributionChannels d) with
  | Some i =>
      match distributionChannels d !! i with
      | Some selectedChannel =>
          Some (ch_receiptLogo selectedChannel, ch_name selectedChannel,
                ch_address selectedChannel, hotline selectedChannel)
      | None => None
      end
  | None =>
      match shop d with
      | Some s => Some (receiptLogo s, shop_name s, shop_address s, shop_tp s)
      | None => None
      end
  end.
End Dashboard.

(* ------------------------------------------------------------------ *)
(** ** Saving the document *)

(** [JSON.stringify] follows the references of an array: the objects they
    point to are written out, each with what the serialisation keeps of
    it. *)
Definition stringifyAll {A : Type} (json : A -> A) (h : list A)
    (ls : list loc) : list A :=
  omap (fun l => json <$> h !! l) ls.

Definition stringifySale (h : list Item) (s : Sale loc) : Sale Item :=
  mkSale (sale_id s) (sale_date s) (sale_time s) (sale_customer s)
         (channelId s) (stringifyAll jsonItem h (sale_items s)) (subtotal s)
         (discountType s) (discountValue s) (discountAmount s) (grandTotal s)
         (paymentMethod s) (paymentRef s) (sale_chequeDetails s).

Definition stringifyGrn (h : list GrnLine) (g : Grn loc) : Grn GrnLine :=
  mkGrn (grn_id g) (grn_date g) (supplier g)
        (stringifyAll jsonGrnLine h (grn_items g)).

(** What the serialisation keeps of a sale that holds its items. *)
Definition jsonSale (s : Sale Item) : Sale Item :=
  mkSale (sale_id s) (sale_date s) (sale_time s) (sale_customer s)
         (channelId s) (jsonItem <$> sale_items s) (subtotal s)
         (discountType s) (discountValue s) (discountAmount s) (grandTotal s)
         (paymentMethod s) (paymentRef s) (sale_chequeDetails s).

(** [savePOSData], when [localStorage.setItem] goes through: what
    [JSON.parse] reads back from the text written with
    [JSON.stringify(posData)].  Every key is present and a shop that is
    [null] stays [null]. *)
Definition savePOSData (w : World) : RawDoc :=
  let d := posData w in
  mkRawDoc (match shop d with Some s => Present s | None => JNull end)
           (Present (stringifyAll jsonItem (objects w) (inventory d)))
           (Present (customers d))
           (Present (distributionChannels d))
           (Present (stringifySale (objects w) <$> sales d))
           (Present (stringifyGrn (grnObjects w) <$> grns d))
           (Present (quotations d))
           (Present (payments d))
           (Present (creditBills d))
           (Present (cheques d)).

(** The page loaded anew on what [w] has saved. *)
Definition reload (w : World) : World := boot (Some (savePOSData w)).

(** Every inventory entry is an object of the store with a [threshold]. *)
Definition thresholdsSet (w : World) : Prop :=
  forall l, l ∈ inventory (posData w) ->
            exists o, objects w !! l = Some o /\ threshold o <> None.

(** A store that has grown out of another and has kept the [threshold] of
    every object that had one. *)
Definition keepsThresholds (h h' : list Item) : Prop :=
  forall l o, h !! l = Some o -> threshold o <> None ->
              exists o', h' !! l = Some o' /\ threshold o' <> None.

(* ------------------------------------------------------------------ *)
(** ** Accounts ([login.js]) and [logout] *)






(* ------------------------------------------------------------------ *)
(** ** The steps of the settings dialog *)

(** [nextStep()] and [prevStep()] on [currentStep]; [n] is
    [steps.length]. *)
Definition nextStep (n : nat) (currentStep : nat) : nat :=
  if (Z.of_nat currentStep <? Z.of_nat n - 1)%Z then S currentStep
  else currentStep.

Definition prevStep (currentStep : nat) : nat :=
  if (0 <? currentStep)%nat then pred currentStep else currentStep.

(** [showStep(index)]: which of the [n] steps are displayed. *)
Definition showStep (n : nat) (index : nat) : list bool :=
  (fun i => i =? index)%nat <$> seq 0 n.

(** The two buttons of the dialog, and [currentStep] after a series of
    clicks; it starts at [0]. *)
Inductive StepButton : Type := NextButton | PrevButton.

Definition press (n : nat) (currentStep : nat) (b : StepButton) : nat :=
  match b with
  | NextButton => nextStep n currentStep
  | PrevButton => prevStep currentStep
  end.

Definition stepAfter (n : nat) (clicks : list StepButton) : nat :=
  fold_left (press n) clicks 0%nat.


(* ------------------------------------------------------------------ *)
(** ** The entries of the inventory *)

(** The objects [posData.inventory] holds, in order. *)
Definition inventoryObjects (w : World) : list Item :=
  omap (fun l => objects w !! l) (inventory (posData w)).

(** No two entries of the inventory, at different places of the array,
    agree on [key]. *)
Definition uniqueBy {K : Type} (key : Item -> K) (w : World) : Prop :=
  forall l1 l2 o1 o2,
    l1 ∈ inventory (posData w) -> l2 ∈ inventory (posData w) ->
    objects w !! l1 = Some o1 -> objects w !! l2 = Some o2 ->
    key o1 = key o2 -> l1 = l2.

(** The edit closure holds the identifier of the item it holds. *)
Definition editingSound (w : World) : Prop :=
  forall item id o, editing w = Some (item, id) ->
                    objects w !! item = Some o -> item_id o = id.

(** A store that has grown out of another without changing the id or the
    code of any object. *)
Definition sameKeys (h h' : list Item) : Prop :=
  forall l, (l < length h)%nat ->
    (fun o => (item_id o, code o)) <$> h' !! l
    = (fun o => (item_id o, code o)) <$> h !! l.

Definition inventoryInv (w : World) : Prop :=
  NoDup (inventory (posData w))
  /\ uniqueBy code w /\ uniqueBy item_id w /\ editingSound w.

(** The identifier drawn for a new inventory item is the id of no
    inventory entry. *)
Definition drawsFreshItem (w : World) (c : Command) : bool :=
  match c with
  | OnPage (AddInventoryItem newId _) =>
      negb (existsb (fun o => item_id o =? newId) (inventoryObjects w))
  | _ => true
  end.

Fixpoint freshItemsFrom (w : World) (cs : list Command) : bool :=
  match cs with
  | [] => true
  | c :: r => drawsFreshItem w c && freshItemsFrom (perform w c) r
  end.


(* ------------------------------------------------------------------ *)
(** ** A sample session *)

Definition riceForm : ItemForm :=
  mkItemForm "SKU2" "Rice" "" (Some 250%Q) (Some 20%Z) (Some 5%Z).

Definition sunilForm : CustomerForm :=
  mkCustomerForm "Sunil" "Matara" "073" (Some 5000%Q).

(** A first start: an item is added to the inventory and a customer is
    registered; two units of the item are sold to the customer on credit,
    and the customer pays 200 of the 500 in cash. *)
Definition sampleSession : list Command :=
  [OnPage (AddInventoryItem uuid1 riceForm);
   AddCustomer uuid2 sunilForm;
   OnPage (AddManualItem uuid4 "SKU2" "Rice" (Some 250%Q) (Some 2%Z));
   OnPage (ProcessBill sampleDraw (billForm "registered" uuid2 "credit"));
   OnPage (AddInstallment (Some uuid3) "2025-06-20" "p-2" "q-2"
                          (cashInstallment 200))].

(** The same session up to the bill, the cart still full. *)
Definition sampleShopping : list Command :=
  [OnPage (AddInventoryItem uuid1 riceForm);
   AddCustomer uuid2 sunilForm;
   OnPage (AddManualItem uuid4 "SKU2" "Rice" (Some 250%Q) (Some 2%Z))].

(** A first start with a second channel, and a cash sale on that channel. *)
Definition branchForm : BillForm :=
  mkBillForm "walking" "" "" "" "" uuid3 "cash" "" "" "" "".

Definition branchSession : list Command :=
  [OnPage (AddInventoryItem uuid1 riceForm);
   OnPage (AddDistributionChannel uuid3 "Branch" "R-1" "Galle" "091"
                                  (Some placeholder80));
   OnPage (AddManualItem uuid4 "SKU2" "Rice" (Some 250%Q) (Some 2%Z));
   OnPage (ProcessBill sampleDraw branchForm)].



(** A first start with one item, five units of which are on the pending
    GRN. *)
Definition receivingSession : list Command :=
  [OnPage (AddInventoryItem uuid1 riceForm);
   OnPage (AddGrnItem "SKU2" (Some 5%Z))].

(* ================================================================== *)
(** * Properties *)

(** ** Auxiliary facts *)

Unset Implicit Arguments.

Lemma Qltb_lt (x y : Q) : Qltb x y = true <-> (x < y)%Q.
Proof.
  unfold Qltb. rewrite negb_true_iff. split; intros H.
  - apply Qnot_le_lt. intros Hle. apply Qle_bool_iff in Hle. congruence.
  - destruct (Qle_bool y x) eqn:E; [|reflexivity].
    apply Qle_bool_iff in E. exfalso. apply (Qlt_not_le _ _ H E).
Qed.

Lemma Qltb_ge (x y : Q) : Qltb x y = false <-> (y <= x)%Q.
Proof.
  unfold Qltb. rewrite negb_false_iff. apply Qle_bool_iff.
Qed.

Lemma findIndex_Some {A : Type} (p : A -> bool) (l : list A) (i : nat) :
  findIndex p l = Some i ->
  exists x, l !! i = Some x /\ p x = true
            /\ forall j y, (j < i)%nat -> l !! j = Some y -> p y = false.
Proof.
  revert i. induction l as [|a l IH]; intros i H; simpl in H; [discriminate|].
  destruct (p a) eqn:Hp.
  - injection H as <-. exists a. repeat split; auto. intros j y Hj. lia.
  - destruct (findIndex p l) as [k|] eqn:Hk; simpl in H; [|discriminate].
    injection H as <-. destruct (IH k eq_refl) as (x & Hx & Hpx & Hmin).
    exists x. repeat split; auto.
    intros [|j] y Hj Hy; simpl in Hy.
    + congruence.
    + apply (Hmin j); auto. lia.
Qed.

Lemma findIndex_None {A : Type} (p : A -> bool) (l : list A) :
  findIndex p l = None -> forall x, x ∈ l -> p x = false.
Proof.
  induction l as [|a l IH]; intros H x Hx.
  - inversion Hx.
  - simpl in H. destruct (p a) eqn:Hp; [discriminate|].
    destruct (findIndex p l) eqn:Hk; simpl in H; [discriminate|].
    apply elem_of_cons in Hx as [->|Hx]; auto.
Qed.

Lemma findIndex_is_Some {A : Type} (p : A -> bool) (l : list A) (x : A) :
  x ∈ l -> p x = true -> exists i, findIndex p l = Some i.
Proof.
  intros Hx Hp. destruct (findIndex p l) as [i|] eqn:E; [eauto|].
  rewrite (findIndex_None _ _ E x Hx) in Hp. discriminate.
Qed.

(** With distinct keys the first match is the only match. *)
Lemma findIndex_key {A : Type} (key : A -> string) (l : list A) (i : nat)
    (x : A) :
  NoDup (key <$> l) -> l !! i = Some x ->
  findIndex (fun y => key y =? key x) l = Some i.
Proof.
  intros Hnd Hx.
  assert (Hin : x ∈ l) by (apply list_elem_of_lookup; eauto).
  destruct (findIndex_is_Some (fun y => key y =? key x) l x Hin
              (String.eqb_refl _)) as [j Hj].
  rewrite Hj. f_equal.
  destruct (findIndex_Some _ _ _ Hj) as (y & Hy & Hk & _).
  apply String.eqb_eq in Hk.
  apply (NoDup_lookup (key <$> l) j i (key x) Hnd).
  - rewrite list_lookup_fmap, Hy. simpl. congruence.
  - rewrite list_lookup_fmap, Hx. reflexivity.
Qed.

(** Updating an element without touching the key the search looks at does
    not move the first match. *)
Lemma findIndex_alter {A : Type} (p : A -> bool) (g : A -> A) (l : list A)
    (i : nat) :
  (forall x, p (g x) = p x) ->
  findIndex p (alter g i l) = findIndex p l.
Proof.
  intros Hg. revert i. induction l as [|a l IH]; intros [|i]; simpl; auto.
  - rewrite Hg. reflexivity.
  - pose proof (IH i) as E. unfold alter in E. rewrite E. reflexivity.
Qed.

Lemma filter_cons_b {A : Type} (p : A -> bool) (x : A) (l : list A) :
  filter (fun y => p y) (x :: l)
  = if p x then x :: filter (fun y => p y) l else filter (fun y => p y) l.
Proof.
  destruct (p x) eqn:E.
  - rewrite filter_cons_True; [reflexivity|]. rewrite E. exact I.
  - rewrite filter_cons_False; [reflexivity|]. rewrite E. intros [].
Qed.

Lemma filter_all {A : Type} (p : A -> bool) (l : list A) :
  (forall x, x ∈ l -> p x = true) -> filter (fun y => p y) l = l.
Proof.
  induction l as [|a l IH]; intros H; [reflexivity|].
  rewrite filter_cons_b, (H a) by (left). f_equal. apply IH.
  intros x Hx. apply H. right. exact Hx.
Qed.

(** With distinct keys, filtering out a key removes exactly one element. *)
Lemma filter_key_delete {A : Type} (key : A -> string) (l : list A) (i : nat)
    (x : A) :
  NoDup (key <$> l) -> l !! i = Some x ->
  filter (fun y => negb (key y =? key x)) l = delete i l.
Proof.
  revert i. induction l as [|a l IH]; intros i Hnd Hx; [discriminate|].
  rewrite fmap_cons in Hnd. apply NoDup_cons in Hnd as [Hna Hnd].
  rewrite filter_cons_b. destruct i as [|i]; simpl in Hx.
  - injection Hx as ->. rewrite String.eqb_refl. simpl.
    apply filter_all. intros y Hy. apply negb_true_iff.
    destruct (key y =? key x) eqn:E; [|reflexivity].
    apply String.eqb_eq in E. exfalso. apply Hna. rewrite <- E.
    apply list_elem_of_fmap_2. exact Hy.
  - destruct (key a =? key x) eqn:E; simpl.
    + apply String.eqb_eq in E. exfalso. apply Hna. rewrite E.
      apply list_elem_of_fmap_2. apply list_elem_of_lookup_2 with i. exact Hx.
    + f_equal. apply IH; auto.
Qed.

Lemma alter_insert {A : Type} (g : A -> A) (l : list A) (i : nat) (x : A) :
  l !! i = Some x -> alter g i l = <[i := g x]> l.
Proof.
  intros Hx. apply list_eq. intros j. destruct (decide (i = j)) as [<-|Hne].
  - rewrite list_lookup_alter_eq, Hx. simpl.
    rewrite list_lookup_insert_eq; [reflexivity|].
    apply lookup_lt_Some in Hx. exact Hx.
  - rewrite list_lookup_alter_ne, list_lookup_insert_ne; auto.
Qed.

(* ------------------------------------------------------------------ *)
(** ** Loading the stored document *)

(** C6, as stated, fails: for the stored text [{}] the channel list is
    missing, yet the loaded document does not get the empty list for it. *)
Lemma absent_channels_not_filled_with_empty_list :
  missing r_distributionChannels (Some emptyDoc)
  /\ distributionChannels (loadPOSData (Some emptyDoc)) <> [].
Proof. split; [reflexivity|]. vm_compute. discriminate. Qed.

Lemma orElse_missing {A : Type} (f : JField (list A)) :
  toOption f = None -> orElse (spread [] f) [] = [].
Proof. destruct f; simpl; intros; congruence. Qed.

(** C6 (amended): loading a missing or partial stored document gives the
    empty list for each of inventory, customers, sales, grns, quotations,
    payments, creditBills and cheques that is missing, gives the default
    list holding the single "main" channel for a missing
    distributionChannels, and gives every inventory item a threshold: its
    own when it has one, [0] when the field is missing; the other fields of
    the item are kept. *)
Theorem loadPOSData_fills_absent (data : option RawDoc) :
  let d := loadPOSData data in
  (missing r_inventory data -> inventory d = [])
  /\ (missing r_customers data -> customers d = [])
  /\ (missing r_distributionChannels data ->
      distributionChannels d = [mainChannel])
  /\ (missing r_sales data -> sales d = [])
  /\ (missing r_grns data -> grns d = [])
  /\ (missing r_quotations data -> quotations d = [])
  /\ (missing r_payments data -> payments d = [])
  /\ (missing r_creditBills data -> creditBills d = [])
  /\ (missing r_cheques data -> cheques d = [])
  /\ (forall raw items i it,
        data = Some raw -> r_inventory raw = Present items ->
        items !! i = Some it ->
        exists it',
          inventory d !! i = Some it'
          /\ threshold it' = Some (default 0%Z (threshold it))
          /\ item_id it' = item_id it /\ code it' = code it
          /\ name it' = name it /\ description it' = description it
          /\ price it' = price it /\ stock it' = stock it /\ qty it' = qty it).
Proof.
  destruct data as [raw|]; cbv zeta; unfold loadPOSData; simpl.
  - repeat match goal with |- _ /\ _ => split end;
      try (intros H; apply orElse_missing; exact H).
    + intros H. rewrite orElse_missing; auto.
    + intros H. destruct (r_distributionChannels raw); simpl in *; congruence.
    + intros raw' items i it [= <-] Hinv Hit. rewrite Hinv. simpl.
      exists (migrateItem it). rewrite list_lookup_fmap, Hit. simpl.
      repeat split; auto. f_equal. unfold thresholdOrZero.
      destruct (threshold it) as [z|]; simpl; auto.
      destruct (Z.eqb_spec z 0); congruence.
  - repeat match goal with |- _ /\ _ => split end; auto. intros; discriminate.
Qed.

(* ------------------------------------------------------------------ *)
(** ** The main channel *)

Lemma isUUID_not_main (id : string) :
  isUUID id = true -> (id =? "main") = false.
Proof.
  intros H. destruct (id =? "main") eqn:E; [|reflexivity].
  apply String.eqb_eq in E. subst id. vm_compute in H. discriminate.
Qed.

Lemma mainCount_delete {R G : Type} (d : POSData R G) (id : string) :
  (id =? "main") = false ->
  mainCount (set_distributionChannels
     (filter (fun c => negb (ch_id c =? id)) (distributionChannels d)) d)
  = mainCount d.
Proof.
  intros Hid. unfold mainCount. simpl.
  induction (distributionChannels d) as [|c l IH]; [reflexivity|].
  rewrite !filter_cons_b.
  destruct (ch_id c =? id) eqn:E1; simpl.
  - apply String.eqb_eq in E1. rewrite E1, Hid. exact IH.
  - rewrite filter_cons_b. destruct (ch_id c =? "main"); simpl; rewrite IH;
      reflexivity.
Qed.

Lemma mainCount_add {R G : Type} (d : POSData R G) (c : Channel) :
  (ch_id c =? "main") = false ->
  mainCount (set_distributionChannels (distributionChannels d ++ [c]) d)
  = mainCount d.
Proof.
  intros Hid. unfold mainCount. simpl.
  rewrite filter_app, length_app, filter_cons_b, Hid. simpl. lia.
Qed.

(** C7: in every document reachable through loading and the two channel
    handlers exactly one channel has id "main", and a request to delete
    "main" is refused and leaves the channel list as it is. *)
Theorem main_channel_invariant (d : POSData Item GrnLine) :
  channelReach d ->
  mainCount d = 1%nat
  /\ deleteDistributionChannel "main" d
     = Err "Cannot delete the main shop channel."
  /\ distributionChannels (after (deleteDistributionChannel "main" d) d)
     = distributionChannels d.
Proof.
  intros H. split; [|split; reflexivity].
  induction H as [|raw Hraw|d raw Hd IH Hraw|d newId n r a h logo Hd IH Hid
                  |d id Hd IH].
  - reflexivity.
  - unfold mainCount, loadPOSData. simpl.
    destruct (r_distributionChannels raw); simpl in *; try reflexivity.
    discriminate.
  - unfold mainCount, loadPOSData in *. simpl. rewrite Hraw. simpl. exact IH.
  - destruct logo as [lg|]; simpl; [|exact IH].
    rewrite mainCount_add; [exact IH|]. simpl. apply isUUID_not_main, Hid.
  - unfold deleteDistributionChannel.
    destruct (id =? "main") eqn:E; simpl; [exact IH|].
    rewrite mainCount_delete; auto.
Qed.

(** A run: first start, two channels added, one of them deleted, a delete
    request for "main", a restart from what was saved. *)
Lemma main_channel_invariant_witness :
  let d1 := after (addDistributionChannel
                     "0b9e6f0a-7c1d-4f5e-9a3b-2d4c6e8f0a1b" "Kandy" "R-1"
                     "Kandy Road" "081-1" (Some placeholder80)
                     (loadPOSData None)) (loadPOSData None) in
  let d2 := after (addDistributionChannel
                     "1c0f7a1b-8d2e-4a6f-8b4c-3e5d7f9a1b2c" "Galle" "R-2"
                     "Galle Road" "091-1" (Some placeholder80) d1) d1 in
  let d3 := after (deleteDistributionChannel
                     "0b9e6f0a-7c1d-4f5e-9a3b-2d4c6e8f0a1b" d2) d2 in
  let d4 := after (deleteDistributionChannel "main" d3) d3 in
  let raw := mkRawDoc Absent Absent Absent
                      (Present (distributionChannels d4))
                      Absent Absent Absent Absent Absent Absent in
  length (distributionChannels (loadPOSData (Some raw))) = 2%nat
  /\ mainCount (loadPOSData (Some raw)) = 1%nat.
Proof.
  cbv zeta. split; [vm_compute; reflexivity|].
  apply main_channel_invariant.
  eapply cr_reload; [|reflexivity].
  apply cr_delete. apply cr_delete.
  apply cr_add; [|vm_compute; reflexivity].
  apply cr_add; [|vm_compute; reflexivity].
  apply cr_first.
Defined.

(* ------------------------------------------------------------------ *)
(** ** Cheque tracking *)

Lemma alter_set_status_twice (s : ChequeStatus) (i : nat) (l : list Cheque) :
  alter (set_status s) i (alter (set_status s) i l) = alter (set_status s) i l.
Proof.
  revert i. induction l as [|c l IH]; intros [|i]; simpl; auto.
  f_equal. apply IH.
Qed.

(** C8: for every cheque of the document and each of the four statuses,
    [updateChequeStatus] on the cheque's id succeeds whatever the current
    status is; it rewrites the status field of the cheque carrying that id
    (the cheque itself when ids are distinct) and nothing else in the
    document, and running it again with the same status gives the same
    document. *)
Theorem updateChequeStatus_unconstrained {R G : Type} (d : POSData R G)
    (c : Cheque) (s : ChequeStatus) :
  c ∈ cheques d ->
  exists (i : nat) (c0 : Cheque) (d' : POSData R G),
    cheques d !! i = Some c0
    /\ chq_id c0 = chq_id c
    /\ (NoDup (chq_id <$> cheques d) -> c0 = c)
    /\ updateChequeStatus (chq_id c) s d = Ok d'
    /\ cheques d'
       = <[i := mkCheque (chq_id c0) (chq_billId c0) (chequeNumber c0)
                         (chq_bank c0) (chq_amount c0) (chq_dueDate c0) s]>
           (cheques d)
    /\ updateChequeStatus (chq_id c) s d' = Ok d'
    /\ shop d' = shop d /\ inventory d' = inventory d
    /\ customers d' = customers d
    /\ distributionChannels d' = distributionChannels d
    /\ sales d' = sales d /\ grns d' = grns d
    /\ quotations d' = quotations d /\ payments d' = payments d
    /\ creditBills d' = creditBills d.
Proof.
  intros Hc.
  destruct (findIndex_is_Some (fun x => chq_id x =? chq_id c) (cheques d) c Hc
              (String.eqb_refl _)) as [i Hi].
  destruct (findIndex_Some _ _ _ Hi) as (c0 & Hc0 & Hid & _).
  apply String.eqb_eq in Hid.
  exists i, c0.
  eexists. split; [exact Hc0|]. split; [exact Hid|]. split.
  { intros Hnd. apply list_elem_of_lookup in Hc as [j Hj].
    assert (i = j).
    { apply (NoDup_lookup (chq_id <$> cheques d) i j (chq_id c) Hnd);
        rewrite list_lookup_fmap; [rewrite Hc0|rewrite Hj]; simpl; congruence. }
    subst j. congruence. }
  unfold updateChequeStatus. rewrite Hi. split; [reflexivity|].
  split.
  { simpl. apply list_eq. intros j. destruct (decide (i = j)) as [<-|Hne].
    - rewrite list_lookup_alter_eq, Hc0. simpl.
      rewrite list_lookup_insert_eq; [reflexivity|].
      apply lookup_lt_Some in Hc0. exact Hc0.
    - rewrite list_lookup_alter_ne, list_lookup_insert_ne; auto. }
  split.
  { simpl. rewrite findIndex_alter; [|intros; reflexivity]. rewrite Hi.
    unfold set_cheques. simpl. rewrite alter_set_status_twice. reflexivity. }
  repeat split; reflexivity.
Qed.

(* ------------------------------------------------------------------ *)
(** ** Credit bills *)

(** C5: for a credit bill of the document (ids distinct),
    [deleteCreditBill] takes the bill's due amount off the outstanding
    credit of the customer it finds for the bill, with 0 as the floor,
    removes that bill and no other from [creditBills], and leaves [sales],
    [payments] and every other collection as they are. *)
Theorem deleteCreditBill_effect {R G : Type} (d : POSData R G) (i : nat)
    (b : CreditBill) :
  creditBills d !! i = Some b ->
  NoDup (cb_id <$> creditBills d) ->
  let d' := deleteCreditBill (cb_id b) d in
  creditBills d' = delete i (creditBills d)
  /\ sales d' = sales d
  /\ payments d' = payments d
  /\ (forall j c,
        findIndex (fun c => cust_id c =? customerId b) (customers d) = Some j ->
        customers d !! j = Some c ->
        exists due',
          customers d'
          = <[j := mkCustomer (cust_id c) (cust_name c) (cust_address c)
                              (cust_tp c) (creditLimit c) due']> (customers d)
          /\ (due' == Qmax 0 (outstandingCredit c - dueAmount b))%Q)
  /\ (findIndex (fun c => cust_id c =? customerId b) (customers d) = None ->
      customers d' = customers d)
  /\ shop d' = shop d /\ inventory d' = inventory d
  /\ distributionChannels d' = distributionChannels d
  /\ grns d' = grns d /\ quotations d' = quotations d
  /\ cheques d' = cheques d.
Proof.
  intros Hb Hnd d'. subst d'. unfold deleteCreditBill.
  rewrite (findIndex_key cb_id _ _ _ Hnd Hb), Hb. simpl.
  split; [apply filter_key_delete; auto|].
  split; [reflexivity|]. split; [reflexivity|].
  split; [|split; [|repeat split; reflexivity]].
  - intros j c Hj Hc. unfold revert. rewrite Hj.
    rewrite (alter_insert _ _ _ _ Hc). unfold set_outstandingCredit.
    eexists. split; [reflexivity|].
    destruct (Qltb (outstandingCredit c - dueAmount b) 0) eqn:E.
    + apply Qltb_lt in E. symmetry. apply Q.max_l. lra.
    + apply Qltb_ge in E. symmetry. apply Q.max_r. exact E.
  - intros Hn. unfold revert. rewrite Hn. reflexivity.
Qed.

Lemma settle_spec (cid : string) (a : Q) (cs : list Customer) :
  (forall j c,
     findIndex (fun c => cust_id c =? cid) cs = Some j -> cs !! j = Some c ->
     settle cid a cs
     = <[j := mkCustomer (cust_id c) (cust_name c) (cust_address c) (cust_tp c)
                         (creditLimit c) (outstandingCredit c - a)]> cs)
  /\ (findIndex (fun c => cust_id c =? cid) cs = None -> settle cid a cs = cs).
Proof.
  unfold settle. split.
  - intros j c Hj Hc. rewrite Hj. rewrite (alter_insert _ _ _ _ Hc). reflexivity.
  - intros ->. reflexivity.
Qed.

Lemma chequeFor_Some (m n b dd msg : string) (cd : ChequeDetails) :
  chequeFor m n b dd msg = Ok (Some cd) ->
  m = "cheque" /\ cd = mkChequeDetails (trim n) (trim b) dd.
Proof.
  unfold chequeFor, readCheque. destruct (m =? "cheque") eqn:E; [|discriminate].
  apply String.eqb_eq in E.
  destruct ((trim n =? "") || (trim b =? "") || (dd =? "")); [discriminate|].
  intros [= <-]. auto.
Qed.

(** What the installment handler does: it refuses unless
    [0 < amount <= dueAmount]; otherwise it moves the amount from due to
    paid, records the payment in the bill's history and in [payments] under
    the bill id of the sale, and takes the amount off the customer's
    outstanding credit, without a floor. *)
Theorem addInstallment_effect {R G : Type} (d : POSData R G)
    (eid : option string) (today payId chqId : string) (f : InstallmentForm) :
  (forall bi b,
     findCreditBill eid d = Some bi -> creditBills d !! bi = Some b ->
     match installmentAmountInput f with
     | Some a => ~ (0 < a /\ a <= dueAmount b)%Q
     | None => True
     end ->
     isOk (addInstallment eid today payId chqId f d) = false)
  /\ (forall d',
        addInstallment eid today payId chqId f d = Ok d' ->
        exists bi b a cheque,
          findCreditBill eid d = Some bi
          /\ creditBills d !! bi = Some b
          /\ installmentAmountInput f = Some a
          /\ (0 < a /\ a <= dueAmount b)%Q
          /\ let p := mkPayment payId today (cb_billId b) a
                                (installmentMethodSelect f)
                                (trim (installmentReferenceInput f)) cheque in
             creditBills d'
             = <[bi := mkCreditBill (cb_id b) (cb_billId b) (customerId b)
                                    (totalAmount b) (paidAmount b + a)
                                    (dueAmount b - a) (billDate b)
                                    (cb_dueDate b) (paymentHistory b ++ [p])]>
                 (creditBills d)
             /\ payments d' = payments d ++ [p]
             /\ customers d' = settle (customerId b) a (customers d)
             /\ sales d' = sales d /\ inventory d' = inventory d).
Proof.
  split.
  - intros bi b Hbi Hb Hbad. unfold addInstallment. rewrite Hbi, Hb.
    destruct (installmentAmountInput f) as [a|]; [|reflexivity].
    destruct (Qle_bool a 0) eqn:E1; [reflexivity|].
    destruct (Qltb (dueAmount b) a) eqn:E2; [reflexivity|].
    exfalso. apply Hbad. apply Qltb_ge in E2. split; [|exact E2].
    apply Qnot_le_lt. intros Hle. apply Qle_bool_iff in Hle. congruence.
  - intros d' H. unfold addInstallment in H.
    destruct (findCreditBill eid d) as [bi|] eqn:Hbi; [|discriminate].
    destruct (creditBills d !! bi) as [b|] eqn:Hb; [|discriminate].
    destruct (installmentAmountInput f) as [a|] eqn:Ha; [|discriminate].
    destruct (Qle_bool a 0) eqn:E1; [discriminate|].
    destruct (Qltb (dueAmount b) a) eqn:E2; [discriminate|].
    destruct (chequeFor _ _ _ _ _) as [cheque|msg] eqn:Hc; [|discriminate].
    injection H as <-. exists bi, b, a, cheque.
    repeat match goal with |- _ /\ _ => split end; auto.
    + apply Qnot_le_lt. intros Hle. apply Qle_bool_iff in Hle. congruence.
    + apply Qltb_ge. exact E2.
    + cbv zeta. simpl. repeat split; auto.
      rewrite (alter_insert _ _ _ _ Hb). reflexivity.
Qed.

(** C2 at the failing input: the stored document [creditDoc] holds a
    customer with outstanding credit 50 and a bill with 100 due; a cash
    installment of 100 is accepted and leaves the customer at 50 - 100,
    below zero. *)
Example installment_below_zero :
  let d := loadPOSData (Some creditDoc) in
  exists d',
    addInstallment (Some "cb-1") "2025-02-01"
                   "7d1e3f5a-9b2c-4d6e-8f0a-1b3c5d7e9f0a"
                   "8e2f4a6b-0c3d-4e7f-9a1b-2c4d6e8f0a1b"
                   (cashInstallment 100) d
    = Ok d'
    /\ (dueAmount <$> creditBills d' !! 0%nat) = Some (100 - 100)%Q
    /\ (outstandingCredit <$> customers d' !! 0%nat) = Some (50 - 100)%Q
    /\ (50 - 100 < 0)%Q.
Proof.
  cbv zeta. eexists. split; [vm_compute; reflexivity|].
  split; [reflexivity|]. split; [reflexivity|]. reflexivity.
Qed.

(* ------------------------------------------------------------------ *)
(** ** Billing on credit *)

Lemma posData_resetBillingForm (w : World) :
  posData (resetBillingForm w) = posData w.
Proof.
  unfold resetBillingForm, renderCart, calculateGrandTotal. simpl.
  destruct (discountValueInput w) as [v|]; [destruct (Qltb v 0)|]; reflexivity.
Qed.

Lemma objects_resetBillingForm (w : World) :
  objects (resetBillingForm w) = objects w.
Proof.
  unfold resetBillingForm, renderCart, calculateGrandTotal. simpl.
  destruct (discountValueInput w) as [v|]; [destruct (Qltb v 0)|]; reflexivity.
Qed.

Ltac processBill_inv H :=
  unfold processBill in H;
  match type of H with
  | context [currentCart ?w] => destruct (currentCart w) eqn:?Hcart; [discriminate|]
  end;
  match type of H with
  | context [selectCustomer ?dr ?f ?cs] =>
      destruct (selectCustomer dr f cs) as [[?customerDetails ?selected]|]
        eqn:?Hsel; [|discriminate]
  end;
  match type of H with
  | context [creditRefused ?f ?g ?c] =>
      destruct (creditRefused f g c) eqn:?Hcredit; [discriminate|]
  end;
  match type of H with
  | context [chequeFor ?a ?b ?c ?d ?e] =>
      destruct (chequeFor a b c d e) as [?chequeDetails|] eqn:?Hcheque;
        [|discriminate]
  end;
  injection H as H.

Lemma selectCustomer_registered (dr : Draw) (f : BillForm)
    (cs : list Customer) (sc : SaleCustomer) (ci : nat) :
  selectCustomer dr f cs = Ok (sc, Some ci) ->
  (customerTypeSelect f =? "walking") = false
  /\ findIndex (fun c => cust_id c =? registeredCustomerDropdown f) cs = Some ci
  /\ exists c, cs !! ci = Some c.
Proof.
  unfold selectCustomer.
  destruct (customerTypeSelect f =? "walking"); [discriminate|].
  destruct (registeredCustomerDropdown f =? ""); [discriminate|].
  destruct (findIndex _ cs) as [j|] eqn:Hj; [|discriminate].
  destruct (cs !! j) as [c|] eqn:Hc; [|discriminate].
  intros [= _ <-]. repeat split; eauto.
Qed.

Lemma selectCustomer_walking (dr : Draw) (f : BillForm)
    (cs : list Customer) (sc : SaleCustomer) :
  selectCustomer dr f cs = Ok (sc, None) ->
  (customerTypeSelect f =? "walking") = true.
Proof.
  unfold selectCustomer.
  destruct (customerTypeSelect f =? "walking"); [reflexivity|].
  destruct (registeredCustomerDropdown f =? ""); [discriminate|].
  destruct (findIndex _ cs) as [j|] eqn:Hj; [|discriminate].
  destruct (cs !! j) as [c|] eqn:Hc; discriminate.
Qed.


(* ------------------------------------------------------------------ *)
(** ** Totals of a processed sale *)

Lemma round_cents_nonneg (x : Q) : (0 <= x)%Q -> (0 <= round_cents x)%Q.
Proof.
  intros Hx. unfold round_cents, Qle. cbn [Qnum Qden].
  assert (0 <= Qfloor (x * 100 + (1 # 2)))%Z; [|lia].
  change 0%Z with (Qfloor 0). apply Qfloor_resp_le. lra.
Qed.

Lemma Qfloor_half (n : Z) : Qfloor (inject_Z n + (1 # 2)) = n.
Proof.
  apply Z.le_antisymm.
  - assert (H : (Qfloor (inject_Z n + (1 # 2)) < n + 1)%Z); [|lia].
    apply Z.lt_nge. intros Hge.
    assert (Hq : (inject_Z (n + 1) <= inject_Z (Qfloor (inject_Z n + (1 # 2))))%Q).
    { rewrite <- Zle_Qle. exact Hge. }
    pose proof (Qfloor_le (inject_Z n + (1 # 2))) as Hf.
    rewrite inject_Z_plus in Hq. change (inject_Z 1) with 1%Q in Hq. lra.
  - rewrite <- (Qfloor_Z n) at 1. apply Qfloor_resp_le. lra.
Qed.

Lemma round_cents_whole (x : Q) (n : Z) :
  (x == n # 100)%Q -> (round_cents x == n # 100)%Q.
Proof.
  intros Hx. unfold round_cents.
  assert (Hq : (x * 100 + (1 # 2) == inject_Z n + (1 # 2))%Q).
  { rewrite Hx. unfold Qeq, inject_Z. simpl. lia. }
  rewrite (Qfloor_comp _ _ Hq), Qfloor_half. reflexivity.
Qed.

Lemma toFixed2_whole (x : Q) (n : Z) :
  (x == n # 100)%Q -> (toFixed2 x == x)%Q.
Proof.
  intros Hx. unfold toFixed2. destruct (Qltb x 0).
  - rewrite (round_cents_whole (- x) (- n)).
    + rewrite Hx. unfold Qeq. simpl. lia.
    + rewrite Hx. unfold Qeq. simpl. lia.
  - rewrite (round_cents_whole x n Hx). symmetry. exact Hx.
Qed.

Lemma toFixed2_nonneg (x : Q) : (0 <= x)%Q -> (0 <= toFixed2 x)%Q.
Proof.
  intros Hx. unfold toFixed2.
  destruct (Qltb x 0) eqn:E.
  - apply Qltb_lt in E. lra.
  - apply round_cents_nonneg, Hx.
Qed.

Lemma Math_min_r (x y : Q) : (Math_min x y <= y)%Q.
Proof.
  unfold Math_min. destruct (Qle_bool x y) eqn:E.
  - apply Qle_bool_iff. exact E.
  - lra.
Qed.

(** What [calculateGrandTotal] leaves on the page. *)
Lemma calculateGrandTotal_spec (cs : option Q) (w : World) :
  let s := match cs with Some s => s | None => cartSubtotalSpan w end in
  let v := effectiveDiscount (discountValueInput w) in
  let w' := calculateGrandTotal cs w in
  cartGrandtotalSpan w'
  = toFixed2 (s - Math_min (if discountTypeSelect w =? "lkr" then v
                            else s * v / 100) s)
  /\ discountValueInput w' = Some v
  /\ cartSubtotalSpan w' = cartSubtotalSpan w
  /\ discountTypeSelect w' = discountTypeSelect w
  /\ posData w' = posData w /\ objects w' = objects w
  /\ currentCart w' = currentCart w.
Proof.
  cbv zeta. unfold calculateGrandTotal, effectiveDiscount, discountOf.
  destruct (discountValueInput w) as [v|] eqn:Hv; [destruct (Qltb v 0)|];
    simpl; rewrite ?Hv; repeat split; reflexivity.
Qed.

(** The totals of a sale processed right after [calculateGrandTotal] has
    run: the discount is [min(value, subtotal)] or
    [min(subtotal*value/100, subtotal)], with a negative or unparsable
    value replaced by 0, and the sale records the displayed totals. *)
Lemma sale_totals_after_calculation (dr : Draw) (f : BillForm) (cs : option Q)
    (w0 w' : World) :
  let w := calculateGrandTotal cs w0 in
  let s := match cs with Some s => s | None => cartSubtotalSpan w0 end in
  let v := effectiveDiscount (discountValueInput w0) in
  let disc := Math_min (if discountTypeSelect w0 =? "lkr" then v
                        else s * v / 100)%Q s in
  processBill dr f w = Ok w' ->
  (0 <= v)%Q
  /\ discountValueInput w = Some v
  /\ exists sale,
       sales (posData w') = sales (posData w0) ++ [sale]
       /\ subtotal sale = cartSubtotalSpan w0
       /\ grandTotal sale = toFixed2 (s - disc)
       /\ discountAmount sale = (subtotal sale - grandTotal sale)%Q
       /\ (grandTotal sale == subtotal sale - discountAmount sale)%Q
       /\ (0 <= grandTotal sale)%Q
       /\ (discountAmount sale <= subtotal sale)%Q
       /\ ((exists n, s == n # 100)%Q -> (exists n, disc == n # 100)%Q ->
           (cartSubtotalSpan w0 == s)%Q ->
           (discountAmount sale == disc)%Q).
Proof.
  cbv zeta. intros H.
  destruct (calculateGrandTotal_spec cs w0)
    as (Hgt & Hdv & Hsub & Hty & Hpd & Hobj & Hcart).
  cbv zeta in *.
  split.
  { unfold effectiveDiscount. destruct (discountValueInput w0) as [v|]; [|lra].
    destruct (Qltb v 0) eqn:E; [lra|]. apply Qltb_ge in E. exact E. }
  split; [exact Hdv|].
  processBill_inv H. subst w'. rewrite posData_resetBillingForm. simpl.
  rewrite Hpd, Hsub, Hgt.
  eexists. split; [reflexivity|]. simpl.
  set (s := match cs with Some s => s | None => cartSubtotalSpan w0 end) in *.
  set (disc := Math_min _ s) in *.
  assert (Hd : (disc <= s)%Q) by apply Math_min_r.
  assert (Hnn : (0 <= toFixed2 (s - disc))%Q) by (apply toFixed2_nonneg; lra).
  repeat match goal with |- _ /\ _ => split end; try reflexivity.
  - lra.
  - exact Hnn.
  - lra.
  - intros [ns Hns] [nd Hnd] Hs.
    rewrite (toFixed2_whole (s - disc) (ns - nd)).
    + rewrite Hs. lra.
    + rewrite Hns, Hnd. unfold Qeq. simpl. lia.
Qed.

(* ------------------------------------------------------------------ *)
(** ** The stock loops *)

Lemma findLoc_ext {A : Type} (p : A -> bool) (h h' : list A) (ls : list loc) :
  (forall l, p <$> h' !! l = p <$> h !! l) ->
  findLoc p h' ls = findLoc p h ls.
Proof.
  intros He. induction ls as [|l ls IH]; [reflexivity|]. simpl.
  specialize (He l).
  destruct (h' !! l) as [o'|]; destruct (h !! l) as [o|]; simpl in He;
    try discriminate He; [|exact IH].
  injection He as ->. rewrite IH. reflexivity.
Qed.

Lemma findLoc_Some {A : Type} (p : A -> bool) (h : list A) (ls : list loc)
    (l : loc) :
  findLoc p h ls = Some l ->
  l ∈ ls /\ exists o, h !! l = Some o /\ p o = true.
Proof.
  induction ls as [|a ls IH]; simpl; [discriminate|].
  destruct (h !! a) as [o|] eqn:Ha.
  - destruct (p o) eqn:Hp.
    + intros [= <-]. split; [left|eauto].
    + intros H. destruct (IH H) as [Hin Ho]. split; [right; exact Hin|exact Ho].
  - intros H. destruct (IH H) as [Hin Ho]. split; [right; exact Hin|exact Ho].
Qed.

Lemma findLoc_None {A : Type} (p : A -> bool) (h : list A) (ls : list loc) :
  findLoc p h ls = None ->
  forall l o, l ∈ ls -> h !! l = Some o -> p o = false.
Proof.
  induction ls as [|a ls IH]; intros H l o Hl Ho.
  - inversion Hl.
  - simpl in H. apply elem_of_cons in Hl as [->|Hl].
    + rewrite Ho in H. destruct (p o); [discriminate|reflexivity].
    + destruct (h !! a) as [oa|]; [destruct (p oa); [discriminate|]|];
        eapply IH; eauto.
Qed.

Section StockLoop.
Context {X : Type} (op : Stock -> X -> Stock) (inv : list loc).

(** A round of the loop rewrites one [stock] field and nothing else. *)
Lemma bump_lookup (h : list Item) (r : string * X) (l : loc) :
  exists f : Stock -> Stock,
    bump op inv h r !! l = (fun o => set_stock (f (stock o)) o) <$> h !! l.
Proof.
  unfold bump. destruct (findLoc _ h inv) as [li|].
  - destruct (decide (li = l)) as [->|Hne].
    + exists (fun s => op s (snd r)). apply list_lookup_alter_eq.
    + exists (fun s => s). rewrite list_lookup_alter_ne by exact Hne.
      destruct (h !! l) as [[]|]; reflexivity.
  - exists (fun s => s). destruct (h !! l) as [[]|]; reflexivity.
Qed.

Lemma bump_keeps (h : list Item) (r : string * X) {B : Type}
    (view : Item -> B) (l : loc) :
  (forall s o, view (set_stock s o) = view o) ->
  view <$> bump op inv h r !! l = view <$> h !! l.
Proof.
  intros Hv. destruct (bump_lookup h r l) as [f ->].
  destruct (h !! l) as [o|]; simpl; [rewrite Hv|]; reflexivity.
Qed.

Lemma bump_findLoc (h : list Item) (r : string * X) (k : string) :
  findLoc (fun i => item_id i =? k) (bump op inv h r) inv
  = findLoc (fun i => item_id i =? k) h inv.
Proof.
  apply findLoc_ext. intros l.
  apply (bump_keeps h r (fun i => item_id i =? k)). reflexivity.
Qed.

Lemma bump_other (h : list Item) (r : string * X) (l : loc) :
  findLoc (fun i => item_id i =? fst r) h inv <> Some l ->
  bump op inv h r !! l = h !! l.
Proof.
  intros Hne. unfold bump. destruct (findLoc _ h inv) as [li|]; [|reflexivity].
  apply list_lookup_alter_ne. congruence.
Qed.


(** An object that no request is aimed at is left alone. *)
Lemma bumpAll_other (reqs : list (string * X)) (h : list Item) (l : loc) :
  (forall r, r ∈ reqs ->
             findLoc (fun i => item_id i =? fst r) h inv <> Some l) ->
  bumpAll op inv h reqs !! l = h !! l.
Proof.
  unfold bumpAll. revert h.
  induction reqs as [|r reqs IH]; intros h Hn; [reflexivity|].
  simpl. rewrite IH.
  - apply bump_other. apply Hn. left.
  - intros r' Hr'. rewrite bump_findLoc. apply Hn. right. exact Hr'.
Qed.


Lemma bumpAll_keeps (reqs : list (string * X)) (h : list Item) {B : Type}
    (view : Item -> B) (l : loc) :
  (forall s o, view (set_stock s o) = view o) ->
  view <$> bumpAll op inv h reqs !! l = view <$> h !! l.
Proof.
  intros Hv. unfold bumpAll. revert h.
  induction reqs as [|r reqs IH]; intros h; [reflexivity|].
  simpl. rewrite IH. apply bump_keeps. exact Hv.
Qed.

Lemma bumpAll_length (reqs : list (string * X)) (h : list Item) :
  length (bumpAll op inv h reqs) = length h.
Proof.
  unfold bumpAll. revert h.
  induction reqs as [|r reqs IH]; intros h; [reflexivity|].
  simpl. rewrite IH. unfold bump.
  destruct (findLoc _ h inv); [apply length_alter|reflexivity].
Qed.
End StockLoop.

Lemma sellLine_bump (inv : list loc) (h : list Item) (lc : loc) :
  sellLine inv h lc
  = match h !! lc with
    | Some line => bump stock_sub inv h (item_id line, qty line)
    | None => h
    end.
Proof. unfold sellLine, bump. destruct (h !! lc); reflexivity. Qed.

Lemma cartRequests_ext (h h' : list Item) (cart : list loc) :
  (forall l, (fun line => (item_id line, qty line)) <$> h' !! l
             = (fun line => (item_id line, qty line)) <$> h !! l) ->
  cartRequests h' cart = cartRequests h cart.
Proof.
  intros He. unfold cartRequests.
  induction cart as [|l cart IH]; [reflexivity|].
  cbn [omap list_omap]. rewrite He.
  destruct (_ <$> h !! l); [f_equal|]; exact IH.
Qed.

Lemma cartRequests_bump (inv : list loc) (h : list Item)
    (r : string * option Z) (cart : list loc) :
  cartRequests (bump stock_sub inv h r) cart = cartRequests h cart.
Proof.
  apply cartRequests_ext. intros l.
  apply (bump_keeps stock_sub inv h r (fun line => (item_id line, qty line)) l).
  reflexivity.
Qed.

Lemma sellAll_bumpAll (inv : list loc) (cart : list loc) (h : list Item) :
  sellAll inv h cart = bumpAll stock_sub inv h (cartRequests h cart).
Proof.
  unfold sellAll, bumpAll. revert h.
  induction cart as [|l cart IH]; intros h; [reflexivity|].
  cbn [fold_left]. rewrite sellLine_bump, IH.
  unfold cartRequests at 2. cbn [omap list_omap].
  destruct (h !! l) as [line|] eqn:Hl; cbn [fmap option_fmap option_map fold_left].
  - rewrite cartRequests_bump. reflexivity.
  - reflexivity.
Qed.

Lemma receiveAll_bumpAll (inv : list loc) (g : list GrnLine)
    (lines : list loc) (h : list Item) :
  receiveAll inv g h lines = bumpAll stock_add inv h (grnRequests g lines).
Proof.
  unfold receiveAll, bumpAll, grnRequests. revert h.
  induction lines as [|l lines IH]; intros h; [reflexivity|].
  cbn [fold_left omap list_omap]. rewrite IH. unfold receiveLine.
  destruct (g !! l) as [line|]; reflexivity.
Qed.

(* ------------------------------------------------------------------ *)
(** ** Stock at the cart and at the sale *)





Lemma objects_processBill (dr : Draw) (f : BillForm) (w w' : World) :
  processBill dr f w = Ok w' ->
  objects w'
  = sellAll (inventory (posData w))
            (fst (deepCopy jsonItem (objects w) (currentCart w)))
            (currentCart w)
  /\ inventory (posData w') = inventory (posData w).
Proof.
  intros H. processBill_inv H. subst w'.
  rewrite objects_resetBillingForm, posData_resetBillingForm. simpl.
  split; reflexivity.
Qed.


(* ------------------------------------------------------------------ *)
(** ** Stock receipts *)

(** The objects a deep copy creates, when every reference is valid. *)
Lemma copies_valid {A : Type} (json : A -> A) (h : list A) (ls : list loc) :
  Forall (fun l => (l < length h)%nat) ls ->
  length (omap (fun l => json <$> h !! l) ls) = length ls
  /\ forall i l, ls !! i = Some l ->
                 omap (fun l => json <$> h !! l) ls !! i = json <$> h !! l.
Proof.
  intros Hv. induction Hv as [|a ls Ha Hv [IHlen IHget]].
  - split; [reflexivity|]. intros i l H. destruct i; discriminate.
  - cbn [omap list_omap].
    destruct (lookup_lt_is_Some_2 h a Ha) as [o Ho]. rewrite Ho. simpl.
    split; [rewrite IHlen; reflexivity|].
    intros [|i] l Hl; simpl in Hl.
    + injection Hl as <-. rewrite Ho. reflexivity.
    + simpl. apply IHget. exact Hl.
Qed.






(* ------------------------------------------------------------------ *)
(** ** Recorded sales are snapshots *)

(** A step that allocates at most, drops references at most and leaves the
    sales alone keeps the invariant. *)
Lemma wf_shrink (w w' : World) :
  (length (objects w) <= length (objects w'))%nat ->
  inventory (posData w') ⊆ inventory (posData w) ->
  editLoc w' ⊆ editLoc w ->
  sales (posData w') = sales (posData w) ->
  wf w -> wf w'.
Proof.
  intros Hlen Hinv Hed Hsales [Hvalid Hsep].
  assert (Hsl : saleLines w' = saleLines w) by (unfold saleLines; rewrite Hsales; reflexivity).
  rewrite !Forall_app in Hvalid. destruct Hvalid as (Hv1 & Hv2 & Hv3).
  rewrite Forall_forall in Hv1, Hv2, Hv3.
  split.
  - rewrite !Forall_app, !Forall_forall, Hsl.
    repeat split; intros l Hl.
    + apply Hinv, Hv1 in Hl. lia.
    + apply Hed, Hv2 in Hl. lia.
    + apply Hv3 in Hl. lia.
  - rewrite Hsl. intros l Hl. destruct (Hsep l Hl) as [H1 H2].
    split; intros Hin; [apply H1, Hinv, Hin|apply H2, Hed, Hin].
Qed.

Lemma calculateGrandTotal_frame (cs : option Q) (w : World) :
  objects (calculateGrandTotal cs w) = objects w
  /\ posData (calculateGrandTotal cs w) = posData w
  /\ editing (calculateGrandTotal cs w) = editing w
  /\ currentCart (calculateGrandTotal cs w) = currentCart w.
Proof.
  unfold calculateGrandTotal.
  destruct (discountValueInput w) as [v|]; [destruct (Qltb v 0)|];
    repeat split; reflexivity.
Qed.

Lemma renderCart_frame (w : World) :
  objects (renderCart w) = objects w
  /\ posData (renderCart w) = posData w
  /\ editing (renderCart w) = editing w
  /\ currentCart (renderCart w) = currentCart w.
Proof.
  unfold renderCart.
  destruct (calculateGrandTotal_frame
              (Some (cartSubtotal (objects w) (currentCart w)))
              (set_cartSubtotalSpan
                 (toFixed2 (cartSubtotal (objects w) (currentCart w))) w))
    as (-> & -> & -> & ->).
  repeat split; reflexivity.
Qed.

Lemma editLoc_eq (w w' : World) : editing w' = editing w -> editLoc w' = editLoc w.
Proof. unfold editLoc. intros ->. reflexivity. Qed.

Ltac frame_by F :=
  destruct F as (?Ho & ?Hp & ?He & ?Hc);
  apply wf_shrink;
  [rewrite ?Ho; simpl; rewrite ?length_alter, ?length_app; simpl; lia
  |rewrite ?Hp; simpl; reflexivity
  |unfold editLoc; rewrite ?He; simpl; reflexivity
  |rewrite ?Hp; simpl; reflexivity].

Lemma wf_addItemToCart (item : Item) (q : Z) (w : World) :
  wf w -> wf (after (addItemToCart item q w) w).
Proof.
  intros Hwf. unfold addItemToCart.
  destruct (findLoc _ (objects w) (currentCart w)) as [existing|].
  - destruct (overStock _ _); [exact Hwf|]. simpl.
    revert Hwf. frame_by (renderCart_frame (set_objects (alter (set_qty
      match objects w !! existing with
      | Some line => (fun q0 => (q0 + q)%Z) <$> qty line
      | None => None
      end) existing (objects w)) w)).
  - destruct (overStock _ _); [exact Hwf|]. simpl.
    revert Hwf. frame_by (renderCart_frame
      (set_currentCart (currentCart w ++ [length (objects w)])
         (set_objects (objects w ++ [lineOf item q]) w))).
Qed.

Lemma wf_addItemByBarcode (c : string) (w : World) :
  wf w -> wf (after (addItemByBarcode c w) w).
Proof.
  intros Hwf. unfold addItemByBarcode.
  destruct (trim c =? ""); [exact Hwf|].
  destruct (inventoryItemByCode (trim c) w); [|exact Hwf].
  apply wf_addItemToCart, Hwf.
Qed.

Lemma wf_addManualItem (tempId c n : string) (p : option Q) (q : option Z)
    (w : World) :
  wf w -> wf (after (addManualItem tempId c n p q w) w).
Proof.
  intros Hwf. unfold addManualItem.
  destruct p as [p|]; [|exact Hwf]. destruct q as [q|]; [|exact Hwf].
  destruct (_ || _); [exact Hwf|].
  destruct (inventoryItemByCode (trim c) w) as [it|].
  - destruct (exceeds q (stock it)); [exact Hwf|]. apply wf_addItemToCart, Hwf.
  - apply wf_addItemToCart, Hwf.
Qed.

Lemma wf_removeCartItem (id : string) (w : World) :
  wf w -> wf (removeCartItem id w).
Proof.
  unfold removeCartItem.
  frame_by (renderCart_frame
    (set_currentCart
       (filter (fun l => holdsAt (fun i => negb (item_id i =? id)) (objects w) l)
               (currentCart w)) w)).
Qed.

Lemma wf_onDiscountValueInput (v : option Q) (w : World) :
  wf w -> wf (onDiscountValueInput v w).
Proof.
  unfold onDiscountValueInput.
  frame_by (calculateGrandTotal_frame None (set_discountValueInput v w)).
Qed.

Lemma wf_onDiscountTypeChange (ty : string) (w : World) :
  wf w -> wf (onDiscountTypeChange ty w).
Proof.
  unfold onDiscountTypeChange.
  frame_by (calculateGrandTotal_frame None (set_discountTypeSelect ty w)).
Qed.

Lemma wf_editSubmit (f : ItemForm) (w : World) :
  wf w -> wf (after (editSubmit f w) w).
Proof.
  intros Hwf. unfold editSubmit.
  destruct (editing w) as [[item id]|]; [|exact Hwf].
  destruct (validNumbers f) as [[[p s] t]|]; [|exact Hwf].
  destruct (_ && _); [exact Hwf|]. simpl. revert Hwf.
  apply wf_shrink; simpl.
  - rewrite length_alter. lia.
  - reflexivity.
  - unfold editLoc. simpl. apply list_subseteq_nil.
  - reflexivity.
Qed.

Lemma wf_deleteInventoryItem (id : string) (w : World) :
  wf w -> wf (deleteInventoryItem id w).
Proof.
  unfold deleteInventoryItem. apply wf_shrink; simpl.
  - lia.
  - intros l Hl. apply list_elem_of_filter in Hl. apply Hl.
  - reflexivity.
  - reflexivity.
Qed.

Lemma wf_addGrnItem (c : string) (q : option Z) (w : World) :
  wf w -> wf (after (addGrnItem c q w) w).
Proof.
  intros Hwf. unfold addGrnItem.
  destruct q as [q|]; [|exact Hwf].
  destruct (_ || _); [exact Hwf|].
  destruct (inventoryItemByCode (trim c) w) as [it|]; [|exact Hwf].
  destruct (findLoc _ (grnObjects w) (currentGrnItems w)); simpl;
    revert Hwf; apply wf_shrink; simpl; auto; reflexivity.
Qed.

Lemma receiveAll_length (inv : list loc) (g : list GrnLine) (h : list Item)
    (ls : list loc) :
  length (receiveAll inv g h ls) = length h.
Proof. rewrite receiveAll_bumpAll. apply bumpAll_length. Qed.

Lemma sellAll_length (inv : list loc) (h : list Item) (cart : list loc) :
  length (sellAll inv h cart) = length h.
Proof. rewrite sellAll_bumpAll. apply bumpAll_length. Qed.

Lemma wf_createGrn (stamp s d : string) (w : World) :
  wf w -> wf (after (createGrn stamp s d w) w).
Proof.
  intros Hwf. unfold createGrn.
  destruct (currentGrnItems w); [exact Hwf|].
  destruct (_ || _); [exact Hwf|]. simpl. revert Hwf.
  apply wf_shrink; simpl.
  - rewrite receiveAll_length. lia.
  - reflexivity.
  - reflexivity.
  - reflexivity.
Qed.

(** The handlers of the document alone leave inventory and sales alone. *)
Lemma wf_onDoc (g : POSData loc loc -> POSData loc loc) (w : World) :
  (forall d, inventory (g d) = inventory d /\ sales (g d) = sales d) ->
  wf w -> wf (onDoc g w).
Proof.
  intros Hg. destruct (Hg (posData w)) as [Hi Hs].
  unfold onDoc. apply wf_shrink; simpl.
  - lia.
  - rewrite Hi. reflexivity.
  - reflexivity.
  - exact Hs.
Qed.

Lemma addInstallment_frame {R G : Type} (eid : option string)
    (today payId chqId : string) (f : InstallmentForm) (d : POSData R G) :
  let d' := after (addInstallment eid today payId chqId f d) d in
  inventory d' = inventory d /\ sales d' = sales d.
Proof.
  cbv zeta. destruct (addInstallment eid today payId chqId f d) as [d'|] eqn:H;
    [|split; reflexivity].
  destruct (addInstallment_effect d eid today payId chqId f) as [_ Hok].
  destruct (Hok d' H) as (bi & b & a & ch & _ & _ & _ & _ & Hrest).
  cbv zeta in Hrest. simpl. tauto.
Qed.

Lemma deleteCreditBill_frame {R G : Type} (id : string) (d : POSData R G) :
  inventory (deleteCreditBill id d) = inventory d
  /\ sales (deleteCreditBill id d) = sales d.
Proof.
  unfold deleteCreditBill.
  destruct (findIndex _ (creditBills d)) as [bi|]; [|split; reflexivity].
  destruct (creditBills d !! bi); split; reflexivity.
Qed.

Lemma updateChequeStatus_frame {R G : Type} (id : string) (s : ChequeStatus)
    (d : POSData R G) :
  let d' := after (updateChequeStatus id s d) d in
  inventory d' = inventory d /\ sales d' = sales d.
Proof.
  cbv zeta. unfold updateChequeStatus.
  destruct (findIndex _ (cheques d)); split; reflexivity.
Qed.

Lemma channels_frame {R G : Type} (d : POSData R G) :
  (forall newId n r a h logo,
     let d' := after (addDistributionChannel newId n r a h logo d) d in
     inventory d' = inventory d /\ sales d' = sales d)
  /\ (forall id,
        let d' := after (deleteDistributionChannel id d) d in
        inventory d' = inventory d /\ sales d' = sales d).
Proof.
  split.
  - intros newId n r a h [logo|]; split; reflexivity.
  - intros id. cbv zeta. unfold deleteDistributionChannel.
    destruct (id =? "main"); split; reflexivity.
Qed.

Lemma wf_addInventoryItem (newId : string) (f : ItemForm) (w : World) :
  wf w -> wf (after (addInventoryItem newId f w) w).
Proof.
  intros Hwf. unfold addInventoryItem.
  destruct (validNumbers f) as [[[p s] t]|]; [|exact Hwf].
  destruct (findLoc _ (objects w) (inventory (posData w))); [exact Hwf|].
  simpl. destruct Hwf as [Hvalid Hsep].
  rewrite !Forall_app in Hvalid. destruct Hvalid as (Hv1 & Hv2 & Hv3).
  rewrite Forall_forall in Hv1, Hv2, Hv3.
  split.
  - simpl. rewrite Forall_forall, length_app. simpl. intros l Hl.
    rewrite !elem_of_app in Hl. destruct Hl as [[Hl|Hl]|[Hl|Hl]].
    + apply Hv1 in Hl. lia.
    + apply list_elem_of_singleton in Hl. lia.
    + apply Hv2 in Hl. lia.
    + apply Hv3 in Hl. lia.
  - intros l Hl. destruct (Hsep l Hl) as [H1 H2]. split; [|exact H2].
    simpl. intros Hin. apply elem_of_app in Hin as [Hin|Hin]; [tauto|].
    apply list_elem_of_singleton in Hin. apply Hv3 in Hl. lia.
Qed.

Lemma wf_editInventoryItem (id : string) (w : World) :
  wf w -> wf (after (editInventoryItem id w) w).
Proof.
  intros Hwf. unfold editInventoryItem.
  destruct (findLoc _ (objects w) (inventory (posData w))) as [item|] eqn:Hf;
    [|exact Hwf].
  simpl. apply findLoc_Some in Hf as [Hin _].
  destruct Hwf as [Hvalid Hsep].
  rewrite !Forall_app in Hvalid. destruct Hvalid as (Hv1 & Hv2 & Hv3).
  split.
  - rewrite !Forall_app. repeat split; auto.
    unfold editLoc. simpl. apply Forall_singleton.
    rewrite Forall_forall in Hv1. apply Hv1, Hin.
  - intros l Hl. destruct (Hsep l Hl) as [H1 H2]. split; [exact H1|].
    unfold editLoc. simpl. intros Hx. apply list_elem_of_singleton in Hx.
    subst l. tauto.
Qed.

Lemma saleLines_snoc (w : World) (ss : list (Sale loc)) (s : Sale loc) :
  concat (sale_items (R:=loc) <$> (ss ++ [s]))
  = concat (sale_items (R:=loc) <$> ss) ++ sale_items s.
Proof. rewrite fmap_app, concat_app. simpl. rewrite app_nil_r. reflexivity. Qed.

Lemma processBill_shape (dr : Draw) (f : BillForm) (w w' : World) :
  processBill dr f w = Ok w' ->
  editing w' = editing w
  /\ exists sale,
       sales (posData w') = sales (posData w) ++ [sale]
       /\ sale_items sale
          = snd (deepCopy jsonItem (objects w) (currentCart w))
       /\ subtotal sale = cartSubtotalSpan w
       /\ grandTotal sale = cartGrandtotalSpan w.
Proof.
  intros H. processBill_inv H. subst w'.
  rewrite posData_resetBillingForm. split.
  - unfold resetBillingForm, renderCart, calculateGrandTotal. simpl.
    destruct (discountValueInput w) as [v|]; [destruct (Qltb v 0)|]; reflexivity.
  - simpl. eexists. split; [reflexivity|]. simpl. repeat split; reflexivity.
Qed.

Lemma wf_processBill (dr : Draw) (f : BillForm) (w : World) :
  wf w -> wf (after (processBill dr f w) w).
Proof.
  intros Hwf. destruct (processBill dr f w) as [w'|] eqn:H; [|exact Hwf].
  simpl.
  destruct (objects_processBill dr f w w' H) as [Hobj Hinv].
  destruct (processBill_shape dr f w w' H) as (Hed & sale & Hsales & Hitems & _).
  destruct Hwf as [Hvalid Hsep].
  rewrite !Forall_app in Hvalid. destruct Hvalid as (Hv1 & Hv2 & Hv3).
  rewrite Forall_forall in Hv1, Hv2, Hv3.
  unfold deepCopy in Hobj, Hitems. cbn [fst snd] in Hobj, Hitems.
  unfold wf, saleLines, editLoc.
  rewrite Hobj, Hinv, Hed, Hsales, saleLines_snoc, Hitems by exact w.
  rewrite sellAll_length, length_app.
  fold (editLoc w). fold (saleLines w).
  set (k := length (omap (fun l => jsonItem <$> objects w !! l) (currentCart w))).
  split.
  - rewrite Forall_forall. intros x Hx.
    rewrite !elem_of_app in Hx. destruct Hx as [Hx|[Hx|[Hx|Hx]]].
    + apply Hv1 in Hx. lia.
    + apply Hv2 in Hx. lia.
    + apply Hv3 in Hx. lia.
    + apply elem_of_seq in Hx. lia.
  - intros x Hx. apply elem_of_app in Hx as [Hx|Hx].
    + apply Hsep, Hx.
    + apply elem_of_seq in Hx. split; intros Hin.
      * apply Hv1 in Hin. lia.
      * apply Hv2 in Hin. lia.
Qed.

Lemma internSale_fold (ss : list (Sale Item)) (h : list Item)
    (out : list (Sale loc)) :
  let r := fold_left internSale ss (h, out) in
  let lines := concat (sale_items (R:=Item) <$> ss) in
  fst r = h ++ lines
  /\ concat (sale_items (R:=loc) <$> snd r)
     = concat (sale_items (R:=loc) <$> out) ++ seq (length h) (length lines).
Proof.
  cbv zeta. revert h out. induction ss as [|s ss IH]; intros h out.
  - simpl. rewrite !app_nil_r. split; reflexivity.
  - cbn [fold_left]. unfold internSale at 2 4. cbn [fst snd].
    destruct (IH (h ++ sale_items s)
                 (out ++ [mkSale (sale_id s) (sale_date s) (sale_time s)
                            (sale_customer s) (channelId s)
                            (seq (length h) (length (sale_items s)))
                            (subtotal s) (discountType s) (discountValue s)
                            (discountAmount s) (grandTotal s) (paymentMethod s)
                            (paymentRef s) (sale_chequeDetails s)]))
      as [IH1 IH2].
    rewrite IH1, IH2. rewrite fmap_cons. cbn [concat].
    split; [rewrite app_assoc; reflexivity|].
    rewrite fmap_app, concat_app. simpl. rewrite app_nil_r.
    rewrite !length_app, seq_app, <- app_assoc. reflexivity.
Qed.

Lemma wf_boot (data : option RawDoc) : wf (boot data).
Proof.
  unfold boot, wf, saleLines, editLoc. cbn [objects posData inventory sales editing].
  destruct (internSale_fold (sales (loadPOSData data))
                            (inventory (loadPOSData data)) []) as [H1 H2].
  cbv zeta in H1, H2. rewrite H1, H2. cbn [fmap list_fmap concat app].
  set (inv := inventory (loadPOSData data)).
  set (lines := concat _).
  split.
  - rewrite Forall_forall. intros x Hx. rewrite length_app.
    apply elem_of_app in Hx as [Hx|Hx]; apply elem_of_seq in Hx; lia.
  - intros x Hx. simpl in Hx. apply elem_of_seq in Hx. split; intros Hin.
    + apply elem_of_seq in Hin. lia.
    + inversion Hin.
Qed.

Lemma editing_resetBillingForm (w : World) :
  editing (resetBillingForm w) = editing w.
Proof.
  unfold resetBillingForm.
  cbn [editing set_discountValueInput set_discountTypeSelect].
  destruct (renderCart_frame (set_currentCart [] w)) as (_ & _ & -> & _).
  reflexivity.
Qed.

Lemma wf_showSection (sectionId : string) (w : World) :
  wf w -> wf (showSection sectionId w).
Proof.
  intros Hwf. unfold showSection.
  destruct (sectionId =? "billing-section").
  - revert Hwf. apply wf_shrink.
    + rewrite objects_resetBillingForm. lia.
    + rewrite posData_resetBillingForm. reflexivity.
    + rewrite (editLoc_eq _ _ (editing_resetBillingForm w)). reflexivity.
    + rewrite posData_resetBillingForm. reflexivity.
  - destruct (sectionId =? "grn-section"); [|exact Hwf].
    revert Hwf. apply wf_shrink; simpl; reflexivity || lia.
Qed.

(** Case analysis on an event, its arguments named as in [Event]. *)
Ltac event_cases e :=
  destruct e as
    [newId f|id|f|id|barcodeInput
    |tempId codeInput nameInput priceInput qtyInput|itemId|v|ty|dr f
    |codeInput qtyInput|stamp supplierInput grnDateInput
    |eid tday payId chqId f|id|id newStatus
    |newId cname cregNo caddress chotline logo|id|sectionId];
  cbn [handle].

Lemma wf_handle (w : World) (e : Event) : wf w -> wf (handle w e).
Proof.
  intros Hwf.
  event_cases e.
  - apply wf_addInventoryItem, Hwf.
  - apply wf_editInventoryItem, Hwf.
  - apply wf_editSubmit, Hwf.
  - apply wf_deleteInventoryItem, Hwf.
  - apply wf_addItemByBarcode, Hwf.
  - apply wf_addManualItem, Hwf.
  - apply wf_removeCartItem, Hwf.
  - apply wf_onDiscountValueInput, Hwf.
  - apply wf_onDiscountTypeChange, Hwf.
  - apply wf_processBill, Hwf.
  - apply wf_addGrnItem, Hwf.
  - apply wf_createGrn, Hwf.
  - apply wf_onDoc; [|exact Hwf]. intros d. apply addInstallment_frame.
  - apply wf_onDoc; [|exact Hwf]. intros d. apply deleteCreditBill_frame.
  - apply wf_onDoc; [|exact Hwf]. intros d. apply updateChequeStatus_frame.
  - apply wf_onDoc; [|exact Hwf]. intros d. apply channels_frame.
  - apply wf_onDoc; [|exact Hwf]. intros d. apply channels_frame.
  - apply wf_showSection, Hwf.
Qed.

(** Every page a run leads to satisfies the store invariant. *)
Lemma wf_run (data : option RawDoc) (es : list Event) : wf (run data es).
Proof.
  unfold run. generalize (wf_boot data). generalize (boot data).
  induction es as [|e es IH]; intros w Hwf; [exact Hwf|].
  simpl. apply IH, wf_handle, Hwf.
Qed.

(** The items of a new sale are new objects holding what a JSON round
    trip keeps of the cart lines. *)
Lemma processBill_snapshot (dr : Draw) (f : BillForm) (w w' : World) :
  processBill dr f w = Ok w' ->
  validLocs w ->
  exists sale,
    sales (posData w') = sales (posData w) ++ [sale]
    /\ sale_items sale = seq (length (objects w)) (length (currentCart w))
    /\ forall i lc,
         currentCart w !! i = Some lc ->
         objects w' !! (length (objects w) + i)%nat
         = jsonItem <$> objects w !! lc.
Proof.
  intros H Hvalid. apply Forall_app in Hvalid as [Hvi Hvc].
  destruct (objects_processBill dr f w w' H) as [Hobj _].
  destruct (processBill_shape dr f w w' H) as (_ & sale & Hsales & Hitems & _).
  destruct (copies_valid jsonItem (objects w) (currentCart w) Hvc)
    as [Hlen Hget].
  unfold deepCopy in Hobj, Hitems. cbn [fst snd] in Hobj, Hitems.
  exists sale. split; [exact Hsales|]. split; [rewrite Hitems, Hlen; reflexivity|].
  intros i lc Hi. rewrite Hobj, sellAll_bumpAll, bumpAll_other.
  - rewrite lookup_app_r by lia.
    replace (length (objects w) + i - length (objects w))%nat with i by lia.
    apply Hget, Hi.
  - intros r Hr Hf. apply findLoc_Some in Hf as [Hin _].
    rewrite Forall_forall in Hvi. apply Hvi in Hin. lia.
Qed.

(** C9: on every page a run leads to, submitting the inventory edit form
    (whatever fields it changes, price included) and deleting an inventory
    item leave the sales collection as it is, totals included, and leave
    every line object of every recorded sale as it is. *)
Theorem recorded_sales_keep_their_snapshot (data : option RawDoc)
    (es : list Event) (f : ItemForm) (id : string) :
  let w := run data es in
  let edited := after (editSubmit f w) w in
  let deleted := deleteInventoryItem id w in
  sales (posData edited) = sales (posData w)
  /\ (forall l, l ∈ saleLines w -> objects edited !! l = objects w !! l)
  /\ sales (posData deleted) = sales (posData w)
  /\ (forall l, l ∈ saleLines w -> objects deleted !! l = objects w !! l).
Proof.
  cbv zeta. set (w := run data es).
  assert (Hwf : wf w) by apply wf_run. destruct Hwf as [_ Hsep].
  assert (He : sales (posData (after (editSubmit f w) w)) = sales (posData w)
               /\ forall l, l ∈ saleLines w ->
                            objects (after (editSubmit f w) w) !! l
                            = objects w !! l).
  { unfold editSubmit. destruct (editing w) as [[item id']|] eqn:Hed;
      [|split; reflexivity].
    destruct (validNumbers f) as [[[p s] t]|]; [|split; reflexivity].
    destruct (_ && _); [split; reflexivity|]. simpl.
    split; [reflexivity|]. intros l Hl.
    apply list_lookup_alter_ne. intros ->.
    destruct (Hsep l Hl) as [_ Hn]. apply Hn.
    unfold editLoc. rewrite Hed. left. }
  destruct He as [He1 He2].
  repeat split; auto.
Qed.

(* ------------------------------------------------------------------ *)
(** ** Cart and pending GRN stay in order *)


Lemma sameIds_trans (h1 h2 h3 : list Item) :
  sameIds h1 h2 -> sameIds h2 h3 -> sameIds h1 h3.
Proof.
  intros [L1 E1] [L2 E2]. split; [lia|].
  intros l Hl. rewrite E2 by lia. apply E1, Hl.
Qed.










Lemma resetBillingForm_frame (w : World) :
  objects (resetBillingForm w) = objects w
  /\ posData (resetBillingForm w) = posData w
  /\ currentCart (resetBillingForm w) = []
  /\ grnObjects (resetBillingForm w) = grnObjects w
  /\ currentGrnItems (resetBillingForm w) = currentGrnItems w.
Proof.
  unfold resetBillingForm, renderCart, calculateGrandTotal. simpl.
  destruct (discountValueInput w) as [v|]; [destruct (Qltb v 0)|];
    repeat split; reflexivity.
Qed.

(** ** The cart side *)









(** ** The GRN side *)









(* ------------------------------------------------------------------ *)
(** ** The totals on the page *)

















(* ------------------------------------------------------------------ *)
(** ** Stock over the runs *)



(* ------------------------------------------------------------------ *)
(** ** Worked runs on the sample document *)

(** Splits a conjunction of closed facts and evaluates each. *)
Ltac evaluate :=
  repeat match goal with |- _ /\ _ => split end; vm_compute; reflexivity.

Lemma updateChequeStatus_unconstrained_witness :
  let d := posData sampleWorld in
  let c := mkCheque "q-2" "BILL-2" "000222" "HNB" 300 "2025-04-01" Claimed in
  c ∈ cheques d
  /\ exists d', updateChequeStatus "q-2" Pending d = Ok d'
                /\ (status <$> cheques d' !! 1%nat) = Some Pending
                /\ updateChequeStatus "q-2" Pending d' = Ok d'.
Proof.
  cbv zeta.
  assert (Hin : mkCheque "q-2" "BILL-2" "000222" "HNB" 300 "2025-04-01" Claimed
                ∈ cheques (posData sampleWorld)).
  { apply list_elem_of_lookup_2 with 1%nat. reflexivity. }
  split; [exact Hin|].
  destruct (updateChequeStatus_unconstrained (posData sampleWorld) _ Pending Hin)
    as (i & c0 & d' & Hc0 & Hid & Hsame & Hrun & Hchq & Hagain & _).
  exists d'. split; [exact Hrun|]. split; [|exact Hagain].
  vm_compute in Hrun. injection Hrun as <-. reflexivity.
Defined.

(** Scenario D of the specification: deleting the credit bill with 150 due
    takes the customer from 800 to 650 and removes the bill. *)
Lemma deleteCreditBill_effect_witness :
  let d := posData sampleWorld in
  let b := mkCreditBill "cb-1" "BILL-1700000000000" "c-1" 500 350 150
                        "2025-01-01" "" [] in
  creditBills d !! 0%nat = Some b
  /\ NoDup (cb_id <$> creditBills d)
  /\ creditBills (deleteCreditBill "cb-1" d) = []
  /\ sales (deleteCreditBill "cb-1" d) = sales d
  /\ payments (deleteCreditBill "cb-1" d) = payments d
  /\ (outstandingCredit <$> customers (deleteCreditBill "cb-1" d) !! 0%nat)
     = Some (800 - 150)%Q.
Proof.
  cbv zeta.
  assert (Hb : creditBills (posData sampleWorld) !! 0%nat
               = Some (mkCreditBill "cb-1" "BILL-1700000000000" "c-1" 500 350
                                    150 "2025-01-01" "" [])) by reflexivity.
  assert (Hnd : NoDup (cb_id <$> creditBills (posData sampleWorld))).
  { vm_compute. apply NoDup_cons. split; [|apply NoDup_nil_2].
    intros H. inversion H. }
  split; [exact Hb|]. split; [exact Hnd|].
  destruct (deleteCreditBill_effect (posData sampleWorld) 0 _ Hb Hnd)
    as (Hbills & Hsales & Hpays & _).
  split; [exact Hbills|]. split; [exact Hsales|]. split; [exact Hpays|].
  reflexivity.
Defined.

(** Scenario C of the specification: bill of 500 with 500 due, installment
    of 200; paid becomes 200, due 300, and the customer owes 200 less. *)
Example installment_scenario :
  let d := set_creditBills
             [mkCreditBill "cb-9" "BILL-9" "c-1" 500 0 500 "2025-01-01" "" []]
             (posData sampleWorld) in
  exists d',
    addInstallment (Some "cb-9") "2025-02-01" uuid1 uuid2 (cashInstallment 200) d
    = Ok d'
    /\ (paidAmount <$> creditBills d' !! 0%nat) = Some (0 + 200)%Q
    /\ (dueAmount <$> creditBills d' !! 0%nat) = Some (500 - 200)%Q
    /\ (outstandingCredit <$> customers d' !! 0%nat) = Some (800 - 200)%Q
    /\ (pay_billId <$> payments d' !! 0%nat) = Some "BILL-9".
Proof.
  cbv zeta. eexists. split; [vm_compute; reflexivity|]. evaluate.
Qed.

(** Scenario B of the specification: limit 1000, outstanding 800, a credit
    sale of 290 is refused. *)
Example credit_limit_scenario :
  cartGrandtotalSpan sampleCart = (29000 # 100)%Q
  /\ processBill sampleDraw (billForm "registered" "c-1" "credit") sampleCart
     = Err "Credit limit exceeded.".
Proof. evaluate. Qed.



(** The cart outlives the edit only as long as the billing section is not
    shown anew: [showSection] empties it, and the bill is then refused for
    its empty cart. *)
Example billing_shown_anew_empties_cart :
  let form := mkItemForm "SKU1" "Soap" "" (Some 100%Q) (Some 2%Z) (Some 0%Z) in
  let w := run (Some sampleDoc)
               [ShowSection "billing-section";
                AddManualItem uuid1 "SKU1" "Soap" (Some 100%Q) (Some 3%Z);
                ShowSection "inventory-section";
                EditInventoryItem "i-1";
                AddInventoryItem uuid2 form;
                SubmitEdit form;
                ShowSection "billing-section"] in
  currentCart w = []
  /\ processBill sampleDraw (billForm "walking" "" "cash") w
     = Err "Cart is empty. Please add items to proceed.".
Proof. cbv zeta. evaluate. Qed.




(** Scenario E of the specification: 10 percent on a subtotal of 250. *)
Example percentage_scenario :
  let w := calculateGrandTotal (Some 250%Q)
             (set_discountValueInput (Some 10%Q)
                (set_discountTypeSelect "percentage" sampleWorld)) in
  (cartGrandtotalSpan w == 225)%Q
  /\ (discountOf "percentage" 250 10 == 25)%Q.
Proof. cbv zeta. evaluate. Qed.



(** A sale of 3 units at 100, then the price is edited to 250 and the item
    deleted: the sale and its line still show 3 units at 100. *)
Example snapshot_run :
  let sold := run (Some sampleDoc)
                  [AddManualItem uuid1 "SKU1" "Soap" (Some 100%Q) (Some 3%Z);
                   ProcessBill sampleDraw (billForm "walking" "" "cash")] in
  let later := run (Some sampleDoc)
                   [AddManualItem uuid1 "SKU1" "Soap" (Some 100%Q) (Some 3%Z);
                    ProcessBill sampleDraw (billForm "walking" "" "cash");
                    EditInventoryItem "i-1";
                    SubmitEdit (mkItemForm "SKU1" "Soap" "" (Some 250%Q)
                                           (Some 7%Z) (Some 0%Z));
                    DeleteInventoryItem "i-1"] in
  saleLines sold = [2%nat]
  /\ (price <$> inventoryItemById "i-1" sold) = Some 100%Q
  /\ inventory (posData later) = []
  /\ (price <$> objects later !! 0%nat) = Some 250%Q
  /\ sales (posData later) = sales (posData sold)
  /\ objects later !! 2%nat = objects sold !! 2%nat
  /\ objects later !! 2%nat
     = Some (mkItem "i-1" "SKU1" "Soap" "" 100 (Fin 10) (Some 0%Z) (Some 3%Z)).
Proof. cbv zeta. evaluate. Qed.

(* ================================================================== *)
(** * Further properties *)

(* ================================================================== *)
(** * Further properties *)

(** ** What the page handlers do to the ledger *)

(** The handlers of the cart, the inventory, the GRNs and the channels
    leave customers, credit bills, payments, cheques and sales alone. *)
Lemma handle_ledger_frame (w : World) (e : Event) :
  match e with
  | ProcessBill _ _ | AddInstallment _ _ _ _ _ | DeleteCreditBill _
  | UpdateChequeStatus _ _ => True
  | _ =>
      customers (posData (handle w e)) = customers (posData w)
      /\ creditBills (posData (handle w e)) = creditBills (posData w)
      /\ payments (posData (handle w e)) = payments (posData w)
      /\ cheques (posData (handle w e)) = cheques (posData w)
      /\ sales (posData (handle w e)) = sales (posData w)
  end.
Proof.
  assert (Hadd : forall item q,
            posData (after (addItemToCart item q w) w) = posData w).
  { intros item q. unfold addItemToCart.
    destruct (findLoc _ (objects w) (currentCart w));
      (destruct (overStock _ _); [reflexivity|]); simpl;
      match goal with |- posData (renderCart ?x) = _ =>
        destruct (renderCart_frame x) as (_ & -> & _) end; reflexivity. }
  event_cases e; try exact I.
  - unfold addInventoryItem.
    destruct (validNumbers f) as [[[p s] t]|]; [|repeat split; reflexivity].
    destruct (findLoc _ _ _); repeat split; reflexivity.
  - unfold editInventoryItem. destruct (findLoc _ _ _); repeat split; reflexivity.
  - unfold editSubmit. destruct (editing w) as [[item id]|];
      [|repeat split; reflexivity].
    destruct (validNumbers f) as [[[p s] t]|]; [|repeat split; reflexivity].
    destruct (_ && _); repeat split; reflexivity.
  - repeat split; reflexivity.
  - unfold addItemByBarcode. destruct (trim barcodeInput =? "");
      [repeat split; reflexivity|].
    destruct (inventoryItemByCode _ w) as [item|]; [|repeat split; reflexivity].
    rewrite Hadd. repeat split; reflexivity.
  - unfold addManualItem.
    destruct priceInput as [p|]; [|repeat split; reflexivity].
    destruct qtyInput as [q|]; [|repeat split; reflexivity].
    destruct (_ || _); [repeat split; reflexivity|].
    destruct (inventoryItemByCode _ w) as [it|].
    + destruct (exceeds q (stock it)); [repeat split; reflexivity|].
      rewrite Hadd. repeat split; reflexivity.
    + rewrite Hadd. repeat split; reflexivity.
  - unfold removeCartItem.
    match goal with |- context [posData (renderCart ?x)] =>
      destruct (renderCart_frame x) as (_ & -> & _) end.
    repeat split; reflexivity.
  - unfold onDiscountValueInput.
    destruct (calculateGrandTotal_frame None (set_discountValueInput v w))
      as (_ & -> & _). repeat split; reflexivity.
  - unfold onDiscountTypeChange.
    destruct (calculateGrandTotal_frame None (set_discountTypeSelect ty w))
      as (_ & -> & _). repeat split; reflexivity.
  - unfold addGrnItem. destruct qtyInput as [q|]; [|repeat split; reflexivity].
    destruct (_ || _); [repeat split; reflexivity|].
    destruct (inventoryItemByCode _ w); [|repeat split; reflexivity].
    destruct (findLoc _ _ _); repeat split; reflexivity.
  - unfold createGrn. destruct (currentGrnItems w); [repeat split; reflexivity|].
    destruct (_ || _); repeat split; reflexivity.
  - destruct logo; repeat split; reflexivity.
  - unfold deleteDistributionChannel. destruct (id =? "main");
      repeat split; reflexivity.
  - unfold showSection. destruct (sectionId =? "billing-section").
    + rewrite posData_resetBillingForm. repeat split; reflexivity.
    + destruct (sectionId =? "grn-section"); repeat split; reflexivity.
Qed.

(** What a processed bill writes: one sale, one payment for it, for a
    cheque one cheque, on credit one credit bill and the customer's
    balance. *)
Lemma processBill_ledger (dr : Draw) (f : BillForm) (w w' : World) :
  processBill dr f w = Ok w' ->
  let d := posData w in
  let d' := posData w' in
  let billId := String.append "BILL-" (nowStamp dr) in
  let gt := cartGrandtotalSpan w in
  exists (sale : Sale loc) (cd : option ChequeDetails),
    sales d' = sales d ++ [sale]
    /\ sale_id sale = billId
    /\ sale_date sale = today dr
    /\ grandTotal sale = gt
    /\ chequeFor (paymentMethodSelect f) (chequeNumberInput f)
                 (chequeBankInput f) (chequeDueDateInput f)
                 "Please provide all cheque details (Number, Bank, Due Date)."
       = Ok cd
    /\ payments d'
       = payments d ++
           [mkPayment (uuidPayment dr) (today dr) billId gt
                      (paymentMethodSelect f) (trim (paymentReferenceInput f))
                      cd]
    /\ cheques d'
       = match cd with
         | Some c =>
             cheques d ++ [mkCheque (uuidCheque dr) billId (cd_number c)
                                    (cd_bank c) gt (cd_dueDate c) Pending]
         | None => cheques d
         end
    /\ ((paymentMethodSelect f =? "credit") = false ->
        customers d' = customers d /\ creditBills d' = creditBills d)
    /\ ((paymentMethodSelect f =? "credit") = true ->
        exists ci c,
          findIndex (fun c => cust_id c =? registeredCustomerDropdown f)
                    (customers d) = Some ci
          /\ customers d !! ci = Some c
          /\ (outstandingCredit c + gt <= creditLimit c)%Q
          /\ customers d'
             = <[ci := set_outstandingCredit (outstandingCredit c + gt) c]>
                 (customers d)
          /\ creditBills d'
             = creditBills d ++
                 [mkCreditBill (uuidCreditBill dr) billId (cust_id c) gt 0 gt
                               (today dr) "" []]).
Proof.
  intros H. cbv zeta. processBill_inv H. subst w'.
  rewrite posData_resetBillingForm.
  cbn [posData set_posData sales set_sales payments set_payments cheques
       set_cheques customers set_customers creditBills set_creditBills].
  eexists. exists chequeDetails.
  split; [reflexivity|]. split; [reflexivity|]. split; [reflexivity|].
  split; [reflexivity|]. split; [reflexivity|]. split; [reflexivity|].
  split; [reflexivity|].
  unfold creditRefused in Hcredit.
  destruct (paymentMethodSelect f =? "credit") eqn:Hm.
  - split; [discriminate|]. intros _.
    destruct (customerTypeSelect f =? "walking") eqn:Hwalk; [discriminate|].
    destruct selected as [ci|].
    + destruct (selectCustomer_registered _ _ _ _ _ Hsel) as (_ & Hci & c & Hc).
      rewrite Hc in Hcredit.
      destruct (Qltb (creditLimit c) (outstandingCredit c + cartGrandtotalSpan w))
        eqn:Hlim; [discriminate|].
      apply Qltb_ge in Hlim.
      exists ci, c. split; [exact Hci|]. split; [exact Hc|].
      split; [exact Hlim|]. rewrite Hc. split; [|reflexivity].
      rewrite (alter_insert _ _ _ _ Hc). reflexivity.
    + apply selectCustomer_walking in Hsel. congruence.
  - split; [|discriminate]. intros _. split; reflexivity.
Qed.

(** What an accepted installment writes. *)
Lemma addInstallment_ledger {R G : Type} (d d' : POSData R G)
    (eid : option string) (today payId chqId : string) (f : InstallmentForm) :
  addInstallment eid today payId chqId f d = Ok d' ->
  exists bi b a cd,
    findCreditBill eid d = Some bi
    /\ creditBills d !! bi = Some b
    /\ installmentAmountInput f = Some a
    /\ (0 < a /\ a <= dueAmount b)%Q
    /\ chequeFor (installmentMethodSelect f) (installmentChequeNumberInput f)
                 (installmentChequeBankInput f)
                 (installmentChequeDueDateInput f)
                 "Please provide all cheque details (Number, Bank, Due Date) for installment."
       = Ok cd
    /\ let p := mkPayment payId today (cb_billId b) a
                          (installmentMethodSelect f)
                          (trim (installmentReferenceInput f)) cd in
       creditBills d' = <[bi := payBill a p b]> (creditBills d)
       /\ payments d' = payments d ++ [p]
       /\ customers d' = settle (customerId b) a (customers d)
       /\ cheques d'
          = match cd with
            | Some c =>
                cheques d ++ [mkCheque chqId (cb_billId b) (cd_number c)
                                       (cd_bank c) a (cd_dueDate c) Pending]
            | None => cheques d
            end
       /\ sales d' = sales d /\ inventory d' = inventory d
       /\ grns d' = grns d.
Proof.
  intros H. unfold addInstallment in H.
  destruct (findCreditBill eid d) as [bi|] eqn:Hbi; [|discriminate].
  destruct (creditBills d !! bi) as [b|] eqn:Hb; [|discriminate].
  destruct (installmentAmountInput f) as [a|] eqn:Ha; [|discriminate].
  destruct (Qle_bool a 0) eqn:E1; [discriminate|].
  destruct (Qltb (dueAmount b) a) eqn:E2; [discriminate|].
  destruct (chequeFor _ _ _ _ _) as [cd|msg] eqn:Hc; [|discriminate].
  injection H as <-. exists bi, b, a, cd.
  split; [reflexivity|]. split; [exact Hb|]. split; [reflexivity|].
  split.
  { split; [|apply Qltb_ge; exact E2].
    apply Qnot_le_lt. intros Hle. apply Qle_bool_iff in Hle. congruence. }
  split; [first [reflexivity|exact Hc]|]. cbv zeta. simpl.
  split; [rewrite (alter_insert _ _ _ _ Hb); reflexivity|].
  repeat split; reflexivity.
Qed.

Lemma elem_of_insert_inv {A : Type} (l : list A) (i : nat) (x y : A) :
  y ∈ <[i := x]> l -> y = x \/ y ∈ l.
Proof.
  intros H. apply list_elem_of_lookup in H as [j Hj].
  destruct (decide (i = j)) as [->|Hne].
  - destruct (decide (j < length l)%nat) as [Hlt|Hge].
    + rewrite list_lookup_insert_eq in Hj by exact Hlt. left. congruence.
    + rewrite list_insert_ge in Hj by lia. right.
      apply list_elem_of_lookup. eauto.
  - rewrite list_lookup_insert_ne in Hj by exact Hne. right.
    apply list_elem_of_lookup. eauto.
Qed.

Lemma elem_of_alter_inv {A : Type} (f : A -> A) (l : list A) (i : nat) (y : A) :
  y ∈ alter f i l -> y ∈ l \/ exists x, l !! i = Some x /\ y = f x.
Proof.
  intros H. apply list_elem_of_lookup in H as [j Hj].
  destruct (decide (i = j)) as [->|Hne].
  - rewrite list_lookup_alter_eq in Hj.
    destruct (l !! j) as [x|] eqn:Hx; [|discriminate].
    right. exists x. split; [reflexivity|]. simpl in Hj. congruence.
  - rewrite list_lookup_alter_ne in Hj by exact Hne. left.
    apply list_elem_of_lookup. eauto.
Qed.

Lemma elem_of_filter_b {A : Type} (p : A -> bool) (l : list A) (x : A) :
  x ∈ filter (fun y => p y) l <-> p x = true /\ x ∈ l.
Proof.
  rewrite list_elem_of_filter, Is_true_true. reflexivity.
Qed.


(** ** Payments, credit bills and cheques refer to recorded sales *)

Lemma billRefs_elem {R G : Type} (d : POSData R G) (id : string) :
  id ∈ billRefs d <->
  (exists p, p ∈ payments d /\ pay_billId p = id)
  \/ (exists b, b ∈ creditBills d /\ cb_billId b = id)
  \/ (exists c, c ∈ cheques d /\ chq_billId c = id).
Proof.
  unfold billRefs. rewrite !elem_of_app, !list_elem_of_fmap.
  split; intros [(x & H1 & H2)|[(x & H1 & H2)|(x & H1 & H2)]]; eauto 6.
Qed.

(** A step that keeps the sales and brings in no bill id of its own keeps
    the references in order. *)
Lemma refersToSales_step {R G : Type} (d d' : POSData R G) :
  (forall id, id ∈ saleIds d -> id ∈ saleIds d') ->
  (forall id, id ∈ billRefs d' -> id ∈ billRefs d \/ id ∈ saleIds d') ->
  refersToSales d -> refersToSales d'.
Proof.
  intros Hs Hr H id Hid. destruct (Hr id Hid) as [Hold|Hnew]; auto.
Qed.

Lemma refersToSales_same {R G : Type} (d d' : POSData R G) :
  sales d' = sales d -> payments d' = payments d ->
  creditBills d' = creditBills d -> cheques d' = cheques d ->
  refersToSales d -> refersToSales d'.
Proof.
  intros E1 E2 E3 E4. unfold refersToSales, billRefs, saleIds.
  rewrite E1, E2, E3, E4. auto.
Qed.

Lemma saleIds_snoc {R G : Type} (d d' : POSData R G) (sale : Sale R) :
  sales d' = sales d ++ [sale] ->
  forall id, id ∈ saleIds d' <-> id ∈ saleIds d \/ id = sale_id sale.
Proof.
  intros E id. unfold saleIds. rewrite E, fmap_app, elem_of_app.
  simpl. rewrite list_elem_of_singleton. reflexivity.
Qed.

Lemma refersToSales_processBill (dr : Draw) (f : BillForm) (w : World) :
  refersToSales (posData w) ->
  refersToSales (posData (after (processBill dr f w) w)).
Proof.
  intros H. destruct (processBill dr f w) as [w'|] eqn:Hrun; [|exact H].
  simpl.
  destruct (processBill_ledger dr f w w' Hrun)
    as (sale & cd & Hsales & Hid & _ & _ & _ & Hpay & Hchq & Hcash & Hcredit).
  pose proof (saleIds_snoc _ _ _ Hsales) as Hids.
  revert H. apply refersToSales_step.
  - intros id Hin. apply Hids. left. exact Hin.
  - intros id Hin. rewrite Hids, Hid.
    apply billRefs_elem in Hin. rewrite (billRefs_elem (posData w)).
    destruct Hin as [(p & Hp & E)|[(b & Hb & E)|(c & Hc & E)]].
    + rewrite Hpay in Hp. apply elem_of_app in Hp as [Hp|Hp]; [eauto 6|].
      apply list_elem_of_singleton in Hp. subst p. right. right. symmetry. exact E.
    + destruct (paymentMethodSelect f =? "credit") eqn:Hm.
      * destruct (Hcredit eq_refl) as (ci & c & _ & _ & _ & _ & Hbills).
        rewrite Hbills in Hb. apply elem_of_app in Hb as [Hb|Hb]; [eauto 7|].
        apply list_elem_of_singleton in Hb. subst b. right. right. symmetry. exact E.
      * destruct (Hcash eq_refl) as [_ Hbills]. rewrite Hbills in Hb. eauto 7.
    + rewrite Hchq in Hc. destruct cd as [cd|]; [|eauto 8].
      apply elem_of_app in Hc as [Hc|Hc]; [eauto 8|].
      apply list_elem_of_singleton in Hc. subst c. right. right. symmetry. exact E.
Qed.

Lemma refersToSales_addInstallment {R G : Type} (d : POSData R G)
    (eid : option string) (today payId chqId : string) (f : InstallmentForm) :
  refersToSales d ->
  refersToSales (after (addInstallment eid today payId chqId f d) d).
Proof.
  intros H.
  destruct (addInstallment eid today payId chqId f d) as [d'|] eqn:Hrun;
    [|exact H].
  simpl.
  destruct (addInstallment_ledger _ _ _ _ _ _ _ Hrun)
    as (bi & b & a & cd & _ & Hb & _ & _ & _ & Hbills & Hpay & _ & Hchq
        & Hsales & _).
  assert (Hbin : b ∈ creditBills d) by (apply list_elem_of_lookup; eauto).
  revert H. apply refersToSales_step.
  - unfold saleIds. rewrite Hsales. auto.
  - intros id Hin. left.
    apply billRefs_elem in Hin. apply billRefs_elem.
    destruct Hin as [(p & Hp & E)|[(b' & Hb' & E)|(c & Hc & E)]].
    + rewrite Hpay in Hp. apply elem_of_app in Hp as [Hp|Hp]; [eauto 6|].
      apply list_elem_of_singleton in Hp. subst p. simpl in E. eauto 7.
    + rewrite Hbills in Hb'. apply elem_of_insert_inv in Hb' as [->|Hb'];
        [|eauto 7]. simpl in E. eauto 7.
    + rewrite Hchq in Hc. destruct cd as [cd|]; [|eauto 8].
      apply elem_of_app in Hc as [Hc|Hc]; [eauto 8|].
      apply list_elem_of_singleton in Hc. subst c. simpl in E. eauto 7.
Qed.

Lemma refersToSales_filter {R G : Type} (d d' : POSData R G) :
  sales d' = sales d ->
  payments d' ⊆ payments d -> creditBills d' ⊆ creditBills d ->
  cheques d' ⊆ cheques d ->
  refersToSales d -> refersToSales d'.
Proof.
  intros Es Hp Hb Hc. apply refersToSales_step.
  - unfold saleIds. rewrite Es. auto.
  - intros id Hin. left. apply billRefs_elem in Hin. apply billRefs_elem.
    destruct Hin as [(x & Hx & E)|[(x & Hx & E)|(x & Hx & E)]]; eauto 8.
Qed.

Lemma filter_subseteq {A : Type} (p : A -> bool) (l : list A) :
  filter (fun x => p x) l ⊆ l.
Proof. intros x Hx. apply elem_of_filter_b in Hx. apply Hx. Qed.

Lemma refersToSales_perform (w : World) (c : Command) :
  refersToSales (posData w) -> refersToSales (posData (perform w c)).
Proof.
  intros H. destruct c as [e|newId f|id f|id|id|id|id|eid v|itemId];
    cbn [perform].
  - pose proof (handle_ledger_frame w e) as Hf.
    event_cases e;
      try (destruct Hf as (E1 & E2 & E3 & E4 & E5);
           apply (refersToSales_same (posData w)); assumption).
    + apply refersToSales_processBill, H.
    + unfold onDoc. cbn [posData set_posData].
      apply refersToSales_addInstallment, H.
    + unfold onDoc, deleteCreditBill. cbn [posData set_posData].
      destruct (findIndex _ (creditBills (posData w))) as [bi|]; [|exact H].
      destruct (creditBills (posData w) !! bi) as [b|]; [|exact H].
      revert H. apply refersToSales_filter; simpl;
        [reflexivity|reflexivity|apply filter_subseteq|reflexivity].
    + unfold onDoc, updateChequeStatus. cbn [posData set_posData].
      destruct (findIndex _ (cheques (posData w))) as [ci|]; [|exact H].
      simpl. revert H. apply refersToSales_step; [auto|].
      intros x Hin. left. apply billRefs_elem in Hin. apply billRefs_elem.
      destruct Hin as [(p & Hp & E)|[(b & Hb & E)|(c & Hc & E)]];
        [eauto 6|eauto 7|].
      simpl in Hc. apply elem_of_alter_inv in Hc as [Hc|(c0 & Hc0 & ->)];
        [eauto 8|].
      simpl in E. right. right. exists c0. split; [|exact E].
      apply list_elem_of_lookup. eauto.
  - unfold onDoc, addCustomer. cbn [posData set_posData].
    destruct (customerCreditLimitInput f) as [l|]; [|exact H].
    destruct (Qltb l 0); [exact H|].
    revert H. apply refersToSales_same; reflexivity.
  - unfold onDoc, editCustomer. cbn [posData set_posData].
    destruct (findIndex _ _); [|exact H].
    destruct (customerCreditLimitInput f) as [l|]; [|exact H].
    destruct (Qltb l 0); [exact H|].
    revert H. apply refersToSales_same; reflexivity.
  - unfold onDoc, deleteCustomer. cbn [posData set_posData].
    destruct (hasOutstandingCredit _ _); [exact H|].
    revert H. apply refersToSales_same; reflexivity.
  - revert H. apply refersToSales_same; reflexivity.
  - revert H. apply refersToSales_filter; simpl;
      [reflexivity|apply filter_subseteq|reflexivity|reflexivity].
  - revert H. apply refersToSales_filter; simpl;
      [reflexivity|reflexivity|reflexivity|apply filter_subseteq].
  - unfold onDoc, saveCreditBillChanges. cbn [posData set_posData].
    destruct (findCreditBill _ _) as [bi|]; [|exact H].
    simpl. revert H. apply refersToSales_step; [auto|].
    intros x Hin. left. apply billRefs_elem in Hin. apply billRefs_elem.
    destruct Hin as [(p & Hp & E)|[(b & Hb & E)|(c & Hc & E)]];
      [eauto 6| |eauto 8].
    simpl in Hb. apply elem_of_alter_inv in Hb as [Hb|(b0 & Hb0 & ->)];
      [eauto 7|].
    simpl in E. right. left. exists b0. split; [|exact E].
    apply list_elem_of_lookup. eauto.
  - exact H.
Qed.

(** ** The amounts of the credit bills add up *)







(** ** An unpaid credit bill has its customer *)

Lemma fmap_alter_same {A B : Type} (g : A -> B) (f : A -> A) (i : nat)
    (l : list A) :
  (forall x, g (f x) = g x) -> g <$> alter f i l = g <$> l.
Proof.
  intros Hg. revert i. induction l as [|x l IH]; intros [|i]; simpl;
    try reflexivity.
  - rewrite Hg. reflexivity.
  - f_equal. apply IH.
Qed.

Lemma fmap_insert_same {A B : Type} (g : A -> B) (i : nat) (x y : A)
    (l : list A) :
  l !! i = Some x -> g y = g x -> g <$> <[i := y]> l = g <$> l.
Proof.
  revert i. induction l as [|a l IH]; intros [|i] Hx Hg; simpl in *;
    try discriminate.
  - injection Hx as ->. rewrite Hg. reflexivity.
  - f_equal. apply IH; assumption.
Qed.

Lemma settle_ids (id : string) (a : Q) (cs : list Customer) :
  cust_id <$> settle id a cs = cust_id <$> cs.
Proof.
  unfold settle. destruct (findIndex _ cs); [|reflexivity].
  apply fmap_alter_same. reflexivity.
Qed.

Lemma revert_ids (id : string) (a : Q) (cs : list Customer) :
  cust_id <$> revert id a cs = cust_id <$> cs.
Proof.
  unfold revert. destruct (findIndex _ cs); [|reflexivity].
  apply fmap_alter_same. intros c. simpl. reflexivity.
Qed.

Lemma hasOutstandingCredit_false {R G : Type} (d : POSData R G) (id : string)
    (b : CreditBill) :
  hasOutstandingCredit id d = false ->
  b ∈ creditBills d -> (0 < dueAmount b)%Q -> customerId b <> id.
Proof.
  unfold hasOutstandingCredit. intros H Hb Hdue E.
  assert (Hex : existsb (fun bill => (customerId bill =? id)
                                     && Qltb 0 (dueAmount bill))
                        (creditBills d) = true).
  { apply existsb_exists. exists b. split.
    - apply list_elem_of_In. exact Hb.
    - apply andb_true_iff. split; [apply String.eqb_eq; exact E|].
      apply Qltb_lt. exact Hdue. }
  congruence.
Qed.

Lemma debtorsKnown_perform (w : World) (c : Command) :
  debtorsKnown (posData w) -> debtorsKnown (posData (perform w c)).
Proof.
  intros H. unfold debtorsKnown in *.
  destruct c as [e|newId f|id f|id|id|id|id|eid v|itemId]; cbn [perform].
  - pose proof (handle_ledger_frame w e) as Hf.
    event_cases e;
      try (destruct Hf as (E1 & E2 & E3 & E4 & E5); cbn [handle] in E1, E2;
           rewrite E1, E2; exact H).
    + destruct (processBill dr f w) as [w'|] eqn:Hrun; [|exact H]. simpl.
      destruct (processBill_ledger dr f w w' Hrun)
        as (sale & cd & _ & _ & _ & _ & _ & _ & _ & Hcash & Hcredit).
      destruct (paymentMethodSelect f =? "credit") eqn:Hm.
      * destruct (Hcredit eq_refl) as (ci & c & _ & Hc & _ & -> & ->).
        rewrite (fmap_insert_same cust_id ci c _ _ Hc) by reflexivity.
        intros b Hb Hdue. apply elem_of_app in Hb as [Hb|Hb]; [auto|].
        apply list_elem_of_singleton in Hb. subst b. simpl.
        apply list_elem_of_fmap. exists c. split; [reflexivity|].
        apply list_elem_of_lookup. eauto.
      * destruct (Hcash eq_refl) as [-> ->]. exact H.
    + unfold onDoc. cbn [posData set_posData].
      destruct (addInstallment eid tday payId chqId f (posData w))
        as [d'|] eqn:Hrun; [|exact H].
      simpl.
      destruct (addInstallment_ledger _ _ _ _ _ _ _ Hrun)
        as (bi & b & a & cd & _ & Hb & _ & [Ha Hle] & _ & -> & _ & -> & _).
      rewrite settle_ids. intros b' Hb' Hdue.
      apply elem_of_insert_inv in Hb' as [->|Hb']; [|auto].
      simpl in *. apply (H b).
      * apply list_elem_of_lookup. eauto.
      * lra.
    + unfold onDoc, deleteCreditBill. cbn [posData set_posData].
      destruct (findIndex _ (creditBills (posData w))) as [bi|]; [|exact H].
      destruct (creditBills (posData w) !! bi) as [b|]; [|exact H].
      simpl. rewrite revert_ids. intros b' Hb' Hdue.
      apply elem_of_filter_b in Hb' as [_ Hb']. auto.
    + unfold onDoc, updateChequeStatus. cbn [posData set_posData].
      destruct (findIndex _ (cheques (posData w))) as [ci|]; exact H.
  - unfold onDoc, addCustomer. cbn [posData set_posData].
    destruct (customerCreditLimitInput f) as [l|]; [|exact H].
    destruct (Qltb l 0); [exact H|]. simpl.
    intros b Hb Hdue. rewrite fmap_app, elem_of_app. left. auto.
  - unfold onDoc, editCustomer. cbn [posData set_posData].
    destruct (findIndex _ _); [|exact H].
    destruct (customerCreditLimitInput f) as [l|]; [|exact H].
    destruct (Qltb l 0); [exact H|]. simpl.
    rewrite fmap_alter_same by reflexivity. exact H.
  - unfold onDoc, deleteCustomer. cbn [posData set_posData].
    destruct (hasOutstandingCredit id (posData w)) eqn:Hout; [exact H|].
    simpl. intros b Hb Hdue.
    pose proof (hasOutstandingCredit_false _ _ _ Hout Hb Hdue) as Hne.
    specialize (H b Hb Hdue).
    apply list_elem_of_fmap in H as (c & Hc & Hin).
    apply list_elem_of_fmap. exists c. split; [exact Hc|].
    apply elem_of_filter_b. split; [|exact Hin].
    apply negb_true_iff, String.eqb_neq. congruence.
  - exact H.
  - exact H.
  - exact H.
  - unfold onDoc, saveCreditBillChanges. cbn [posData set_posData].
    destruct (findCreditBill _ _) as [bi|]; [|exact H].
    simpl. intros b Hb Hdue.
    apply elem_of_alter_inv in Hb as [Hb|(b0 & Hb0 & ->)]; [auto|].
    simpl in *. apply (H b0); [|exact Hdue].
    apply list_elem_of_lookup. eauto.
  - exact H.
Qed.

(** ** The balance of a customer is the sum of the amounts due *)










Lemma existsb_false_elem {A : Type} (p : A -> bool) (l : list A) (x : A) :
  existsb p l = false -> x ∈ l -> p x = false.
Proof.
  intros H Hx. destruct (p x) eqn:E; [|reflexivity].
  assert (existsb p l = true); [|congruence].
  apply existsb_exists. exists x. split; [apply list_elem_of_In; exact Hx|exact E].
Qed.






(** ** The ledger over the sessions *)

Lemma session_snoc (data : option RawDoc) (cs : list Command) (c : Command) :
  session data (cs ++ [c]) = perform (session data cs) c.
Proof. unfold session. rewrite fold_left_app. reflexivity. Qed.


(** X1: in a session that starts from a document in which payments,
    credit bills and cheques carry bill ids of recorded sales (the empty
    document of a first start is one), they do so on every page: each
    payment, each credit bill and each cheque names a sale that is on
    record. *)
Theorem ledger_refers_to_sales (data : option RawDoc) (cs : list Command) :
  refersToSales (posData (boot data)) ->
  let d := posData (session data cs) in
  (forall p, p ∈ payments d ->
             exists sale, sale ∈ sales d /\ sale_id sale = pay_billId p)
  /\ (forall b, b ∈ creditBills d ->
                exists sale, sale ∈ sales d /\ sale_id sale = cb_billId b)
  /\ (forall c, c ∈ cheques d ->
                exists sale, sale ∈ sales d /\ sale_id sale = chq_billId c).
Proof.
  intros H0. cbv zeta.
  assert (H : refersToSales (posData (session data cs))).
  { induction cs as [|c cs IH] using rev_ind; [exact H0|].
    rewrite session_snoc. apply refersToSales_perform, IH. }
  assert (Hsale : forall id, id ∈ billRefs (posData (session data cs)) ->
            exists sale, sale ∈ sales (posData (session data cs))
                         /\ sale_id sale = id).
  { intros id Hid. apply H in Hid. unfold saleIds in Hid.
    apply list_elem_of_fmap in Hid as (sale & -> & Hin). eauto. }
  split; [|split]; intros x Hx; apply Hsale, billRefs_elem; eauto 7.
Qed.


(** X3: in a session that starts from a document in which every credit
    bill with an amount due belongs to a registered customer, this holds on
    every page: a customer who still owes on a bill is never removed. *)
Theorem unpaid_bill_has_its_customer (data : option RawDoc)
    (cs : list Command) :
  debtorsKnown (posData (boot data)) ->
  forall b, b ∈ creditBills (posData (session data cs)) ->
    (0 < dueAmount b)%Q ->
    exists c, c ∈ customers (posData (session data cs))
              /\ cust_id c = customerId b.
Proof.
  intros H0.
  assert (H : debtorsKnown (posData (session data cs))).
  { induction cs as [|c cs IH] using rev_ind; [exact H0|].
    rewrite session_snoc. apply debtorsKnown_perform, IH. }
  intros b Hb Hdue. specialize (H b Hb Hdue).
  apply list_elem_of_fmap in H as (c & Hc & Hin). eauto.
Qed.


(** ** Cart, inventory and recorded sales are apart *)

Lemma bumpAll_off_inventory {X : Type} (op : Stock -> X -> Stock)
    (inv : list loc) (reqs : list (string * X)) (h : list Item) (l : loc) :
  l ∉ inv -> bumpAll op inv h reqs !! l = h !! l.
Proof.
  intros Hl. apply bumpAll_other. intros r _ Hf.
  apply findLoc_Some in Hf as [Hin _]. auto.
Qed.

Lemma cartSubtotal_ext (h h' : list Item) (cart : list loc) :
  (forall l, l ∈ cart -> h' !! l = h !! l) ->
  cartSubtotal h' cart = cartSubtotal h cart.
Proof.
  unfold cartSubtotal. generalize 0%Q.
  induction cart as [|l cart IH]; intros acc He; [reflexivity|].
  cbn [fold_left]. rewrite (He l) by left.
  apply IH. intros l' Hl'. apply He. right. exact Hl'.
Qed.

Lemma wf_perform (w : World) (c : Command) : wf w -> wf (perform w c).
Proof.
  intros H. destruct c as [e|newId f|id f|id|id|id|id|eid v|itemId];
    cbn [perform].
  - apply wf_handle, H.
  - apply wf_onDoc; [|exact H]. intros d. unfold addCustomer.
    destruct (customerCreditLimitInput f) as [l|]; [|split; reflexivity].
    destruct (Qltb l 0); split; reflexivity.
  - apply wf_onDoc; [|exact H]. intros d. unfold editCustomer.
    destruct (findIndex _ _); [|split; reflexivity].
    destruct (customerCreditLimitInput f) as [l|]; [|split; reflexivity].
    destruct (Qltb l 0); split; reflexivity.
  - apply wf_onDoc; [|exact H]. intros d. unfold deleteCustomer.
    destruct (hasOutstandingCredit _ _); split; reflexivity.
  - apply wf_onDoc; [|exact H]. intros d. split; reflexivity.
  - apply wf_onDoc; [|exact H]. intros d. split; reflexivity.
  - apply wf_onDoc; [|exact H]. intros d. split; reflexivity.
  - apply wf_onDoc; [|exact H]. intros d. unfold saveCreditBillChanges.
    destruct (findCreditBill _ _); split; reflexivity.
  - revert H. apply wf_shrink; simpl; reflexivity || lia.
Qed.

Lemma wf_session (data : option RawDoc) (cs : list Command) :
  wf (session data cs).
Proof.
  induction cs as [|c cs IH] using rev_ind; [apply wf_boot|].
  rewrite session_snoc. apply wf_perform, IH.
Qed.

(** A step that leaves the store, the cart, the references of the
    inventory, the edit closure, the sales and the subtotal alone. *)
Lemma storeInv_frame (w w' : World) :
  objects w' = objects w -> currentCart w' = currentCart w ->
  inventory (posData w') ⊆ inventory (posData w) ->
  editLoc w' ⊆ editLoc w ->
  sales (posData w') = sales (posData w) ->
  cartSubtotalSpan w' = cartSubtotalSpan w ->
  cartApart w /\ subtotalShown w -> cartApart w' /\ subtotalShown w'.
Proof.
  intros Eo Ec Hi He Es Et [Ha Hs].
  unfold cartApart, subtotalShown, saleLines. rewrite Eo, Ec, Es, Et.
  split; [|exact Hs].
  intros l Hl. destruct (Ha l Hl) as (H1 & H2 & H3 & H4).
  repeat split; auto.
Qed.

Lemma subtotalShown_ext (w w' : World) :
  cartSubtotalSpan w' = cartSubtotalSpan w ->
  currentCart w' = currentCart w ->
  (forall l, l ∈ currentCart w -> objects w' !! l = objects w !! l) ->
  subtotalShown w -> subtotalShown w'.
Proof.
  unfold subtotalShown. intros -> -> He Hs.
  rewrite (cartSubtotal_ext (objects w) (objects w') _ He). exact Hs.
Qed.

(** After [renderCart] the subtotal is the cart's. *)
Lemma subtotalShown_renderCart (w : World) : subtotalShown (renderCart w).
Proof.
  unfold subtotalShown.
  destruct (renderCart_frame w) as (-> & _ & _ & ->).
  unfold renderCart.
  destruct (calculateGrandTotal_spec
              (Some (cartSubtotal (objects w) (currentCart w)))
              (set_cartSubtotalSpan
                 (toFixed2 (cartSubtotal (objects w) (currentCart w))) w))
    as (_ & _ & -> & _).
  reflexivity.
Qed.

Lemma cartApart_renderCart (w : World) : cartApart w -> cartApart (renderCart w).
Proof.
  unfold cartApart, editLoc, saleLines.
  destruct (renderCart_frame w) as (-> & -> & -> & ->). auto.
Qed.

Lemma storeInv_resetBillingForm (w : World) :
  cartApart (resetBillingForm w) /\ subtotalShown (resetBillingForm w).
Proof.
  split.
  - intros l Hl. destruct (resetBillingForm_frame w) as (_ & _ & E & _).
    rewrite E in Hl. inversion Hl.
  - unfold resetBillingForm, subtotalShown.
    cbn [cartSubtotalSpan set_discountValueInput set_discountTypeSelect
         objects currentCart].
    apply subtotalShown_renderCart.
Qed.

Lemma wf_valid (w : World) (l : loc) :
  wf w ->
  l ∈ inventory (posData w) \/ l ∈ editLoc w \/ l ∈ saleLines w ->
  (l < length (objects w))%nat.
Proof.
  intros [Hv _] Hl. rewrite Forall_forall in Hv. apply Hv.
  rewrite !elem_of_app. exact Hl.
Qed.

Lemma storeInv_addItemToCart (item : Item) (q : Z) (w : World) :
  wf w -> cartApart w /\ subtotalShown w ->
  cartApart (after (addItemToCart item q w) w)
  /\ subtotalShown (after (addItemToCart item q w) w).
Proof.
  intros Hwf [Ha Hs]. unfold addItemToCart.
  destruct (findLoc _ (objects w) (currentCart w)) as [existing|].
  - destruct (overStock _ _); [split; assumption|]. simpl.
    split; [|apply subtotalShown_renderCart].
    apply cartApart_renderCart. intros l Hl.
    destruct (Ha l Hl) as (H1 & H2 & H3 & H4).
    cbn [objects set_objects]. rewrite length_alter. repeat split; auto.
  - destruct (overStock _ _); [split; assumption|]. simpl.
    split; [|apply subtotalShown_renderCart].
    apply cartApart_renderCart. intros l Hl.
    cbn [objects set_objects set_currentCart currentCart] in *.
    rewrite length_app. simpl.
    apply elem_of_app in Hl as [Hl|Hl].
    + destruct (Ha l Hl) as (H1 & H2 & H3 & H4). repeat split; auto. lia.
    + apply list_elem_of_singleton in Hl. subst l.
      split; [lia|].
      repeat split; intros Hin;
        [pose proof (wf_valid w _ Hwf (or_introl Hin))
        |pose proof (wf_valid w _ Hwf (or_intror (or_introl Hin)))
        |pose proof (wf_valid w _ Hwf (or_intror (or_intror Hin)))]; lia.
Qed.

Lemma storeInv_handle (w : World) (e : Event) :
  wf w -> cartApart w /\ subtotalShown w ->
  cartApart (handle w e) /\ subtotalShown (handle w e).
Proof.
  intros Hwf H. pose proof H as [Ha Hs].
  event_cases e.
  - (* AddInventoryItem *)
    unfold addInventoryItem.
    destruct (validNumbers f) as [[[p s] t]|]; [|exact H].
    destruct (findLoc _ (objects w) (inventory (posData w))); [exact H|].
    simpl. split.
    + intros l Hl. destruct (Ha l Hl) as (H1 & H2 & H3 & H4).
      cbn [objects set_objects set_posData posData inventory set_inventory].
      rewrite length_app. simpl. split; [lia|].
      split; [|split; assumption].
      rewrite elem_of_app, list_elem_of_singleton. intros [Hin| ->]; [auto|lia].
    + revert Hs. apply subtotalShown_ext; try reflexivity.
      intros l Hl. apply lookup_app_l. apply (Ha l Hl).
  - (* EditInventoryItem *)
    unfold editInventoryItem.
    destruct (findLoc _ (objects w) (inventory (posData w))) as [item|] eqn:Hf;
      [|exact H].
    apply findLoc_Some in Hf as [Hin _]. simpl. split; [|exact Hs].
    intros l Hl. destruct (Ha l Hl) as (H1 & H2 & H3 & H4).
    repeat split; auto. unfold editLoc. simpl.
    rewrite list_elem_of_singleton. intros ->. auto.
  - (* SubmitEdit *)
    unfold editSubmit. destruct (editing w) as [[item id]|] eqn:Hed; [|exact H].
    destruct (validNumbers f) as [[[p s] t]|]; [|exact H].
    destruct (_ && _); [exact H|]. simpl. split.
    + intros l Hl. destruct (Ha l Hl) as (H1 & H2 & H3 & H4).
      cbn [objects set_objects set_editing]. rewrite length_alter.
      repeat split; auto. unfold editLoc. simpl. apply not_elem_of_nil.
    + revert Hs. apply subtotalShown_ext; try reflexivity.
      intros l Hl. apply list_lookup_alter_ne. intros ->.
      destruct (Ha l Hl) as (_ & _ & H3 & _). apply H3.
      unfold editLoc. rewrite Hed. left.
  - (* DeleteInventoryItem *)
    revert H. apply storeInv_frame; simpl; try reflexivity.
    intros l Hl. apply elem_of_filter_b in Hl. apply Hl.
  - (* AddItemByBarcode *)
    unfold addItemByBarcode. destruct (trim barcodeInput =? ""); [exact H|].
    destruct (inventoryItemByCode _ w) as [item|]; [|exact H].
    apply storeInv_addItemToCart; assumption.
  - (* AddManualItem *)
    unfold addManualItem.
    destruct priceInput as [p|]; [|exact H].
    destruct qtyInput as [q|]; [|exact H].
    destruct (_ || _); [exact H|].
    destruct (inventoryItemByCode _ w) as [it|];
      [|apply storeInv_addItemToCart; assumption].
    destruct (exceeds q (stock it)); [exact H|].
    apply storeInv_addItemToCart; assumption.
  - (* RemoveCartItem *)
    unfold removeCartItem. split; [|apply subtotalShown_renderCart].
    apply cartApart_renderCart. intros l Hl. simpl in Hl.
    apply elem_of_filter_b in Hl as [_ Hl]. exact (Ha l Hl).
  - (* DiscountValueInput *)
    unfold onDiscountValueInput.
    destruct (calculateGrandTotal_spec None (set_discountValueInput v w))
      as (_ & _ & E1 & _ & E2 & E3 & E4). cbv zeta in *.
    destruct (calculateGrandTotal_frame None (set_discountValueInput v w))
      as (_ & _ & E5 & _).
    revert H. apply storeInv_frame; rewrite ?E1, ?E2, ?E3, ?E4;
      try reflexivity.
    unfold editLoc. rewrite E5. reflexivity.
  - (* DiscountTypeChange *)
    unfold onDiscountTypeChange.
    destruct (calculateGrandTotal_spec None (set_discountTypeSelect ty w))
      as (_ & _ & E1 & _ & E2 & E3 & E4). cbv zeta in *.
    destruct (calculateGrandTotal_frame None (set_discountTypeSelect ty w))
      as (_ & _ & E5 & _).
    revert H. apply storeInv_frame; rewrite ?E1, ?E2, ?E3, ?E4;
      try reflexivity.
    unfold editLoc. rewrite E5. reflexivity.
  - (* ProcessBill *)
    destruct (processBill dr f w) as [w'|] eqn:Hrun; [|exact H]. simpl.
    processBill_inv Hrun. subst w'. apply storeInv_resetBillingForm.
  - (* AddGrnItem *)
    unfold addGrnItem. destruct qtyInput as [q|]; [|exact H].
    destruct (_ || _); [exact H|].
    destruct (inventoryItemByCode _ w); [|exact H].
    destruct (findLoc _ (grnObjects w) (currentGrnItems w));
      (revert H; apply storeInv_frame; reflexivity).
  - (* CreateGrn *)
    unfold createGrn. destruct (currentGrnItems w) as [|g0 gs]; [exact H|].
    destruct (_ || _); [exact H|]. simpl. split.
    + intros l Hl. destruct (Ha l Hl) as (H1 & H2 & H3 & H4).
      cbn [objects set_objects set_currentGrnItems set_posData set_grnObjects].
      rewrite receiveAll_length. repeat split; auto.
    + revert Hs. apply subtotalShown_ext; try reflexivity.
      intros l Hl. cbn [objects set_objects set_currentGrnItems set_posData
                        set_grnObjects].
      rewrite receiveAll_bumpAll. apply bumpAll_off_inventory.
      apply (Ha l Hl).
  - (* AddInstallment *)
    destruct (addInstallment_frame eid tday payId chqId f (posData w))
      as [Hi Hsl].
    revert H. apply storeInv_frame; simpl; try reflexivity.
    + rewrite Hi. reflexivity.
    + exact Hsl.
  - destruct (deleteCreditBill_frame id (posData w)) as [Hi Hsl].
    revert H. apply storeInv_frame; simpl; try reflexivity.
    + rewrite Hi. reflexivity.
    + exact Hsl.
  - destruct (updateChequeStatus_frame id newStatus (posData w)) as [Hi Hsl].
    revert H. apply storeInv_frame; simpl; try reflexivity.
    + rewrite Hi. reflexivity.
    + exact Hsl.
  - destruct (channels_frame (posData w)) as [Hadd _].
    destruct (Hadd newId cname cregNo caddress chotline logo) as [Hi Hsl].
    revert H. apply storeInv_frame; simpl; try reflexivity.
    + rewrite Hi. reflexivity.
    + exact Hsl.
  - destruct (channels_frame (posData w)) as [_ Hdel].
    destruct (Hdel id) as [Hi Hsl].
    revert H. apply storeInv_frame; simpl; try reflexivity.
    + rewrite Hi. reflexivity.
    + exact Hsl.
  - (* ShowSection *)
    unfold showSection. destruct (sectionId =? "billing-section");
      [apply storeInv_resetBillingForm|].
    destruct (sectionId =? "grn-section"); [|exact H].
    revert H. apply storeInv_frame; reflexivity.
Qed.

Lemma storeInv_perform (w : World) (c : Command) :
  storeInv w -> storeInv (perform w c).
Proof.
  intros (Hwf & H). split; [apply wf_perform, Hwf|].
  destruct c as [e|newId f|id f|id|id|id|id|eid v|itemId]; cbn [perform].
  - apply storeInv_handle; assumption.
  - revert H. apply storeInv_frame; try reflexivity; unfold onDoc, addCustomer;
      simpl; destruct (customerCreditLimitInput f) as [l|]; try reflexivity;
      destruct (Qltb l 0); reflexivity.
  - revert H. apply storeInv_frame; try reflexivity; unfold onDoc, editCustomer;
      simpl; destruct (findIndex _ _); try reflexivity;
      destruct (customerCreditLimitInput f) as [l|]; try reflexivity;
      destruct (Qltb l 0); reflexivity.
  - revert H. apply storeInv_frame; try reflexivity;
      unfold onDoc, deleteCustomer; simpl;
      destruct (hasOutstandingCredit _ _); reflexivity.
  - revert H. apply storeInv_frame; reflexivity.
  - revert H. apply storeInv_frame; reflexivity.
  - revert H. apply storeInv_frame; reflexivity.
  - revert H. apply storeInv_frame; try reflexivity;
      unfold onDoc, saveCreditBillChanges; simpl;
      destruct (findCreditBill _ _); reflexivity.
  - revert H. apply storeInv_frame; reflexivity.
Qed.

Lemma storeInv_boot (data : option RawDoc) : storeInv (boot data).
Proof.
  split; [apply wf_boot|]. split.
  - intros l Hl. inversion Hl.
  - reflexivity.
Qed.

Lemma storeInv_session (data : option RawDoc) (cs : list Command) :
  storeInv (session data cs).
Proof.
  induction cs as [|c cs IH] using rev_ind; [apply storeInv_boot|].
  rewrite session_snoc. apply storeInv_perform, IH.
Qed.

(** How a page handler changes an object that is neither an inventory
    entry nor the object under edit: not at all, unless it is a cart line,
    of which only the quantity changes. *)
Lemma objects_addItemToCart (item : Item) (q : Z) (w : World) (l : loc) :
  (l < length (objects w))%nat ->
  (l ∉ currentCart w ->
   objects (after (addItemToCart item q w) w) !! l = objects w !! l)
  /\ forall (B : Type) (view : Item -> B),
       (forall q' o, view (set_qty q' o) = view o) ->
       view <$> objects (after (addItemToCart item q w) w) !! l
       = view <$> objects w !! l.
Proof.
  intros Hl. unfold addItemToCart.
  destruct (findLoc _ (objects w) (currentCart w)) as [existing|] eqn:Hf.
  - destruct (overStock _ _); [split; reflexivity|].
    simpl. destruct (renderCart_frame (set_objects (alter (set_qty
      match objects w !! existing with
      | Some line => (fun q0 => (q0 + q)%Z) <$> qty line
      | None => None
      end) existing (objects w)) w)) as (-> & _).
    cbn [objects set_objects].
    apply findLoc_Some in Hf as [Hin _].
    destruct (decide (existing = l)) as [->|Hne].
    + split; [intros Hn; contradiction|].
      intros B view Hv. rewrite list_lookup_alter_eq.
      destruct (objects w !! l) as [o|]; simpl; [rewrite Hv|]; reflexivity.
    + rewrite list_lookup_alter_ne by exact Hne. split; reflexivity.
  - destruct (overStock _ _); [split; reflexivity|].
    simpl. destruct (renderCart_frame
      (set_currentCart (currentCart w ++ [length (objects w)])
         (set_objects (objects w ++ [lineOf item q]) w))) as (-> & _).
    cbn [objects set_objects set_currentCart].
    rewrite lookup_app_l by exact Hl. split; reflexivity.
Qed.

Lemma objects_handle (w : World) (e : Event) (l : loc) :
  (l < length (objects w))%nat ->
  l ∉ inventory (posData w) -> l ∉ editLoc w ->
  (l ∉ currentCart w -> objects (handle w e) !! l = objects w !! l)
  /\ forall (B : Type) (view : Item -> B),
       (forall q' o, view (set_qty q' o) = view o) ->
       view <$> objects (handle w e) !! l = view <$> objects w !! l.
Proof.
  intros Hl Hinv Hed.
  assert (Hsame : forall w', objects w' = objects w ->
            (l ∉ currentCart w -> objects w' !! l = objects w !! l)
            /\ forall (B : Type) (view : Item -> B),
                 (forall q' o, view (set_qty q' o) = view o) ->
                 view <$> objects w' !! l = view <$> objects w !! l).
  { intros w' ->. split; reflexivity. }
  assert (Hlook : forall w', objects w' !! l = objects w !! l ->
            (l ∉ currentCart w -> objects w' !! l = objects w !! l)
            /\ forall (B : Type) (view : Item -> B),
                 (forall q' o, view (set_qty q' o) = view o) ->
                 view <$> objects w' !! l = view <$> objects w !! l).
  { intros w' ->. split; reflexivity. }
  event_cases e.
  - unfold addInventoryItem.
    destruct (validNumbers f) as [[[p s] t]|]; [|apply Hsame; reflexivity].
    destruct (findLoc _ (objects w) (inventory (posData w)));
      [apply Hsame; reflexivity|].
    apply Hlook. simpl. apply lookup_app_l, Hl.
  - unfold editInventoryItem.
    destruct (findLoc _ (objects w) (inventory (posData w)));
      apply Hsame; reflexivity.
  - unfold editSubmit. destruct (editing w) as [[item id]|] eqn:Hedit;
      [|apply Hsame; reflexivity].
    destruct (validNumbers f) as [[[p s] t]|]; [|apply Hsame; reflexivity].
    destruct (_ && _); [apply Hsame; reflexivity|].
    apply Hlook. simpl. apply list_lookup_alter_ne. intros ->.
    apply Hed. unfold editLoc. rewrite Hedit. left.
  - apply Hsame. reflexivity.
  - unfold addItemByBarcode. destruct (trim barcodeInput =? "");
      [apply Hsame; reflexivity|].
    destruct (inventoryItemByCode _ w) as [item|]; [|apply Hsame; reflexivity].
    apply objects_addItemToCart, Hl.
  - unfold addManualItem.
    destruct priceInput as [p|]; [|apply Hsame; reflexivity].
    destruct qtyInput as [q|]; [|apply Hsame; reflexivity].
    destruct (_ || _); [apply Hsame; reflexivity|].
    destruct (inventoryItemByCode _ w) as [it|];
      [|apply objects_addItemToCart, Hl].
    destruct (exceeds q (stock it)); [apply Hsame; reflexivity|].
    apply objects_addItemToCart, Hl.
  - apply Hsame. unfold removeCartItem.
    match goal with |- objects (renderCart ?x) = _ =>
      destruct (renderCart_frame x) as (-> & _) end. reflexivity.
  - apply Hsame. unfold onDiscountValueInput.
    destruct (calculateGrandTotal_frame None (set_discountValueInput v w))
      as (-> & _). reflexivity.
  - apply Hsame. unfold onDiscountTypeChange.
    destruct (calculateGrandTotal_frame None (set_discountTypeSelect ty w))
      as (-> & _). reflexivity.
  - destruct (processBill dr f w) as [w'|] eqn:Hrun; [|apply Hsame; reflexivity].
    apply Hlook. simpl.
    destruct (objects_processBill dr f w w' Hrun) as [-> _].
    rewrite sellAll_bumpAll, bumpAll_off_inventory by exact Hinv.
    unfold deepCopy. cbn [fst]. apply lookup_app_l, Hl.
  - apply Hsame. unfold addGrnItem. destruct qtyInput as [q|]; [|reflexivity].
    destruct (_ || _); [reflexivity|].
    destruct (inventoryItemByCode _ w); [|reflexivity].
    destruct (findLoc _ (grnObjects w) (currentGrnItems w)); reflexivity.
  - unfold createGrn. destruct (currentGrnItems w) as [|g0 gs];
      [apply Hsame; reflexivity|].
    destruct (_ || _); [apply Hsame; reflexivity|].
    apply Hlook. simpl. rewrite receiveAll_bumpAll.
    apply bumpAll_off_inventory, Hinv.
  - apply Hsame. reflexivity.
  - apply Hsame. reflexivity.
  - apply Hsame. reflexivity.
  - apply Hsame. reflexivity.
  - apply Hsame. reflexivity.
  - apply Hsame. unfold showSection.
    destruct (sectionId =? "billing-section");
      [apply objects_resetBillingForm|].
    destruct (sectionId =? "grn-section"); reflexivity.
Qed.

Lemma objects_perform (w : World) (c : Command) (l : loc) :
  (l < length (objects w))%nat ->
  l ∉ inventory (posData w) -> l ∉ editLoc w ->
  (l ∉ currentCart w -> objects (perform w c) !! l = objects w !! l)
  /\ forall (B : Type) (view : Item -> B),
       (forall q' o, view (set_qty q' o) = view o) ->
       view <$> objects (perform w c) !! l = view <$> objects w !! l.
Proof.
  intros Hl Hinv Hed.
  destruct c as [e|newId f|id f|id|id|id|id|eid v|itemId]; cbn [perform];
    [apply objects_handle; assumption|..]; split; reflexivity.
Qed.

(** ** Recorded sales, cart lines and the subtotal over the sessions *)

Lemma sales_perform (w : World) (c : Command) :
  exists more, sales (posData (perform w c)) = sales (posData w) ++ more.
Proof.
  assert (Hsame : forall w', sales (posData w') = sales (posData w) ->
            exists more, sales (posData w') = sales (posData w) ++ more).
  { intros w' ->. exists []. rewrite app_nil_r. reflexivity. }
  destruct c as [e|newId f|id f|id|id|id|id|eid v|itemId]; cbn [perform].
  - pose proof (handle_ledger_frame w e) as Hf.
    event_cases e;
      try (destruct Hf as (_ & _ & _ & _ & E5); apply Hsame; exact E5).
    + destruct (processBill dr f w) as [w'|] eqn:Hrun;
        [|apply Hsame; reflexivity].
      cbn [after].
      destruct (processBill_shape dr f w w' Hrun) as (_ & sale & -> & _).
      eauto.
    + apply Hsame, addInstallment_frame.
    + apply Hsame, deleteCreditBill_frame.
    + apply Hsame, updateChequeStatus_frame.
  - apply Hsame. unfold onDoc, addCustomer. simpl.
    destruct (customerCreditLimitInput f) as [l|]; [|reflexivity].
    destruct (Qltb l 0); reflexivity.
  - apply Hsame. unfold onDoc, editCustomer. simpl.
    destruct (findIndex _ _); [|reflexivity].
    destruct (customerCreditLimitInput f) as [l|]; [|reflexivity].
    destruct (Qltb l 0); reflexivity.
  - apply Hsame. unfold onDoc, deleteCustomer. simpl.
    destruct (hasOutstandingCredit _ _); reflexivity.
  - apply Hsame. reflexivity.
  - apply Hsame. reflexivity.
  - apply Hsame. reflexivity.
  - apply Hsame. unfold onDoc, saveCreditBillChanges. simpl.
    destruct (findCreditBill _ _); reflexivity.
  - apply Hsame. reflexivity.
Qed.

(** X5: no handler rewrites history.  On every page of a session,
    whatever command comes next, the sales on record stay on record, in
    order and with the fields they have (new sales are appended), and every
    line object of every recorded sale stays as it is. *)
Theorem recorded_sales_are_final (data : option RawDoc) (cs : list Command)
    (c : Command) :
  let w := session data cs in
  let w' := perform w c in
  (exists more, sales (posData w') = sales (posData w) ++ more)
  /\ forall l, l ∈ saleLines w -> objects w' !! l = objects w !! l.
Proof.
  cbv zeta. split; [apply sales_perform|].
  destruct (storeInv_session data cs) as (Hwf & Ha & _).
  intros l Hl. pose proof Hwf as [_ Hsep]. destruct (Hsep l Hl) as [H1 H2].
  apply objects_perform; auto.
  - apply wf_valid; auto.
  - intros Hc. destruct (Ha l Hc) as (_ & _ & _ & H4). auto.
Qed.

(** X6: the lines of the cart are copies.  On every page of a session,
    whatever command comes next, a cart line keeps its id, code, name,
    description, price and the rest; only its quantity may change.  In
    particular a price edited in the inventory does not reach a line that
    is already in the cart. *)
Theorem cart_lines_change_in_quantity_only (data : option RawDoc)
    (cs : list Command) (c : Command) :
  let w := session data cs in
  forall l, l ∈ currentCart w ->
    set_qty None <$> objects (perform w c) !! l
    = set_qty None <$> objects w !! l.
Proof.
  cbv zeta. destruct (storeInv_session data cs) as (Hwf & Ha & _).
  intros l Hl. destruct (Ha l Hl) as (H1 & H2 & H3 & _).
  apply (objects_perform (session data cs) c l H1 H2 H3). reflexivity.
Qed.







(** ** Customers *)

(** X9: a customer is deleted only when no credit bill of that customer
    has an amount due.  With such a bill the request is refused and nothing
    changes; without one the customers with that id are removed, the others
    stay in order, and credit bills, payments and sales stay as they are. *)
Theorem deleteCustomer_guard {R G : Type} (d : POSData R G) (id : string) :
  (forall b, b ∈ creditBills d -> customerId b = id -> (0 < dueAmount b)%Q ->
             isOk (deleteCustomer id d) = false
             /\ after (deleteCustomer id d) d = d)
  /\ ((forall b, b ∈ creditBills d -> customerId b = id ->
                 (dueAmount b <= 0)%Q) ->
      exists d',
        deleteCustomer id d = Ok d'
        /\ (forall c, c ∈ customers d' <-> c ∈ customers d /\ cust_id c <> id)
        /\ customers d' `sublist_of` customers d
        /\ creditBills d' = creditBills d
        /\ payments d' = payments d
        /\ sales d' = sales d).
Proof.
  split.
  - intros b Hb Hid Hdue. unfold deleteCustomer.
    destruct (hasOutstandingCredit id d) eqn:Hout; [split; reflexivity|].
    exfalso. exact (hasOutstandingCredit_false d id b Hout Hb Hdue Hid).
  - intros Hpaid. unfold deleteCustomer.
    destruct (hasOutstandingCredit id d) eqn:Hout.
    + exfalso. unfold hasOutstandingCredit in Hout.
      apply existsb_exists in Hout as (b & Hb & Hc).
      apply andb_true_iff in Hc as [Hid Hdue].
      apply String.eqb_eq in Hid. apply Qltb_lt in Hdue.
      apply list_elem_of_In in Hb. specialize (Hpaid b Hb Hid). lra.
    + eexists. split; [reflexivity|]. simpl.
      split; [|split; [apply sublist_filter|repeat split; reflexivity]].
      intros c. rewrite elem_of_filter_b, negb_true_iff, String.eqb_neq. tauto.
Qed.

(** X10: after a bill has been processed on credit with a positive grand
    total, the customer it was billed to cannot be deleted. *)
Theorem credit_sale_blocks_deletion (dr : Draw) (f : BillForm) (w w' : World) :
  paymentMethodSelect f = "credit" ->
  (0 < cartGrandtotalSpan w)%Q ->
  processBill dr f w = Ok w' ->
  deleteCustomer (registeredCustomerDropdown f) (posData w')
  = Err "Cannot delete customer with outstanding credit bills. Please settle all credit bills first.".
Proof.
  intros Hm Hgt Hrun.
  destruct (processBill_ledger dr f w w' Hrun)
    as (sale & cd & _ & _ & _ & _ & _ & _ & _ & _ & Hcredit).
  rewrite Hm in Hcredit.
  destruct (Hcredit eq_refl) as (ci & c & Hci & Hc & _ & _ & Hbills).
  destruct (findIndex_Some _ _ _ Hci) as (c0 & Hc0 & Hid & _).
  rewrite Hc in Hc0. injection Hc0 as <-. apply String.eqb_eq in Hid.
  unfold deleteCustomer.
  destruct (hasOutstandingCredit _ (posData w')) eqn:Hout; [reflexivity|].
  exfalso.
  refine (hasOutstandingCredit_false (posData w') _
            (mkCreditBill (uuidCreditBill dr)
                          (String.append "BILL-" (nowStamp dr)) (cust_id c)
                          (cartGrandtotalSpan w) 0 (cartGrandtotalSpan w)
                          (today dr) "" [])
            Hout _ Hgt Hid).
  rewrite Hbills, elem_of_app, list_elem_of_singleton. right. reflexivity.
Qed.

(** ** Processing a bill *)



(** ** Installments by cheque *)


(** ** Manual lines *)


(** ** The dashboard after a sale *)






(** ** The receipt of a sale whose channel has been deleted *)

Lemma findIndex_lookup_filter {A : Type} (key : A -> string) (l : list A)
    (k id : string) :
  k <> id ->
  (findIndex (fun c => key c =? k) (filter (fun c => negb (key c =? id)) l)
   ≫= fun i => filter (fun c => negb (key c =? id)) l !! i)
  = (findIndex (fun c => key c =? k) l ≫= fun i => l !! i).
Proof.
  intros Hne. induction l as [|a l IH]; [reflexivity|].
  rewrite filter_cons_b. destruct (key a =? id) eqn:Ea; simpl.
  - apply String.eqb_eq in Ea.
    assert (Ek : (key a =? k) = false).
    { apply String.eqb_neq. congruence. }
    rewrite Ek, IH.
    destruct (findIndex _ l) as [i|]; reflexivity.
  - destruct (key a =? k); [reflexivity|].
    destruct (findIndex _ (filter _ l)) as [i|];
      destruct (findIndex _ l) as [j|]; simpl in *; exact IH.
Qed.

Lemma findIndex_filter_out {A : Type} (key : A -> string) (l : list A)
    (id : string) :
  findIndex (fun c => key c =? id) (filter (fun c => negb (key c =? id)) l)
  = None.
Proof.
  induction l as [|a l IH]; [reflexivity|].
  rewrite filter_cons_b. destruct (key a =? id) eqn:Ea; simpl; [exact IH|].
  rewrite Ea, IH. reflexivity.
Qed.

Lemma receiptHead_found {R G : Type} (sale : Sale R) (d : POSData R G) :
  receiptHead sale d
  = match findIndex (fun c => ch_id c =? channelId sale)
                    (distributionChannels d) with
    | Some i =>
        (fun c => (ch_receiptLogo c, ch_name c, ch_address c, hotline c))
          <$> (findIndex (fun c => ch_id c =? channelId sale)
                         (distributionChannels d)
               ≫= fun i => distributionChannels d !! i)
    | None =>
        (fun s => (receiptLogo s, shop_name s, shop_address s, shop_tp s))
          <$> shop d
    end.
Proof.
  unfold receiptHead.
  destruct (findIndex _ (distributionChannels d)) as [i|]; simpl.
  - destruct (distributionChannels d !! i); reflexivity.
  - destruct (shop d); reflexivity.
Qed.

(** X16: receipts after a channel is deleted.  A sale of the deleted
    channel is from then on shown with the logo, name, address and
    telephone of the shop; the receipt of a sale of any other channel has
    the head it had before. *)
Theorem receipt_after_channel_deleted {R G : Type} (id : string)
    (d d' : POSData R G) (sale : Sale R) :
  deleteDistributionChannel id d = Ok d' ->
  (channelId sale = id ->
   receiptHead sale d'
   = (fun s => (receiptLogo s, shop_name s, shop_address s, shop_tp s))
       <$> shop d)
  /\ (channelId sale <> id -> receiptHead sale d' = receiptHead sale d).
Proof.
  unfold deleteDistributionChannel. destruct (id =? "main"); [discriminate|].
  intros [= <-]. split.
  - intros E. rewrite receiptHead_found. cbn [distributionChannels
      set_distributionChannels shop]. rewrite E, findIndex_filter_out.
    reflexivity.
  - intros Hne. unfold receiptHead.
    cbn [distributionChannels set_distributionChannels shop].
    pose proof (findIndex_lookup_filter ch_id (distributionChannels d)
                  (channelId sale) id Hne) as Hl.
    destruct (findIndex _ (filter _ (distributionChannels d))) as [i|] eqn:Ei;
      destruct (findIndex _ (distributionChannels d)) as [j|] eqn:Ej;
      simpl in Hl.
    + rewrite Hl. reflexivity.
    + apply findIndex_Some in Ei. destruct Ei as (c & Hc & _).
      rewrite Hc in Hl. discriminate.
    + apply findIndex_Some in Ej. destruct Ej as (c & Hc & _).
      rewrite Hc in Hl. discriminate.
    + reflexivity.
Qed.

(** ** Saving and loading *)

Lemma stringifyAll_seq {A : Type} (json : A -> A) (h0 xs h1 : list A) :
  stringifyAll json (h0 ++ xs ++ h1) (seq (length h0) (length xs))
  = json <$> xs.
Proof.
  unfold stringifyAll. revert h0. induction xs as [|x xs IH]; intros h0.
  - reflexivity.
  - cbn [length seq omap list_omap fmap list_fmap].
    rewrite lookup_app_r by lia. rewrite Nat.sub_diag. simpl.
    f_equal.
    specialize (IH (h0 ++ [x])). rewrite length_app in IH. simpl in IH.
    rewrite Nat.add_1_r in IH. rewrite <- app_assoc in IH. exact IH.
Qed.


Lemma stringifyAll_json {A : Type} (json : A -> A) (h : list A)
    (ls : list loc) (P : A -> Prop) :
  (forall l o, l ∈ ls -> h !! l = Some o -> P o) ->
  Forall (fun x => exists o, x = json o /\ P o) (stringifyAll json h ls).
Proof.
  unfold stringifyAll. induction ls as [|l ls IH]; intros H; [constructor|].
  cbn [omap list_omap].
  assert (Hr : Forall (fun x => exists o, x = json o /\ P o)
                      (omap (fun l => json <$> h !! l) ls)).
  { apply IH. intros l' o Hl'. apply H. right. exact Hl'. }
  destruct (h !! l) as [o|] eqn:Ho; simpl; [|exact Hr].
  constructor; [|exact Hr]. exists o. split; [reflexivity|].
  apply (H l); [left|exact Ho].
Qed.

Lemma fmap_id_on {A : Type} (g : A -> A) (l : list A) :
  Forall (fun x => g x = x) l -> g <$> l = l.
Proof.
  induction 1 as [|x l Hx _ IH]; [reflexivity|]. cbn. rewrite Hx, IH.
  reflexivity.
Qed.

Lemma jsonItem_idem (o : Item) : jsonItem (jsonItem o) = jsonItem o.
Proof. destruct o as [i c n d p [z| | |] t q]; reflexivity. Qed.

Lemma jsonItem_migrate (o : Item) :
  threshold o <> None -> jsonItem (migrateItem (jsonItem o)) = jsonItem o.
Proof.
  intros H. destruct o as [i c n d p s [t|] q]; [|cbn in H; congruence].
  unfold migrateItem, jsonItem. cbn.
  destruct (t =? 0)%Z eqn:E; [apply Z.eqb_eq in E; subst t|];
    destruct s; reflexivity.
Qed.


(** The sales as [boot] puts them into the store: the store grows by the
    items of each sale, and what is written out of the new sales is the
    parsed sales themselves, item by item. *)
Lemma internSale_stringify (ss : list (Sale Item)) (h0 : list Item)
    (acc0 : list (Sale loc)) :
  let r := fold_left internSale ss (h0, acc0) in
  exists h1 tail,
    fst r = h0 ++ h1 /\ snd r = acc0 ++ tail
    /\ forall h2, stringifySale (h0 ++ h1 ++ h2) <$> tail = jsonSale <$> ss.
Proof.
  revert h0 acc0. induction ss as [|s ss IH]; intros h0 acc0; cbv zeta.
  - exists [], []. simpl. rewrite !app_nil_r. auto.
  - cbn [fold_left]. unfold internSale at 2 4. cbn [fst snd].
    destruct (IH (h0 ++ sale_items s)
                 (acc0 ++ [mkSale (sale_id s) (sale_date s) (sale_time s)
                             (sale_customer s) (channelId s)
                             (seq (length h0) (length (sale_items s)))
                             (subtotal s) (discountType s) (discountValue s)
                             (discountAmount s) (grandTotal s)
                             (paymentMethod s) (paymentRef s)
                             (sale_chequeDetails s)]))
      as (h1 & tail & E1 & E2 & E3).
    cbv zeta in E1, E2.
    eexists (sale_items s ++ h1), (_ :: tail).
    split; [rewrite E1, <- app_assoc; reflexivity|].
    split; [rewrite E2, <- app_assoc; reflexivity|].
    intros h2. cbn [fmap list_fmap]. f_equal.
    + unfold stringifySale, jsonSale. cbn [sale_items]. f_equal.
      rewrite <- app_assoc.
      apply (stringifyAll_seq jsonItem h0 (sale_items s) (h1 ++ h2)).
    + specialize (E3 h2). rewrite <- !app_assoc in E3.
      rewrite <- app_assoc. exact E3.
Qed.

Lemma internGrn_stringify (gs : list (Grn GrnLine)) (h0 : list GrnLine)
    (acc0 : list (Grn loc)) :
  let r := fold_left internGrn gs (h0, acc0) in
  exists h1 tail,
    fst r = h0 ++ h1 /\ snd r = acc0 ++ tail
    /\ forall h2, stringifyGrn (h0 ++ h1 ++ h2) <$> tail = gs.
Proof.
  revert h0 acc0. induction gs as [|g gs IH]; intros h0 acc0; cbv zeta.
  - exists [], []. simpl. rewrite !app_nil_r. auto.
  - cbn [fold_left]. unfold internGrn at 2 4. cbn [fst snd].
    destruct (IH (h0 ++ grn_items g)
                 (acc0 ++ [mkGrn (grn_id g) (grn_date g) (supplier g)
                             (seq (length h0) (length (grn_items g)))]))
      as (h1 & tail & E1 & E2 & E3).
    cbv zeta in E1, E2.
    eexists (grn_items g ++ h1), (_ :: tail).
    split; [rewrite E1, <- app_assoc; reflexivity|].
    split; [rewrite E2, <- app_assoc; reflexivity|].
    intros h2. cbn [fmap list_fmap]. f_equal.
    + unfold stringifyGrn. cbn [grn_items grn_id grn_date supplier].
      rewrite <- app_assoc.
      rewrite (stringifyAll_seq jsonGrnLine h0 (grn_items g) (h1 ++ h2)).
      unfold jsonGrnLine. rewrite list_fmap_id. destruct g; reflexivity.
    + specialize (E3 h2). rewrite <- !app_assoc in E3.
      rewrite <- app_assoc. exact E3.
Qed.

Lemma jsonSale_stringify (h : list Item) (s : Sale loc) :
  jsonSale (stringifySale h s) = stringifySale h s.
Proof.
  unfold jsonSale, stringifySale. cbn. f_equal.
  apply fmap_id_on.
  eapply Forall_impl;
    [exact (stringifyAll_json jsonItem h (sale_items s) (fun _ => True)
              (fun _ _ _ _ => I))|].
  intros x (o & -> & _). apply jsonItem_idem.
Qed.

(** What is written out after a reload, in terms of what was loaded. *)
Lemma savePOSData_reload (w : World) :
  savePOSData (reload w)
  = let d := posData w in
    mkRawDoc (match shop d with Some s => Present s | None => JNull end)
             (Present (jsonItem <$>
                (migrateItem <$>
                   stringifyAll jsonItem (objects w) (inventory d))))
             (Present (customers d))
             (Present (distributionChannels d))
             (Present (stringifySale (objects w) <$> sales d))
             (Present (stringifyGrn (grnObjects w) <$> grns d))
             (Present (quotations d))
             (Present (payments d))
             (Present (creditBills d))
             (Present (cheques d)).
Proof.
  cbv zeta. unfold reload, boot, savePOSData at 1.
  set (raw := savePOSData w).
  set (d := loadPOSData (Some raw)).
  destruct (internSale_stringify (sales d) (inventory d) [])
    as (h1 & tail & E1 & E2 & E3). cbv zeta in E1, E2.
  destruct (internGrn_stringify (grns d) [] [])
    as (g1 & gtail & G1 & G2 & G3). cbv zeta in G1, G2.
  cbn [posData objects grnObjects shop inventory customers
       distributionChannels sales grns quotations payments creditBills
       cheques].
  rewrite E1, E2, G1, G2. cbn [app].
  specialize (E3 []). rewrite app_nil_r in E3. rewrite E3.
  specialize (G3 []). rewrite app_nil_r in G3. cbn [app] in G3. rewrite G3.
  rewrite <- (length_seq 0 (length (inventory d))) at 1.
  pose proof (stringifyAll_seq jsonItem [] (inventory d) h1) as Hinv.
  cbn [app length] in Hinv. rewrite length_seq. rewrite Hinv.
  subst d raw. unfold loadPOSData, savePOSData.
  cbn [r_shop r_inventory r_customers r_distributionChannels r_sales r_grns
       r_quotations r_payments r_creditBills r_cheques spread orElse toOption
       shop inventory customers distributionChannels sales grns quotations
       payments creditBills cheques].
  f_equal.
  - destruct (shop (posData w)); reflexivity.
  - f_equal. rewrite <- list_fmap_compose. apply list_fmap_ext.
    intros i s _. apply jsonSale_stringify.
Qed.

(** ** Inventory entries keep their threshold *)

Lemma keepsThresholds_refl (h : list Item) : keepsThresholds h h.
Proof. intros l o Ho Ht. exists o. auto. Qed.

Lemma keepsThresholds_app (h k : list Item) : keepsThresholds h (h ++ k).
Proof.
  intros l o Ho Ht. exists o. split; [|exact Ht].
  rewrite lookup_app_l; [exact Ho|]. eapply lookup_lt_Some, Ho.
Qed.

Lemma keepsThresholds_view (h h' : list Item) :
  (forall l, threshold <$> h' !! l = threshold <$> h !! l) ->
  keepsThresholds h h'.
Proof.
  intros Hv l o Ho Ht. specialize (Hv l). rewrite Ho in Hv.
  destruct (h' !! l) as [o'|]; [|discriminate].
  exists o'. split; [reflexivity|]. simpl in Hv. congruence.
Qed.

Lemma keepsThresholds_alter (g : Item -> Item) (i : nat) (h : list Item) :
  (forall o, threshold o <> None -> threshold (g o) <> None) ->
  keepsThresholds h (alter g i h).
Proof.
  intros Hg l o Ho Ht. destruct (decide (i = l)) as [->|Hne].
  - exists (g o). rewrite list_lookup_alter_eq, Ho. auto.
  - exists o. rewrite list_lookup_alter_ne by exact Hne. auto.
Qed.

Lemma keepsThresholds_trans (h1 h2 h3 : list Item) :
  keepsThresholds h1 h2 -> keepsThresholds h2 h3 -> keepsThresholds h1 h3.
Proof.
  intros H1 H2 l o Ho Ht. destruct (H1 l o Ho Ht) as (o' & Ho' & Ht').
  exact (H2 l o' Ho' Ht').
Qed.

Lemma thresholdsSet_frame (w w' : World) :
  keepsThresholds (objects w) (objects w') ->
  (forall l, l ∈ inventory (posData w') -> l ∈ inventory (posData w)) ->
  thresholdsSet w -> thresholdsSet w'.
Proof.
  intros Hk Hi H l Hl. destruct (H l (Hi l Hl)) as (o & Ho & Ht).
  exact (Hk l o Ho Ht).
Qed.

Lemma thresholdsSet_addItemToCart (item : Item) (q : Z) (w : World) :
  thresholdsSet w -> thresholdsSet (after (addItemToCart item q w) w).
Proof.
  intros H. unfold addItemToCart.
  destruct (findLoc _ (objects w) (currentCart w)) as [existing|].
  - destruct (overStock _ _); [exact H|]. simpl.
    match goal with |- thresholdsSet (renderCart ?x) =>
      destruct (renderCart_frame x) as (Ho & Hp & _) end.
    revert H. apply thresholdsSet_frame.
    + rewrite Ho. cbn [objects set_objects].
      apply keepsThresholds_alter. intros o Ht. exact Ht.
    + rewrite Hp. intros l Hl. exact Hl.
  - destruct (overStock _ _); [exact H|]. simpl.
    match goal with |- thresholdsSet (renderCart ?x) =>
      destruct (renderCart_frame x) as (Ho & Hp & _) end.
    revert H. apply thresholdsSet_frame.
    + rewrite Ho. cbn [objects set_objects set_currentCart].
      apply keepsThresholds_app.
    + rewrite Hp. intros l Hl. exact Hl.
Qed.

Lemma thresholdsSet_handle (w : World) (e : Event) :
  thresholdsSet w -> thresholdsSet (handle w e).
Proof.
  intros H.
  assert (Hsame : forall w', objects w' = objects w ->
            inventory (posData w') = inventory (posData w) ->
            thresholdsSet w').
  { intros w' Eo Ei. revert H. apply thresholdsSet_frame.
    - rewrite Eo. apply keepsThresholds_refl.
    - rewrite Ei. auto. }
  event_cases e.
  - (* AddInventoryItem *)
    unfold addInventoryItem.
    destruct (validNumbers f) as [[[p s] t]|]; [|exact H].
    destruct (findLoc _ (objects w) (inventory (posData w))); [exact H|].
    simpl. intros l Hl.
    cbn [objects set_objects set_posData posData inventory set_inventory]
      in *.
    apply elem_of_app in Hl as [Hl|Hl].
    + destruct (H l Hl) as (o & Ho & Ht).
      exact (keepsThresholds_app _ _ l o Ho Ht).
    + apply list_elem_of_singleton in Hl. subst l.
      eexists. rewrite lookup_app_r by lia. rewrite Nat.sub_diag.
      split; [reflexivity|]. discriminate.
  - (* EditInventoryItem *)
    unfold editInventoryItem.
    destruct (findLoc _ (objects w) (inventory (posData w))); [|exact H].
    apply Hsame; reflexivity.
  - (* SubmitEdit *)
    unfold editSubmit. destruct (editing w) as [[item id]|]; [|exact H].
    destruct (validNumbers f) as [[[p s] t]|]; [|exact H].
    destruct (_ && _); [exact H|]. simpl.
    revert H. apply thresholdsSet_frame; simpl; [|auto].
    apply keepsThresholds_alter. intros o _. discriminate.
  - (* DeleteInventoryItem *)
    revert H. apply thresholdsSet_frame; simpl.
    + apply keepsThresholds_refl.
    + intros l Hl. apply elem_of_filter_b in Hl. apply Hl.
  - (* AddItemByBarcode *)
    unfold addItemByBarcode. destruct (trim barcodeInput =? ""); [exact H|].
    destruct (inventoryItemByCode _ w) as [item|]; [|exact H].
    apply thresholdsSet_addItemToCart, H.
  - (* AddManualItem *)
    unfold addManualItem.
    destruct priceInput as [p|]; [|exact H].
    destruct qtyInput as [q|]; [|exact H].
    destruct (_ || _); [exact H|].
    destruct (inventoryItemByCode _ w) as [it|];
      [|apply thresholdsSet_addItemToCart, H].
    destruct (exceeds q (stock it)); [exact H|].
    apply thresholdsSet_addItemToCart, H.
  - (* RemoveCartItem *)
    unfold removeCartItem.
    match goal with |- thresholdsSet (renderCart ?x) =>
      destruct (renderCart_frame x) as (Ho & Hp & _) end.
    apply Hsame; [rewrite Ho|rewrite Hp]; reflexivity.
  - (* DiscountValueInput *)
    unfold onDiscountValueInput.
    destruct (calculateGrandTotal_frame None (set_discountValueInput v w))
      as (Ho & Hp & _).
    apply Hsame; [rewrite Ho|rewrite Hp]; reflexivity.
  - (* DiscountTypeChange *)
    unfold onDiscountTypeChange.
    destruct (calculateGrandTotal_frame None (set_discountTypeSelect ty w))
      as (Ho & Hp & _).
    apply Hsame; [rewrite Ho|rewrite Hp]; reflexivity.
  - (* ProcessBill *)
    destruct (processBill dr f w) as [w'|] eqn:Hrun; [|exact H]. simpl.
    destruct (objects_processBill dr f w w' Hrun) as [Ho Hp].
    revert H. apply thresholdsSet_frame; [|rewrite Hp; auto].
    rewrite Ho, sellAll_bumpAll.
    eapply keepsThresholds_trans; [apply keepsThresholds_app|].
    apply keepsThresholds_view. intros l.
    apply bumpAll_keeps. reflexivity.
  - (* AddGrnItem *)
    unfold addGrnItem. destruct qtyInput as [q|]; [|exact H].
    destruct (_ || _); [exact H|].
    destruct (inventoryItemByCode _ w); [|exact H].
    destruct (findLoc _ (grnObjects w) (currentGrnItems w));
      apply Hsame; reflexivity.
  - (* CreateGrn *)
    unfold createGrn. destruct (currentGrnItems w) as [|g0 gs]; [exact H|].
    destruct (_ || _); [exact H|]. simpl.
    revert H. apply thresholdsSet_frame; simpl; [|auto].
    rewrite receiveAll_bumpAll.
    apply keepsThresholds_view. intros l.
    apply bumpAll_keeps. reflexivity.
  - (* AddInstallment *)
    destruct (addInstallment_frame eid tday payId chqId f (posData w))
      as [Hi _].
    apply Hsame; simpl; [reflexivity|exact Hi].
  - destruct (deleteCreditBill_frame id (posData w)) as [Hi _].
    apply Hsame; simpl; [reflexivity|exact Hi].
  - destruct (updateChequeStatus_frame id newStatus (posData w)) as [Hi _].
    apply Hsame; simpl; [reflexivity|exact Hi].
  - destruct (channels_frame (posData w)) as [Hadd _].
    destruct (Hadd newId cname cregNo caddress chotline logo) as [Hi _].
    apply Hsame; simpl; [reflexivity|exact Hi].
  - destruct (channels_frame (posData w)) as [_ Hdel].
    destruct (Hdel id) as [Hi _].
    apply Hsame; simpl; [reflexivity|exact Hi].
  - (* ShowSection *)
    unfold showSection. destruct (sectionId =? "billing-section").
    + destruct (resetBillingForm_frame w) as (Ho & Hp & _).
      apply Hsame; [rewrite Ho|rewrite Hp]; reflexivity.
    + destruct (sectionId =? "grn-section"); [|exact H].
      apply Hsame; reflexivity.
Qed.

Lemma thresholdsSet_perform (w : World) (c : Command) :
  thresholdsSet w -> thresholdsSet (perform w c).
Proof.
  intros H.
  assert (Hdoc : forall g, (forall d, inventory (g d) = inventory d) ->
                           thresholdsSet (onDoc g w)).
  { intros g Hg. revert H. apply thresholdsSet_frame; simpl.
    - apply keepsThresholds_refl.
    - rewrite Hg. auto. }
  destruct c as [e|newId f|id f|id|id|id|id|eid v|itemId]; cbn [perform].
  - apply thresholdsSet_handle, H.
  - apply Hdoc. intros d. unfold addCustomer.
    destruct (customerCreditLimitInput f) as [l|]; [|reflexivity].
    destruct (Qltb l 0); reflexivity.
  - apply Hdoc. intros d. unfold editCustomer.
    destruct (findIndex _ _); [|reflexivity].
    destruct (customerCreditLimitInput f) as [l|]; [|reflexivity].
    destruct (Qltb l 0); reflexivity.
  - apply Hdoc. intros d. unfold deleteCustomer.
    destruct (hasOutstandingCredit _ _); reflexivity.
  - apply Hdoc. reflexivity.
  - apply Hdoc. reflexivity.
  - apply Hdoc. reflexivity.
  - apply Hdoc. intros d. unfold saveCreditBillChanges.
    destruct (findCreditBill _ _); reflexivity.
  - exact H.
Qed.

Lemma thresholdsSet_boot (data : option RawDoc) : thresholdsSet (boot data).
Proof.
  unfold boot. set (d := loadPOSData data).
  destruct (internSale_stringify (sales d) (inventory d) [])
    as (h1 & tail & E1 & _). cbv zeta in E1.
  intros l Hl. cbn [posData objects inventory] in *. rewrite E1.
  apply elem_of_seq in Hl. destruct Hl as [_ Hl]. simpl in Hl.
  destruct (lookup_lt_is_Some_2 (inventory d) l Hl) as [o Ho].
  exists o. split; [rewrite lookup_app_l by exact Hl; exact Ho|].
  apply list_elem_of_lookup_2 in Ho. subst d.
  destruct data as [raw|]; [|inversion Ho].
  cbn [loadPOSData inventory] in Ho.
  apply list_elem_of_fmap in Ho as (o0 & -> & _). discriminate.
Qed.

Lemma thresholdsSet_session (data : option RawDoc) (cs : list Command) :
  thresholdsSet (session data cs).
Proof.
  induction cs as [|c cs IH] using rev_ind.
  - apply thresholdsSet_boot.
  - rewrite session_snoc. apply thresholdsSet_perform, IH.
Qed.

Lemma savePOSData_fixed (w : World) :
  thresholdsSet w -> savePOSData (reload w) = savePOSData w.
Proof.
  intros H. rewrite savePOSData_reload. cbv zeta. unfold savePOSData.
  f_equal. f_equal. rewrite <- list_fmap_compose. apply fmap_id_on.
  eapply Forall_impl;
    [apply (stringifyAll_json jsonItem (objects w) (inventory (posData w))
              (fun o => threshold o <> None))|].
  - intros l o Hl Ho. destruct (H l Hl) as (o' & Ho' & Ht). congruence.
  - intros x (o & -> & Ht). apply (jsonItem_migrate o Ht).
Qed.

(** X17: saving and loading.  In any state a session reaches, the page
    loaded anew on what has been saved holds the shop, the customers, the
    channels, the quotations, the payments, the credit bills and the
    cheques as they were, and it saves the very document it was loaded
    from: inventory, sales and GRNs come back with every item as it was
    written. *)
Theorem reload_gives_back_what_was_saved (data : option RawDoc)
    (cs : list Command) :
  let w := session data cs in
  let d := posData w in
  let d' := posData (reload w) in
  shop d' = shop d
  /\ customers d' = customers d
  /\ distributionChannels d' = distributionChannels d
  /\ quotations d' = quotations d
  /\ payments d' = payments d
  /\ creditBills d' = creditBills d
  /\ cheques d' = cheques d
  /\ savePOSData (reload w) = savePOSData w.
Proof.
  cbv zeta. split; [|repeat split].
  - unfold reload, boot, loadPOSData, savePOSData. simpl.
    destruct (shop (posData (session data cs))); reflexivity.
  - apply savePOSData_fixed, thresholdsSet_session.
Qed.

(** ** Accounts *)


(** ** The steps of the settings dialog *)

Lemma press_bound (n c : nat) (b : StepButton) :
  (c <= n - 1)%nat -> (press n c b <= n - 1)%nat.
Proof.
  intros H. destruct b; unfold press, nextStep, prevStep.
  - destruct (Z.ltb_spec (Z.of_nat c) (Z.of_nat n - 1)); lia.
  - destruct (0 <? c)%nat; lia.
Qed.

(** X19: whatever is clicked, the step shown is one of the dialog's: with
    [n] steps, [currentStep] stays at most [n - 1], and [showStep] displays
    the step [currentStep] and no other.  At the last step the next button
    does nothing, at the first the previous button does nothing, and in
    between one undoes the other. *)
Theorem step_stays_in_range (n : nat) (clicks : list StepButton) :
  let c := stepAfter n clicks in
  (c <= n - 1)%nat
  /\ (forall i, showStep n c !! i = Some true <-> i = c /\ (i < n)%nat)
  /\ nextStep n (n - 1) = (n - 1)%nat
  /\ prevStep 0 = 0%nat
  /\ ((S c < n)%nat -> prevStep (nextStep n c) = c)
  /\ ((0 < c)%nat -> nextStep n (prevStep c) = c).
Proof.
  cbv zeta.
  assert (Hc : (stepAfter n clicks <= n - 1)%nat).
  { unfold stepAfter. induction clicks as [|b bs IH] using rev_ind.
    - simpl. lia.
    - rewrite fold_left_app. simpl. apply press_bound, IH. }
  split; [exact Hc|]. split; [|split; [|split; [|split]]].
  - intros i. unfold showStep. rewrite list_lookup_fmap.
    destruct (decide (i < n)%nat) as [Hi|Hi].
    + rewrite lookup_seq_lt by exact Hi. simpl. split.
      * intros [= E]. apply Nat.eqb_eq in E. auto.
      * intros [-> _]. rewrite Nat.eqb_refl. reflexivity.
    + rewrite lookup_seq_ge by lia. simpl. split; [discriminate|].
      intros [_ H]. contradiction.
  - unfold nextStep.
    destruct (Z.ltb_spec (Z.of_nat (n - 1)) (Z.of_nat n - 1)); lia.
  - reflexivity.
  - intros H. unfold nextStep, prevStep.
    destruct (Z.ltb_spec (Z.of_nat (stepAfter n clicks)) (Z.of_nat n - 1));
      [|lia].
    reflexivity.
  - intros H. unfold nextStep, prevStep.
    destruct (Nat.ltb_spec 0 (stepAfter n clicks)); [|lia].
    destruct (Z.ltb_spec (Z.of_nat (Nat.pred (stepAfter n clicks)))
                         (Z.of_nat n - 1)); lia.
Qed.

(** ** Codes and ids of the inventory stay unique *)

Lemma uniqueBy_of_NoDup {K : Type} (key : Item -> K) (w : World) :
  NoDup (key <$> inventoryObjects w) -> uniqueBy key w.
Proof.
  unfold uniqueBy, inventoryObjects.
  generalize (objects w) as h. generalize (inventory (posData w)) as ls.
  induction ls as [|a ls IH]; intros h Hnd l1 l2 o1 o2 H1 H2 E1 E2 Ek.
  - inversion H1.
  - cbn [omap list_omap] in Hnd.
    assert (Hin : forall l o, l ∈ ls -> h !! l = Some o ->
                    key o ∈ key <$> omap (fun l => h !! l) ls).
    { intros l o Hl Ho. apply list_elem_of_fmap. exists o.
      split; [reflexivity|]. apply list_elem_of_omap. eauto. }
    apply elem_of_cons in H1, H2.
    destruct (h !! a) as [oa|] eqn:Ha; cbn in Hnd.
    + apply NoDup_cons in Hnd as [Hfresh Hnd].
      destruct H1 as [->|H1], H2 as [->|H2]; [reflexivity| | |eauto].
      * exfalso. apply Hfresh. assert (oa = o1) by congruence. subst oa.
        rewrite Ek. eauto.
      * exfalso. apply Hfresh. assert (oa = o2) by congruence. subst oa.
        rewrite <- Ek. eauto.
    + destruct H1 as [->|H1]; [congruence|].
      destruct H2 as [->|H2]; [congruence|]. eauto.
Qed.

Lemma NoDup_of_uniqueBy {K : Type} (key : Item -> K) (w : World) :
  NoDup (inventory (posData w)) -> uniqueBy key w ->
  NoDup (key <$> inventoryObjects w).
Proof.
  unfold uniqueBy, inventoryObjects.
  generalize (objects w) as h. generalize (inventory (posData w)) as ls.
  induction ls as [|a ls IH]; intros h Hnd Hu; [constructor|].
  apply NoDup_cons in Hnd as [Ha Hnd].
  assert (Hr : NoDup (key <$> omap (fun l => h !! l) ls)).
  { apply IH; [exact Hnd|]. intros l1 l2 o1 o2 H1 H2.
    apply Hu; right; assumption. }
  cbn [omap list_omap]. destruct (h !! a) as [oa|] eqn:Hoa; [|exact Hr].
  cbn. apply NoDup_cons. split; [|exact Hr].
  intros Hin. apply list_elem_of_fmap in Hin as (o & Ek & Ho).
  apply list_elem_of_omap in Ho as (l & Hl & Ho).
  apply Ha. rewrite (Hu a l oa o); auto; [left|right; exact Hl].
Qed.

Lemma sameKeys_refl (h : list Item) : sameKeys h h.
Proof. intros l _. reflexivity. Qed.

Lemma sameKeys_app (h k : list Item) : sameKeys h (h ++ k).
Proof. intros l Hl. rewrite lookup_app_l by exact Hl. reflexivity. Qed.

Lemma sameKeys_alter (g : Item -> Item) (i : nat) (h : list Item) :
  (forall o, item_id (g o) = item_id o /\ code (g o) = code o) ->
  sameKeys h (alter g i h).
Proof.
  intros Hg l _. destruct (decide (i = l)) as [->|Hne].
  - rewrite list_lookup_alter_eq. destruct (h !! l) as [o|]; [|reflexivity].
    simpl. destruct (Hg o) as [-> ->]. reflexivity.
  - rewrite list_lookup_alter_ne by exact Hne. reflexivity.
Qed.

Lemma sameKeys_bumpAll {X : Type} (op : Stock -> X -> Stock) (inv : list loc)
    (h : list Item) (reqs : list (string * X)) :
  sameKeys h (bumpAll op inv h reqs).
Proof. intros l _. apply bumpAll_keeps. reflexivity. Qed.

Lemma sameKeys_inv (h h' : list Item) (l : loc) (o' : Item) :
  sameKeys h h' -> (l < length h)%nat -> h' !! l = Some o' ->
  exists o, h !! l = Some o /\ item_id o' = item_id o /\ code o' = code o.
Proof.
  intros Hk Hl Ho'. specialize (Hk l Hl). rewrite Ho' in Hk.
  destruct (h !! l) as [o|]; [|discriminate]. simpl in Hk.
  injection Hk as E1 E2. eauto.
Qed.

(** A step that leaves the inventory array and the edit closure alone and
    keeps the keys of the objects. *)
Lemma inventoryInv_frame (w w' : World) :
  wf w ->
  sameKeys (objects w) (objects w') ->
  inventory (posData w') = inventory (posData w) ->
  editing w' = editing w ->
  inventoryInv w -> inventoryInv w'.
Proof.
  intros Hwf Hk Ei Ee (Hnd & Hc & Hi & He).
  assert (Hback : forall l o', l ∈ inventory (posData w) ->
            objects w' !! l = Some o' ->
            exists o, objects w !! l = Some o
                      /\ item_id o' = item_id o /\ code o' = code o).
  { intros l o' Hl. apply sameKeys_inv; [exact Hk|].
    apply (wf_valid w l Hwf). left. exact Hl. }
  unfold inventoryInv, uniqueBy, editingSound. rewrite Ei, Ee.
  split; [exact Hnd|]. split; [|split].
  - intros l1 l2 o1 o2 H1 H2 E1 E2 Ek.
    destruct (Hback l1 o1 H1 E1) as (p1 & P1 & _ & C1).
    destruct (Hback l2 o2 H2 E2) as (p2 & P2 & _ & C2).
    apply (Hc l1 l2 p1 p2); auto. congruence.
  - intros l1 l2 o1 o2 H1 H2 E1 E2 Ek.
    destruct (Hback l1 o1 H1 E1) as (p1 & P1 & C1 & _).
    destruct (Hback l2 o2 H2 E2) as (p2 & P2 & C2 & _).
    apply (Hi l1 l2 p1 p2); auto. congruence.
  - intros item id o' Hed Ho'.
    assert (Hv : (item < length (objects w))%nat).
    { apply (wf_valid w item Hwf). right. left. unfold editLoc.
      rewrite Hed. left. }
    destruct (sameKeys_inv _ _ _ _ Hk Hv Ho') as (o & Ho & E & _).
    rewrite E. exact (He item id o Hed Ho).
Qed.

Lemma inventoryInv_addItemToCart (item : Item) (q : Z) (w : World) :
  wf w -> inventoryInv w -> inventoryInv (after (addItemToCart item q w) w).
Proof.
  intros Hwf H. unfold addItemToCart.
  destruct (findLoc _ (objects w) (currentCart w)) as [existing|].
  - destruct (overStock _ _); [exact H|]. simpl.
    match goal with |- inventoryInv (renderCart ?x) =>
      destruct (renderCart_frame x) as (Ho & Hp & He & _) end.
    revert H. apply inventoryInv_frame; [exact Hwf| | |].
    + rewrite Ho. cbn [objects set_objects].
      apply sameKeys_alter. intros o. split; reflexivity.
    + rewrite Hp. reflexivity.
    + rewrite He. reflexivity.
  - destruct (overStock _ _); [exact H|]. simpl.
    match goal with |- inventoryInv (renderCart ?x) =>
      destruct (renderCart_frame x) as (Ho & Hp & He & _) end.
    revert H. apply inventoryInv_frame; [exact Hwf| | |].
    + rewrite Ho. cbn [objects set_objects set_currentCart].
      apply sameKeys_app.
    + rewrite Hp. reflexivity.
    + rewrite He. reflexivity.
Qed.

Lemma existsb_inventoryObjects (p : Item -> bool) (w : World) (l : loc)
    (o : Item) :
  existsb p (inventoryObjects w) = false ->
  l ∈ inventory (posData w) -> objects w !! l = Some o -> p o = false.
Proof.
  intros H Hl Ho. apply (existsb_false_elem p (inventoryObjects w) o H).
  apply list_elem_of_omap. eauto.
Qed.

Lemma inventoryInv_addInventoryItem (newId : string) (f : ItemForm)
    (w : World) :
  wf w -> drawsFreshItem w (OnPage (AddInventoryItem newId f)) = true ->
  inventoryInv w -> inventoryInv (after (addInventoryItem newId f w) w).
Proof.
  intros Hwf Hfresh H. pose proof H as (Hnd & Hc & Hi & He).
  unfold addInventoryItem.
  destruct (validNumbers f) as [[[p s] t]|]; [|exact H].
  destruct (findLoc _ (objects w) (inventory (posData w))) eqn:Hfind;
    [exact H|].
  simpl. unfold inventoryInv, uniqueBy, editingSound.
  cbn [objects set_objects set_posData posData inventory set_inventory
       editing].
  cbn [drawsFreshItem] in Hfresh. apply negb_true_iff in Hfresh.
  assert (Hv : forall l, l ∈ inventory (posData w) ->
                         (l < length (objects w))%nat).
  { intros l Hl. apply (wf_valid w l Hwf). left. exact Hl. }
  set (new := mkItem newId (trim (itemCodeInput f)) (trim (itemNameInput f))
                (trim (itemDescriptionInput f)) p (Fin s) (Some t) None).
  assert (Hold : forall l o, l ∈ inventory (posData w) ->
            (objects w ++ [new]) !! l = Some o -> objects w !! l = Some o).
  { intros l o Hl Ho. rewrite lookup_app_l in Ho by (apply Hv, Hl).
    exact Ho. }
  assert (Hnew : forall o, (objects w ++ [new]) !! length (objects w) = Some o
                           -> o = new).
  { intros o Ho. rewrite lookup_app_r in Ho by lia.
    rewrite Nat.sub_diag in Ho. simpl in Ho. congruence. }
  assert (Hcode : forall l o, l ∈ inventory (posData w) ->
            objects w !! l = Some o -> code o <> code new).
  { intros l o Hl Ho E.
    pose proof (findLoc_None _ _ _ Hfind l o Hl Ho) as Hp. simpl in Hp.
    apply String.eqb_neq in Hp. apply Hp. exact E. }
  assert (Hid : forall l o, l ∈ inventory (posData w) ->
            objects w !! l = Some o -> item_id o <> item_id new).
  { intros l o Hl Ho E.
    pose proof (existsb_inventoryObjects _ w l o Hfresh Hl Ho) as Hp.
    simpl in Hp. apply String.eqb_neq in Hp. apply Hp. exact E. }
  split; [|split; [|split]].
  - apply NoDup_app. split; [exact Hnd|]. split; [|apply NoDup_singleton].
    intros l Hl Hin. apply list_elem_of_singleton in Hin. subst l.
    specialize (Hv _ Hl). lia.
  - intros l1 l2 o1 o2 H1 H2 E1 E2 Ek.
    apply elem_of_app in H1 as [H1|H1], H2 as [H2|H2];
      rewrite ?list_elem_of_singleton in *; subst.
    + apply (Hc l1 l2 o1 o2); auto.
    + apply Hnew in E2. subst o2. exfalso.
      exact (Hcode l1 o1 H1 (Hold _ _ H1 E1) Ek).
    + apply Hnew in E1. subst o1. exfalso.
      exact (Hcode l2 o2 H2 (Hold _ _ H2 E2) (eq_sym Ek)).
    + reflexivity.
  - intros l1 l2 o1 o2 H1 H2 E1 E2 Ek.
    apply elem_of_app in H1 as [H1|H1], H2 as [H2|H2];
      rewrite ?list_elem_of_singleton in *; subst.
    + apply (Hi l1 l2 o1 o2); auto.
    + apply Hnew in E2. subst o2. exfalso.
      exact (Hid l1 o1 H1 (Hold _ _ H1 E1) Ek).
    + apply Hnew in E1. subst o1. exfalso.
      exact (Hid l2 o2 H2 (Hold _ _ H2 E2) (eq_sym Ek)).
    + reflexivity.
  - intros item id o Hed Ho. apply (He item id o Hed).
    rewrite lookup_app_l in Ho; [exact Ho|].
    apply (wf_valid w item Hwf). right. left. unfold editLoc.
    rewrite Hed. left.
Qed.

Lemma inventoryInv_editSubmit (f : ItemForm) (w : World) :
  inventoryInv w -> inventoryInv (after (editSubmit f w) w).
Proof.
  intros H. pose proof H as (Hnd & Hc & Hi & He).
  unfold editSubmit. destruct (editing w) as [[item id]|] eqn:Hed; [|exact H].
  destruct (validNumbers f) as [[[p s] t]|]; [|exact H].
  destruct (_ && _) eqn:Hcheck; [exact H|]. simpl.
  unfold inventoryInv, uniqueBy, editingSound.
  cbn [objects set_objects set_editing posData editing].
  set (g := editFields (trim (itemCodeInput f)) (trim (itemNameInput f))
              (trim (itemDescriptionInput f)) p s t).
  assert (Hother : forall l o, l <> item ->
            alter g item (objects w) !! l = Some o -> objects w !! l = Some o).
  { intros l o Hne Ho. rewrite list_lookup_alter_ne in Ho by auto. exact Ho. }
  assert (Hitem : forall o', alter g item (objects w) !! item = Some o' ->
            exists o, objects w !! item = Some o /\ o' = g o).
  { intros o' Ho'. rewrite list_lookup_alter_eq in Ho'.
    destruct (objects w !! item) as [o|]; [|discriminate].
    simpl in Ho'. exists o. split; congruence. }
  assert (Hclash : forall l o1 o2, item ∈ inventory (posData w) ->
            l ∈ inventory (posData w) -> l <> item ->
            objects w !! item = Some o1 -> objects w !! l = Some o2 ->
            code o2 = trim (itemCodeInput f) -> False).
  { intros l o1 o2 Hin Hl Hne Ho1 Ho2 Ecode.
    apply andb_false_iff in Hcheck as [Hch|Hex].
    - apply negb_false_iff in Hch. unfold holdsAt in Hch.
      rewrite Ho1 in Hch. apply String.eqb_eq in Hch.
      apply Hne. apply (Hc l item o2 o1); auto. congruence.
    - pose proof (existsb_false_elem _ _ l Hex Hl) as Hp.
      unfold holdsAt in Hp. rewrite Ho2 in Hp.
      apply andb_false_iff in Hp as [Hp|Hp].
      + apply String.eqb_neq in Hp. auto.
      + apply negb_false_iff, String.eqb_eq in Hp.
        apply Hne. apply (Hi l item o2 o1); auto.
        rewrite Hp. symmetry. exact (He item id o1 Hed Ho1). }
  split; [exact Hnd|]. split; [|split].
  - intros l1 l2 o1 o2 H1 H2 E1 E2 Ek.
    destruct (decide (l1 = item)) as [->|N1];
      destruct (decide (l2 = item)) as [->|N2]; [reflexivity| | |].
    + exfalso. destruct (Hitem _ E1) as (q1 & Q1 & ->).
      apply (Hclash l2 q1 o2); auto.
    + exfalso. destruct (Hitem _ E2) as (q2 & Q2 & ->).
      apply (Hclash l1 q2 o1); auto.
    + apply (Hc l1 l2 o1 o2); auto.
  - assert (Hback : forall l o', alter g item (objects w) !! l = Some o' ->
              exists o, objects w !! l = Some o /\ item_id o' = item_id o).
    { intros l o' Ho'. destruct (decide (l = item)) as [->|Hne].
      - destruct (Hitem _ Ho') as (o & Ho & ->). exists o. auto.
      - exists o'. auto. }
    intros l1 l2 o1 o2 H1 H2 E1 E2 Ek.
    destruct (Hback _ _ E1) as (q1 & Q1 & I1).
    destruct (Hback _ _ E2) as (q2 & Q2 & I2).
    apply (Hi l1 l2 q1 q2); auto. congruence.
  - intros item' id' o [=].
Qed.

Lemma inventoryInv_handle (w : World) (e : Event) :
  wf w -> drawsFreshItem w (OnPage e) = true ->
  inventoryInv w -> inventoryInv (handle w e).
Proof.
  intros Hwf Hfresh H.
  assert (Hsame : forall w', objects w' = objects w ->
            inventory (posData w') = inventory (posData w) ->
            editing w' = editing w -> inventoryInv w').
  { intros w' Eo Ei Ee. revert H.
    apply inventoryInv_frame; auto. rewrite Eo. apply sameKeys_refl. }
  event_cases e.
  - apply inventoryInv_addInventoryItem; assumption.
  - (* EditInventoryItem *)
    unfold editInventoryItem.
    destruct (findLoc _ (objects w) (inventory (posData w))) as [item|] eqn:Hf;
      [|exact H].
    apply findLoc_Some in Hf as (_ & o & Ho & Hid). simpl in Hid.
    apply String.eqb_eq in Hid.
    destruct H as (Hnd & Hc & Hi & He). simpl.
    split; [exact Hnd|]. split; [exact Hc|]. split; [exact Hi|].
    intros item' id' o' [= <- <-] Ho'. cbn [objects set_editing] in Ho'.
    congruence.
  - apply inventoryInv_editSubmit, H.
  - (* DeleteInventoryItem *)
    destruct H as (Hnd & Hc & Hi & He).
    unfold deleteInventoryItem, inventoryInv, uniqueBy, editingSound.
    cbn [objects set_posData posData inventory set_inventory editing].
    split; [apply NoDup_filter, Hnd|].
    split; [|split; [|exact He]]; intros l1 l2 o1 o2 H1 H2;
      apply elem_of_filter_b in H1 as [_ H1];
      apply elem_of_filter_b in H2 as [_ H2];
      [apply (Hc l1 l2 o1 o2)|apply (Hi l1 l2 o1 o2)]; assumption.
  - (* AddItemByBarcode *)
    unfold addItemByBarcode. destruct (trim barcodeInput =? ""); [exact H|].
    destruct (inventoryItemByCode _ w) as [item|]; [|exact H].
    apply inventoryInv_addItemToCart; assumption.
  - (* AddManualItem *)
    unfold addManualItem.
    destruct priceInput as [p|]; [|exact H].
    destruct qtyInput as [q|]; [|exact H].
    destruct (_ || _); [exact H|].
    destruct (inventoryItemByCode _ w) as [it|];
      [|apply inventoryInv_addItemToCart; assumption].
    destruct (exceeds q (stock it)); [exact H|].
    apply inventoryInv_addItemToCart; assumption.
  - (* RemoveCartItem *)
    unfold removeCartItem.
    match goal with |- inventoryInv (renderCart ?x) =>
      destruct (renderCart_frame x) as (Ho & Hp & He & _) end.
    apply Hsame; [rewrite Ho|rewrite Hp|rewrite He]; reflexivity.
  - (* DiscountValueInput *)
    unfold onDiscountValueInput.
    destruct (calculateGrandTotal_frame None (set_discountValueInput v w))
      as (Ho & Hp & He & _).
    apply Hsame; [rewrite Ho|rewrite Hp|rewrite He]; reflexivity.
  - (* DiscountTypeChange *)
    unfold onDiscountTypeChange.
    destruct (calculateGrandTotal_frame None (set_discountTypeSelect ty w))
      as (Ho & Hp & He & _).
    apply Hsame; [rewrite Ho|rewrite Hp|rewrite He]; reflexivity.
  - (* ProcessBill *)
    destruct (processBill dr f w) as [w'|] eqn:Hrun; [|exact H]. simpl.
    destruct (objects_processBill dr f w w' Hrun) as [Ho Hp].
    destruct (processBill_shape dr f w w' Hrun) as [He _].
    revert H. apply inventoryInv_frame; [exact Hwf| |exact Hp|exact He].
    rewrite Ho, sellAll_bumpAll.
    intros l Hl. rewrite (sameKeys_bumpAll _ _ _ _ l).
    + apply sameKeys_app, Hl.
    + unfold deepCopy. cbn [fst]. rewrite length_app. lia.
  - (* AddGrnItem *)
    unfold addGrnItem. destruct qtyInput as [q|]; [|exact H].
    destruct (_ || _); [exact H|].
    destruct (inventoryItemByCode _ w); [|exact H].
    destruct (findLoc _ (grnObjects w) (currentGrnItems w));
      apply Hsame; reflexivity.
  - (* CreateGrn *)
    unfold createGrn. destruct (currentGrnItems w) as [|g0 gs]; [exact H|].
    destruct (_ || _); [exact H|]. simpl.
    revert H. apply inventoryInv_frame; simpl; auto.
    rewrite receiveAll_bumpAll. apply sameKeys_bumpAll.
  - (* AddInstallment *)
    destruct (addInstallment_frame eid tday payId chqId f (posData w))
      as [Hi _].
    apply Hsame; simpl; [reflexivity|exact Hi|reflexivity].
  - destruct (deleteCreditBill_frame id (posData w)) as [Hi _].
    apply Hsame; simpl; [reflexivity|exact Hi|reflexivity].
  - destruct (updateChequeStatus_frame id newStatus (posData w)) as [Hi _].
    apply Hsame; simpl; [reflexivity|exact Hi|reflexivity].
  - destruct (channels_frame (posData w)) as [Hadd _].
    destruct (Hadd newId cname cregNo caddress chotline logo) as [Hi _].
    apply Hsame; simpl; [reflexivity|exact Hi|reflexivity].
  - destruct (channels_frame (posData w)) as [_ Hdel].
    destruct (Hdel id) as [Hi _].
    apply Hsame; simpl; [reflexivity|exact Hi|reflexivity].
  - (* ShowSection *)
    unfold showSection. destruct (sectionId =? "billing-section").
    + destruct (resetBillingForm_frame w) as (Ho & Hp & _).
      apply Hsame; [rewrite Ho|rewrite Hp|apply editing_resetBillingForm];
        reflexivity.
    + destruct (sectionId =? "grn-section"); [|exact H].
      apply Hsame; reflexivity.
Qed.

Lemma inventoryInv_perform (w : World) (c : Command) :
  wf w -> drawsFreshItem w c = true ->
  inventoryInv w -> inventoryInv (perform w c).
Proof.
  intros Hwf Hfresh H.
  assert (Hdoc : forall g, (forall d, inventory (g d) = inventory d) ->
                           inventoryInv (onDoc g w)).
  { intros g Hg. revert H. apply inventoryInv_frame; simpl; auto.
    apply sameKeys_refl. }
  destruct c as [e|newId f|id f|id|id|id|id|eid v|itemId]; cbn [perform].
  - apply inventoryInv_handle; assumption.
  - apply Hdoc. intros d. unfold addCustomer.
    destruct (customerCreditLimitInput f) as [l|]; [|reflexivity].
    destruct (Qltb l 0); reflexivity.
  - apply Hdoc. intros d. unfold editCustomer.
    destruct (findIndex _ _); [|reflexivity].
    destruct (customerCreditLimitInput f) as [l|]; [|reflexivity].
    destruct (Qltb l 0); reflexivity.
  - apply Hdoc. intros d. unfold deleteCustomer.
    destruct (hasOutstandingCredit _ _); reflexivity.
  - apply Hdoc. reflexivity.
  - apply Hdoc. reflexivity.
  - apply Hdoc. reflexivity.
  - apply Hdoc. intros d. unfold saveCreditBillChanges.
    destruct (findCreditBill _ _); reflexivity.
  - revert H. apply inventoryInv_frame; simpl; auto. apply sameKeys_refl.
Qed.

Lemma freshItemsFrom_snoc (w : World) (cs : list Command) (c : Command) :
  freshItemsFrom w (cs ++ [c]) = true ->
  freshItemsFrom w cs = true
  /\ drawsFreshItem (fold_left perform cs w) c = true.
Proof.
  revert w. induction cs as [|x cs IH]; intros w H; simpl in *.
  - apply andb_true_iff in H as [H _]. split; [reflexivity|exact H].
  - apply andb_true_iff in H as [Hx H]. destruct (IH _ H) as [H1 H2].
    rewrite Hx, H1. split; [reflexivity|exact H2].
Qed.

(** X20: the codes of the inventory stay unique.  In a session that
    starts from a document in which no two inventory entries share a code
    or an id (the empty inventory of a first start is one), and in which
    the ids drawn for new items are new, no two entries of the inventory
    share a code or an id on any page: neither adding an item, nor an edit
    that changes a code, nor the two listeners of the form together bring
    a code in twice. *)
Theorem inventory_codes_stay_unique (data : option RawDoc)
    (cs : list Command) :
  NoDup (code <$> inventoryObjects (boot data)) ->
  NoDup (item_id <$> inventoryObjects (boot data)) ->
  freshItemsFrom (boot data) cs = true ->
  NoDup (code <$> inventoryObjects (session data cs))
  /\ NoDup (item_id <$> inventoryObjects (session data cs)).
Proof.
  intros Hc0 Hi0 Hfresh.
  assert (H : inventoryInv (session data cs)).
  { induction cs as [|c cs IH] using rev_ind.
    - split; [apply NoDup_seq|].
      split; [apply uniqueBy_of_NoDup, Hc0|].
      split; [apply uniqueBy_of_NoDup, Hi0|].
      intros item id o [=].
    - apply freshItemsFrom_snoc in Hfresh as [Hf1 Hf2].
      rewrite session_snoc.
      apply inventoryInv_perform; [apply wf_session|exact Hf2|exact (IH Hf1)]. }
  destruct H as (Hnd & Hc & Hi & _).
  split; apply NoDup_of_uniqueBy; assumption.
Qed.

(** ** A deleted GRN *)

(** X21: deleting a GRN does not take the receipt back.  After a GRN has
    been created and deleted again, the record is gone from the list
    (together with any older record of the same id) and the list is as it
    was before when no older record has that id, but the objects of the
    store, and with them the stock the GRN brought in, are as the GRN left
    them. *)
Theorem deleted_grn_keeps_the_stock (stamp supplierInput grnDateInput : string)
    (w w' : World) :
  createGrn stamp supplierInput grnDateInput w = Ok w' ->
  let id := String.append "GRN-" stamp in
  let w'' := perform w' (DeleteGrn id) in
  objects w'' = objects w'
  /\ inventory (posData w'') = inventory (posData w')
  /\ grns (posData w'')
     = filter (fun grn => negb (grn_id grn =? id)) (grns (posData w))
  /\ ((forall g, g ∈ grns (posData w) -> grn_id g <> id) ->
      grns (posData w'') = grns (posData w)).
Proof.
  intros Hrun. cbv zeta.
  assert (Hg : grns (posData (perform w' (DeleteGrn (String.append "GRN-" stamp))))
               = filter (fun grn => negb (grn_id grn =? String.append "GRN-" stamp))
                        (grns (posData w))).
  { unfold createGrn in Hrun.
    destruct (currentGrnItems w) as [|g0 gs]; [discriminate|].
    destruct (_ || _); [discriminate|]. injection Hrun as <-.
    cbn [perform onDoc deleteGrn posData set_posData set_currentGrnItems
         set_grnObjects set_objects grns set_grns].
    rewrite filter_app, filter_cons_b. cbn [grn_id].
    rewrite String.eqb_refl. cbn [negb]. rewrite filter_nil.
    apply app_nil_r. }
  split; [reflexivity|]. split; [reflexivity|]. split; [exact Hg|].
  intros Hfresh. rewrite Hg. apply filter_all. intros g Hin.
  apply negb_true_iff, String.eqb_neq, Hfresh, Hin.
Qed.

(* ------------------------------------------------------------------ *)
(** ** Worked runs of the sample session *)

(** Runs the handler and keeps the page it gives. *)
Ltac run_ok Hrun :=
  match goal with
  | |- context [processBill ?dr ?f ?w] =>
      destruct (processBill dr f w) as [?w'|?msg] eqn:Hrun;
      [|vm_compute in Hrun; discriminate]
  end.

Lemma ledger_refers_to_sales_witness :
  refersToSales (posData (boot None))
  /\ exists p sale,
       payments (posData (session None sampleSession)) !! 1%nat = Some p
       /\ sale ∈ sales (posData (session None sampleSession))
       /\ sale_id sale = pay_billId p.
Proof.
  assert (H0 : refersToSales (posData (boot None))).
  { intros id Hid. vm_compute in Hid. inversion Hid. }
  split; [exact H0|].
  destruct (ledger_refers_to_sales None sampleSession H0) as (Hp & _).
  destruct (payments (posData (session None sampleSession)) !! 1%nat)
    as [p|] eqn:E; [|vm_compute in E; discriminate].
  destruct (Hp p (list_elem_of_lookup_2 _ _ _ E)) as (sale & Hin & Hid).
  exists p, sale. auto.
Defined.


Lemma unpaid_bill_has_its_customer_witness :
  debtorsKnown (posData (boot None))
  /\ exists b,
       creditBills (posData (session None sampleSession)) !! 0%nat = Some b
       /\ (0 < dueAmount b)%Q
       /\ exists c, c ∈ customers (posData (session None sampleSession))
                    /\ cust_id c = customerId b.
Proof.
  assert (H0 : debtorsKnown (posData (boot None))).
  { intros b Hb. vm_compute in Hb. inversion Hb. }
  split; [exact H0|].
  destruct (creditBills (posData (session None sampleSession)) !! 0%nat)
    as [b|] eqn:E; [|vm_compute in E; discriminate].
  assert (Hdue : (0 < dueAmount b)%Q).
  { vm_compute in E. injection E as <-. reflexivity. }
  exists b. split; [reflexivity|]. split; [exact Hdue|].
  exact (unpaid_bill_has_its_customer None sampleSession H0 b
           (list_elem_of_lookup_2 _ _ _ E) Hdue).
Defined.


Lemma recorded_sales_are_final_witness :
  let w := session None sampleSession in
  let w' := perform w (OnPage (DeleteInventoryItem uuid1)) in
  2%nat ∈ saleLines w
  /\ inventory (posData w') = []
  /\ objects w' !! 2%nat = objects w !! 2%nat.
Proof.
  cbv zeta.
  assert (Hin : 2%nat ∈ saleLines (session None sampleSession)).
  { apply list_elem_of_lookup_2 with 0%nat. vm_compute. reflexivity. }
  split; [exact Hin|]. split; [vm_compute; reflexivity|].
  destruct (recorded_sales_are_final None sampleSession
              (OnPage (DeleteInventoryItem uuid1))) as [_ H].
  exact (H 2%nat Hin).
Defined.

Lemma cart_lines_change_in_quantity_only_witness :
  let w := session None sampleShopping in
  let c := OnPage (AddManualItem uuid3 "SKU2" "Rice" (Some 250%Q)
                                 (Some 1%Z)) in
  1%nat ∈ currentCart w
  /\ (qty <$> objects (perform w c) !! 1%nat) = Some (Some 3%Z)
  /\ set_qty None <$> objects (perform w c) !! 1%nat
     = set_qty None <$> objects w !! 1%nat.
Proof.
  cbv zeta.
  assert (Hin : 1%nat ∈ currentCart (session None sampleShopping)).
  { apply list_elem_of_lookup_2 with 0%nat. vm_compute. reflexivity. }
  split; [exact Hin|]. split; [vm_compute; reflexivity|].
  exact (cart_lines_change_in_quantity_only None sampleShopping _ 1%nat Hin).
Defined.


Lemma deleteCustomer_guard_witness :
  let d := posData (session None sampleSession) in
  isOk (deleteCustomer uuid2 d) = false
  /\ exists d', deleteCustomer uuid1 d = Ok d'
                /\ customers d' `sublist_of` customers d
                /\ creditBills d' = creditBills d.
Proof.
  cbv zeta.
  destruct (deleteCustomer_guard (posData (session None sampleSession)) uuid2)
    as [Hno _].
  destruct (deleteCustomer_guard (posData (session None sampleSession)) uuid1)
    as [_ Hyes].
  split.
  - destruct (creditBills (posData (session None sampleSession)) !! 0%nat)
      as [b|] eqn:E; [|vm_compute in E; discriminate].
    apply (Hno b (list_elem_of_lookup_2 _ _ _ E));
      vm_compute in E; injection E as <-; reflexivity.
  - destruct Hyes as (d' & Hrun & _ & Hsub & Hbills & _).
    + intros b Hb Hid. exfalso. vm_compute in Hb.
      apply list_elem_of_singleton in Hb. subst b. discriminate.
    + exists d'. auto.
Defined.

Lemma credit_sale_blocks_deletion_witness :
  let w := session None sampleShopping in
  let f := billForm "registered" uuid2 "credit" in
  paymentMethodSelect f = "credit"
  /\ (0 < cartGrandtotalSpan w)%Q
  /\ exists w',
       processBill sampleDraw f w = Ok w'
       /\ deleteCustomer uuid2 (posData w')
          = Err "Cannot delete customer with outstanding credit bills. Please settle all credit bills first.".
Proof.
  cbv zeta. split; [reflexivity|]. split; [vm_compute; reflexivity|].
  run_ok Hrun. exists w'. split; [reflexivity|].
  apply (credit_sale_blocks_deletion sampleDraw
           (billForm "registered" uuid2 "credit")
           (session None sampleShopping) w' eq_refl);
    [vm_compute; reflexivity|exact Hrun].
Defined.






Lemma receipt_after_channel_deleted_witness :
  let d := posData (session None branchSession) in
  exists d' sale,
    deleteDistributionChannel uuid3 d = Ok d'
    /\ sales d !! 0%nat = Some sale
    /\ channelId sale = uuid3
    /\ receiptHead sale d = Some (placeholder80, "Branch", "Galle", "091")
    /\ receiptHead sale d'
       = Some (placeholder80, "Your Shop Name",
               "123 Main Street, Colombo, Sri Lanka", "077-1234567").
Proof.
  cbv zeta.
  destruct (deleteDistributionChannel uuid3
              (posData (session None branchSession))) as [d'|msg] eqn:Hrun;
    [|vm_compute in Hrun; discriminate].
  destruct (sales (posData (session None branchSession)) !! 0%nat)
    as [sale|] eqn:E; [|vm_compute in E; discriminate].
  assert (Hch : channelId sale = uuid3).
  { vm_compute in E. injection E as <-. reflexivity. }
  exists d', sale. split; [reflexivity|]. split; [reflexivity|].
  split; [exact Hch|]. split.
  - vm_compute in E. injection E as <-. vm_compute. reflexivity.
  - destruct (receipt_after_channel_deleted uuid3 _ d' sale Hrun) as [H _].
    rewrite (H Hch). vm_compute. reflexivity.
Defined.


Lemma step_stays_in_range_witness :
  let c := stepAfter 3 [NextButton; NextButton; NextButton; PrevButton] in
  (S c < 3)%nat /\ prevStep (nextStep 3 c) = c.
Proof.
  cbv zeta.
  assert (H : (S (stepAfter 3 [NextButton; NextButton; NextButton;
                               PrevButton]) < 3)%nat) by (vm_compute; lia).
  split; [exact H|].
  destruct (step_stays_in_range 3 [NextButton; NextButton; NextButton;
                                   PrevButton]) as (_ & _ & _ & _ & Hu & _).
  exact (Hu H).
Defined.

Lemma inventory_codes_stay_unique_witness :
  NoDup (code <$> inventoryObjects (boot None))
  /\ NoDup (item_id <$> inventoryObjects (boot None))
  /\ freshItemsFrom (boot None) sampleSession = true
  /\ NoDup (code <$> inventoryObjects (session None sampleSession))
  /\ NoDup (item_id <$> inventoryObjects (session None sampleSession)).
Proof.
  assert (H1 : NoDup (code <$> inventoryObjects (boot None))) by constructor.
  assert (H2 : NoDup (item_id <$> inventoryObjects (boot None)))
    by constructor.
  assert (H3 : freshItemsFrom (boot None) sampleSession = true)
    by (vm_compute; reflexivity).
  split; [exact H1|]. split; [exact H2|]. split; [exact H3|].
  exact (inventory_codes_stay_unique None sampleSession H1 H2 H3).
Defined.

Lemma deleted_grn_keeps_the_stock_witness :
  let w := session None receivingSession in
  exists w',
    createGrn "1750000000001" "Lanka Mills" "2025-06-16" w = Ok w'
    /\ (stock <$> objects w !! 0%nat) = Some (Fin 20)
    /\ (stock <$> objects (perform w' (DeleteGrn "GRN-1750000000001")) !! 0%nat)
       = Some (Fin 25)
    /\ grns (posData (perform w' (DeleteGrn "GRN-1750000000001"))) = [].
Proof.
  cbv zeta.
  destruct (createGrn "1750000000001" "Lanka Mills" "2025-06-16"
              (session None receivingSession)) as [w'|msg] eqn:Hrun;
    [|vm_compute in Hrun; discriminate].
  exists w'. split; [reflexivity|]. split; [vm_compute; reflexivity|].
  destruct (deleted_grn_keeps_the_stock _ _ _ _ w' Hrun)
    as (Ho & _ & _ & Hg).
  cbv zeta in Ho, Hg. split.
  - change (String.append "GRN-" "1750000000001")
      with "GRN-1750000000001" in Ho.
    rewrite Ho. vm_compute in Hrun. injection Hrun as <-. reflexivity.
  - change (String.append "GRN-" "1750000000001")
      with "GRN-1750000000001" in Hg.
    rewrite Hg; [reflexivity|]. intros g Hin. vm_compute in Hin.
    inversion Hin.
Defined.
